(** * video2video: the frame-consistency pipeline, embedded and verified

    A shallow embedding of the TypeScript sources of the video2video
    application:

    - [src/components/VideoEditor.tsx]   (modules [PromptSynthesis], [VideoEditor])
    - [src/lib/gemini-editor.ts]         (module [GeminiEditor])
    - [src/lib/video-processor.ts]       (module [VideoProcessor])
    - [app/api/edit-frame/route.ts]      (module [EditFrameRoute])
    - [app/api/analyze-diff/route.ts]    (module [AnalyzeDiffRoute])
    - [app/api/extract-frames/route.ts]  (module [ExtractFramesRoute], both variants)
    - [app/api/reassemble-video/route.ts] (modules [Fs], [ReassembleRoute])
    - [app/api/smooth-video/route.ts]    (module [SmoothVideoRoute])

    JavaScript strings are sequences of UTF-16 code units; external
    services (the image-edit service, the reasoning model, ffmpeg, the
    network) are oracles passed to the handlers; React state is an explicit
    record threaded through the handlers, which also return the trace of
    what they asked of the outside world; the completion order of
    concurrent requests is a parameter; the temporary directory of the
    server is a finite map. Console output is left out throughout. *)

From Stdlib Require Import ZArith QArith Qround Lia String Ascii.
From stdpp Require Import base list gmap strings pretty.

Local Open Scope Z_scope.

(** ** JavaScript strings *)

Module JS.

(** A JS string is a sequence of UTF-16 code units. *)
Definition jsstring := list N.

Fixpoint lit (s : string) : jsstring :=
  match s with
  | EmptyString => []
  | String a r => N_of_ascii a :: lit r
  end.

Definition dquote : N := 34%N.
Definition newline : N := 10%N.

(** [s.length] *)
Definition len (s : jsstring) : Z := Z.of_nat (length s).

(** [String.prototype.substring(start, end)]: both arguments are clamped
    to [0, length] and swapped when out of order. *)
Definition clamp (n x : Z) : Z := Z.min (Z.max x 0) n.

Definition substring (s : jsstring) (start end_ : Z) : jsstring :=
  let finalStart := clamp (len s) start in
  let finalEnd := clamp (len s) end_ in
  let from := Z.min finalStart finalEnd in
  let to := Z.max finalStart finalEnd in
  take (Z.to_nat (to - from)) (drop (Z.to_nat from) s).

(** [s.startsWith(p)] *)
Definition startsWith (s p : jsstring) : bool :=
  bool_decide (take (length p) s = p).

(** [n.toString()] for a non-negative integer. *)
Definition toString (n : nat) : jsstring := lit (pretty n).

(** [s.padStart(k, "0")] *)
Definition padStart0 (k : nat) (s : jsstring) : jsstring :=
  replicate (k - length s)%nat 48%N ++ s.

(** Truthiness of an optional string: [undefined] and the empty string
    are falsy. *)
Definition truthy (o : option jsstring) : bool :=
  match o with
  | Some (_ :: _) => true
  | _ => false
  end.

(** The code units of WhiteSpace and LineTerminator, which
    [String.prototype.trim] strips. *)
Definition isWhiteSpace (c : N) : bool :=
  bool_decide (c ∈ [9; 10; 11; 12; 13; 32; 160; 5760; 8232; 8233; 8239; 8287; 12288; 65279]%N)
  || (N.leb 8192 c && N.leb c 8202).

Fixpoint trimStart (s : jsstring) : jsstring :=
  match s with
  | [] => []
  | c :: r => if isWhiteSpace c then trimStart r else s
  end.

Definition trimEnd (s : jsstring) : jsstring := reverse (trimStart (reverse s)).

(** [s.trim()] *)
Definition trim (s : jsstring) : jsstring := trimEnd (trimStart s).

(** [s.split(sep)] for a separator of one code unit. *)
Fixpoint split (sep : N) (s : jsstring) : list jsstring :=
  match s with
  | [] => [[]]
  | c :: r =>
      if bool_decide (c = sep) then [] :: split sep r
      else
        match split sep r with
        | piece :: pieces => (c :: piece) :: pieces
        | [] => [[c]]
        end
  end.

End JS.

Import JS.

(** ** VideoEditor.tsx: prompt synthesis for a non-reference frame *)

Module PromptSynthesis.

Definition truncationMarker : jsstring := lit "... [truncated]".

(** [const maxDiffLength = 1500 - originalPrompt.length] *)
Definition maxDiffLength (originalPrompt : jsstring) : Z :=
  1500 - len originalPrompt.

(** [detailedDiffSpec.length > maxDiffLength
      ? detailedDiffSpec.substring(0, maxDiffLength) + "... [truncated]"
      : detailedDiffSpec] *)
Definition truncatedDiff (detailedDiffSpec originalPrompt : jsstring) : jsstring :=
  if Z.ltb (maxDiffLength originalPrompt) (len detailedDiffSpec)
  then substring detailedDiffSpec 0 (maxDiffLength originalPrompt) ++ truncationMarker
  else detailedDiffSpec.

Definition promptHead : jsstring := lit "Apply this specification: " ++ [dquote].
Definition promptMid : jsstring := [dquote; newline; newline] ++ lit "Details: ".
Definition promptTail : jsstring :=
  [newline; newline] ++ lit "Apply these changes precisely to maintain consistency.".

(** The template literal [diffBasedPrompt] of [processFrameWithDiff]. *)
Definition diffBasedPrompt (detailedDiffSpec originalPrompt : jsstring) : jsstring :=
  promptHead ++ originalPrompt ++ promptMid
    ++ truncatedDiff detailedDiffSpec originalPrompt ++ promptTail.

(** The prompt of the reference frame (phase 1 of [handleProcessFrames]). *)
Definition firstFramePrompt (prompt : jsstring) : jsstring :=
  lit "Edit this video frame:" ++ [newline; newline; dquote] ++ prompt
    ++ [dquote; newline; newline]
    ++ lit "This is the first frame - apply the requested change clearly and distinctly.".

End PromptSynthesis.

(** ** app/api/edit-frame/route.ts *)

Module EditFrameRoute.

Inductive Response :=
| Json200 (url : jsstring)      (* [result.data], read as [images[0].url] *)
| Err400 (msg : jsstring)
| Err422
| Err500.

(** Outcome of [fal.subscribe]. *)
Inductive FalOutcome :=
| FalOk (url : jsstring)
| FalInvalid                    (* [falError.status === 422] *)
| FalError.

Record Env := {
  falApiKey : option jsstring;  (* [FAL_KEY || FAL_API_KEY] *)
  falSubscribe : jsstring -> list jsstring -> FalOutcome
}.

(** The per-image checks of the validation loop; [None] when the image
    passes. *)
Definition imageError (i : nat) (imageUrl : jsstring) : option jsstring :=
  if negb (startsWith imageUrl (lit "data:image/")) && negb (startsWith imageUrl (lit "http"))
  then Some (lit "Invalid image URL format at index " ++ toString i)
  else if startsWith imageUrl (lit "data:") && Z.ltb (10 * 1024 * 1024) (len imageUrl)
  then Some (lit "Image too large at index " ++ toString i ++ lit ". Please use smaller images.")
  else None.

Fixpoint validateImages (i : nat) (imageUrls : list jsstring) : option jsstring :=
  match imageUrls with
  | [] => None
  | u :: rest =>
      match imageError i u with
      | Some e => Some e
      | None => validateImages (S i) rest
      end
  end.

Definition POST (env : Env) (prompt : option jsstring) (imageUrls : option (list jsstring))
  : Response :=
  if negb (truthy (falApiKey env)) then Err500
  else
    match prompt, imageUrls with
    | Some (c :: p), Some (u :: us) =>
        let prompt := c :: p in
        let imageUrls := u :: us in
        if Z.ltb 2000 (len prompt)
        then Err400 (lit "Prompt too long. Maximum 2000 characters.")
        else
          match validateImages 0 imageUrls with
          | Some e => Err400 e
          | None =>
              match falSubscribe env prompt imageUrls with
              | FalOk url => Json200 url
              | FalInvalid => Err422
              | FalError => Err500
              end
          end
    | _, _ => Err400 (lit "Missing required parameters")
    end.

(** The earlier variant of the route, which hands every request with a
    prompt and an image to the service and answers 500 to all of its
    errors. *)
Definition POST_unvalidated (env : Env) (prompt : option jsstring)
    (imageUrls : option (list jsstring)) : Response :=
  if negb (truthy (falApiKey env)) then Err500
  else
    match prompt, imageUrls with
    | Some (c :: p), Some (u :: us) =>
        match falSubscribe env (c :: p) (u :: us) with
        | FalOk url => Json200 url
        | FalInvalid | FalError => Err500
        end
    | _, _ => Err400 (lit "Missing required parameters")
    end.

(** The status code of a response. *)
Definition status (response : Response) : Z :=
  match response with
  | Json200 _ => 200
  | Err400 _ => 400
  | Err422 => 422
  | Err500 => 500
  end.

End EditFrameRoute.

(** ** app/api/analyze-diff/route.ts *)

Module AnalyzeDiffRoute.

Inductive Response :=
| Json200 (detailedDiff : jsstring) (diffLength : Z)
| Err400
| Err500.

Record Env := {
  googleApiKey : option jsstring;
  (** [fetch(editedFrameUrl)]: the bytes of the edited frame when [ok]. *)
  fetchEdited : jsstring -> option jsstring;
  (** [model.generateContent(...)] followed by [response.text()];
      [None] when the call throws. *)
  generateContent : jsstring -> jsstring -> jsstring -> option jsstring
}.

(** "Enforce 5000 character limit for image model". *)
Definition enforceLimit (detailedDiff : jsstring) : jsstring :=
  if Z.ltb 5000 (len detailedDiff)
  then substring detailedDiff 0 4997 ++ lit "..."
  else detailedDiff.

Definition POST (env : Env)
    (originalPrompt originalFrameBase64 editedFrameUrl : option jsstring) : Response :=
  if negb (truthy (googleApiKey env)) then Err500
  else
    match originalPrompt, originalFrameBase64, editedFrameUrl with
    | Some (c1 :: p), Some (c2 :: o), Some (c3 :: e) =>
        match fetchEdited env (c3 :: e) with
        | None => Err500
        | Some editedFrame =>
            match generateContent env (c1 :: p) (c2 :: o) editedFrame with
            | None => Err500
            | Some text =>
                let detailedDiff := enforceLimit text in
                Json200 detailedDiff (len detailedDiff)
            end
        end
    | _, _, _ => Err400
    end.

End AnalyzeDiffRoute.

(** ** app/api/extract-frames/route.ts (sequential and parallel variants)

    JavaScript numbers are idealised as exact rationals: [duration] and
    [fps] come from ffprobe, [fps] being the evaluated ratio
    [r_frame_rate]. The temporary files of this route are not part of the
    model: the response does not depend on them. *)

Module ExtractFramesRoute.

Record FrameData := {
  index : nat;
  timestamp : Q;
  filename : jsstring;
  base64 : jsstring
}.

Record Metadata := {
  duration : Q;
  fps : Q;
  width : Z;
  height : Z
}.

Inductive Response :=
| Json200 (frames : list FrameData) (metadata : Metadata)
| Err400
| Err500.

Record Env := {
  videoId : jsstring;                          (* [randomUUID()] *)
  (** ffprobe on the uploaded file; [None] when the probe fails or the
      file has no video stream. *)
  ffprobe : jsstring -> option Metadata;
  (** ffmpeg single-frame extraction at a timestamp, then [readFile]
      and base64 encoding; [None] when either throws. *)
  ffmpegFrame : jsstring -> Q -> option jsstring
}.

(** [Number(formData.get(name) || dflt)] *)
Definition formNumber (field : option Z) (dflt : Z) : Z :=
  match field with
  | Some v => v
  | None => dflt
  end.

(** [Math.floor(duration * fps)] *)
Definition totalFrames (m : Metadata) : Z := Qfloor (duration m * fps m).

(** [Math.max(1, interval)] *)
Definition frameInterval (interval : Z) : Z := Z.max 1 interval.

(** [Math.min(Math.floor(totalFrames / frameInterval), maxFrames)] *)
Definition framesToExtract (m : Metadata) (interval maxFrames : Z) : Z :=
  Z.min (totalFrames m / frameInterval interval) maxFrames.

(** [const frameNumber = i * frameInterval; const timestamp = frameNumber / fps] *)
Definition timestampOf (m : Metadata) (interval : Z) (i : nat) : Q :=
  (inject_Z (Z.of_nat i * frameInterval interval) / fps m)%Q.

Definition frameFilename (env : Env) (i : nat) : jsstring :=
  lit "frame_" ++ videoId env ++ lit "_" ++ toString i ++ lit ".png".

Definition dataUri (b64 : jsstring) : jsstring := lit "data:image/png;base64," ++ b64.

(** The sequential [for] loop: [n] iterations remain, [i] is the loop
    counter, [frames] the array being pushed to. A failing ffmpeg call
    throws out of the loop. *)
Fixpoint extractLoop (env : Env) (file : jsstring) (m : Metadata) (interval : Z)
    (n : nat) (i : nat) (frames : list FrameData) : option (list FrameData) :=
  match n with
  | O => Some frames
  | S n' =>
      let ts := timestampOf m interval i in
      match ffmpegFrame env file ts with
      | None => None
      | Some b64 =>
          extractLoop env file m interval n' (S i)
            (frames ++ [{| index := i; timestamp := ts;
                           filename := frameFilename env i; base64 := dataUri b64 |}])
      end
  end.

(** The parallel variant first fills [frameInfos] ... *)
Definition frameInfos (env : Env) (m : Metadata) (interval : Z) (n : nat)
  : list (nat * Q * jsstring) :=
  (fun i => (i, timestampOf m interval i, frameFilename env i)) <$> seq 0 n.

(** ... then maps an extraction over it and awaits [Promise.all], which
    keeps the order of [frameInfos] and rejects when one member does. *)
Definition extractAll (env : Env) (file : jsstring)
    (infos : list (nat * Q * jsstring)) : option (list FrameData) :=
  mapM (fun '(i, ts, name) =>
          b64 ← ffmpegFrame env file ts;
          Some {| index := i; timestamp := ts; filename := name; base64 := dataUri b64 |})
       infos.

Definition handler (parallel : bool) (env : Env) (file : option jsstring)
    (interval maxFrames : option Z) : Response :=
  let interval := formNumber interval 30 in
  let maxFrames := formNumber maxFrames 10 in
  match file with
  | None => Err400
  | Some file =>
      match ffprobe env file with
      | None => Err500
      | Some m =>
          let n := Z.to_nat (framesToExtract m interval maxFrames) in
          let frames :=
            if parallel then extractAll env file (frameInfos env m interval n)
            else extractLoop env file m interval n 0%nat [] in
          match frames with
          | None => Err500
          | Some frames => Json200 frames m
          end
      end
  end.

(** [POST] of src/app/api/extract-frames/route.ts *)
Definition POST := handler false.

End ExtractFramesRoute.

(** ** Results of awaited calls *)

Inductive Outcome (A : Type) :=
| Ok (a : A)
| Thrown (error : jsstring).
Arguments Ok {A} a.
Arguments Thrown {A} error.

(** ** src/lib/gemini-editor.ts *)

Module GeminiEditor.

(** The fields of a frame that [editFrames] reads. *)
Record Frame := {
  index : nat;
  url : jsstring
}.

Record EditedFrame := {
  ef_index : nat;
  originalUrl : jsstring;
  editedUrl : jsstring;
  editedBlob : option jsstring
}.

Inductive Status := processing | completed | error.

#[global] Instance Status_eq_dec : EqDecision Status.
Proof. solve_decision. Defined.

Record EditProgress := {
  current : nat;
  total : nat;
  currentFrame : option nat;
  status : Status;
  message : jsstring
}.

Record Env := {
  (** [fetch("/api/edit-frame")], the [ok] test and [result.images[0].url] *)
  editFrameApi : jsstring -> list jsstring -> Outcome jsstring;
  (** [downloadImage(url)] *)
  downloadImage : jsstring -> Outcome jsstring
}.

(** State of the [for] loop: the array being built, the URL of the
    previous edit, and the calls made to [onProgress] so far. *)
Record Loop := {
  editedFrames : list EditedFrame;
  previousEditedUrl : option jsstring;
  reported : list EditProgress
}.

(** The body of the [try] block for the frame at position [i]. *)
Definition tryEdit (env : Env) (prompt : jsstring) (frame : Frame) (i : nat)
    (previousEditedUrl : option jsstring) : Outcome EditedFrame :=
  let imageUrls :=
    [url frame] ++
    match previousEditedUrl with
    | Some p => if truthy (Some p) && bool_decide (0 < i)%nat then [p] else []
    | None => []
    end in
  match editFrameApi env prompt imageUrls with
  | Thrown e => Thrown e
  | Ok editedUrl =>
      match downloadImage env editedUrl with
      | Thrown e => Thrown e
      | Ok blob =>
          Ok {| ef_index := index frame; originalUrl := url frame;
                editedUrl := editedUrl; editedBlob := Some blob |}
      end
  end.

Definition step (env : Env) (prompt : jsstring) (n : nat) (frame : Frame) (i : nat)
    (st : Loop) : Loop :=
  let announce :=
    {| current := i + 1; total := n; currentFrame := Some (index frame);
       status := processing;
       message := lit "Processing frame " ++ toString (i + 1) ++ lit " of " ++ toString n |} in
  match tryEdit env prompt frame i (previousEditedUrl st) with
  | Ok edited =>
      {| editedFrames := editedFrames st ++ [edited];
         previousEditedUrl := Some (editedUrl edited);
         reported := reported st ++ [announce] |}
  | Thrown e =>
      let failure :=
        {| current := i + 1; total := n; currentFrame := Some (index frame);
           status := error;
           message := lit "Error processing frame " ++ toString (i + 1) ++ lit ": " ++ e |} in
      {| editedFrames := editedFrames st ++
           [{| ef_index := index frame; originalUrl := url frame;
               editedUrl := url frame; editedBlob := None |}];
         previousEditedUrl := previousEditedUrl st;
         reported := reported st ++ [announce; failure] |}
  end.

Fixpoint loop (env : Env) (prompt : jsstring) (n : nat) (frames : list Frame) (i : nat)
    (st : Loop) : Loop :=
  match frames with
  | [] => st
  | frame :: rest => loop env prompt n rest (S i) (step env prompt n frame i st)
  end.

Definition finalReport (n : nat) : EditProgress :=
  {| current := n; total := n; currentFrame := None; status := completed;
     message := lit "All frames processed successfully" |}.

(** [editFrames(frames, prompt)]: the returned array and everything
    passed to [onProgress], in order. *)
Definition editFrames (env : Env) (frames : list Frame) (prompt : jsstring)
  : list EditedFrame * list EditProgress :=
  let n := length frames in
  let st := loop env prompt n frames 0%nat
              {| editedFrames := []; previousEditedUrl := None; reported := [] |} in
  (editedFrames st, reported st ++ [finalReport n]).

(** The [for] loop of [convertFramesToBlobs]: [blobs] is the array being
    pushed to, [fetched] the URLs passed to [downloadImage] so far. A
    failed download throws out of the loop. *)
Fixpoint convertLoop (env : Env) (frames : list EditedFrame)
    (blobs : list jsstring) (fetched : list jsstring)
  : Outcome (list jsstring) * list jsstring :=
  match frames with
  | [] => (Ok blobs, fetched)
  | frame :: rest =>
      match editedBlob frame with
      | Some blob => convertLoop env rest (blobs ++ [blob]) fetched
      | None =>
          match downloadImage env (editedUrl frame) with
          | Ok blob => convertLoop env rest (blobs ++ [blob]) (fetched ++ [editedUrl frame])
          | Thrown e => (Thrown e, fetched ++ [editedUrl frame])
          end
      end
  end.

(** [convertFramesToBlobs(frames)]: the returned array, and the URLs it
    downloaded, in order. *)
Definition convertFramesToBlobs (env : Env) (frames : list EditedFrame)
  : Outcome (list jsstring) * list jsstring :=
  convertLoop env frames [] [].

End GeminiEditor.

(** ** The server's temporary directory

    Only [os.tmpdir()] and the directories directly below it are modelled,
    which is all the reassembly route touches. The operations follow the
    Node.js documentation of [fs]: [unlink] removes files and "will not
    work on a directory, empty or otherwise". *)

Module Fs.

Inductive Node :=
| File (content : jsstring)
| Dir (entries : gmap jsstring jsstring).

(** The entries of [os.tmpdir()]. *)
Abbreviation FS := (gmap jsstring Node).

(** [join(tmpdir(), name)] and [join(join(tmpdir(), dir), name)]. *)
Inductive Path :=
| Top (name : jsstring)
| Sub (dir name : jsstring).

Inductive Errno := ENOENT | EISDIR | ENOTDIR | EEXIST.

Definition existsSync (p : Path) (fs : FS) : bool :=
  match p with
  | Top d => bool_decide (is_Some (fs !! d))
  | Sub d n =>
      match fs !! d with
      | Some (Dir es) => bool_decide (is_Some (es !! n))
      | _ => false
      end
  end.

(** [mkdir(join(tmpdir(), d), { recursive: true })] *)
Definition mkdir (d : jsstring) (fs : FS) : Errno + FS :=
  match fs !! d with
  | None => inr (<[d := Dir ∅]> fs)
  | Some (Dir _) => inr fs
  | Some (File _) => inl EEXIST
  end.

Definition writeFile (p : Path) (content : jsstring) (fs : FS) : Errno + FS :=
  match p with
  | Top d =>
      match fs !! d with
      | Some (Dir _) => inl EISDIR
      | _ => inr (<[d := File content]> fs)
      end
  | Sub d n =>
      match fs !! d with
      | Some (Dir es) => inr (<[d := Dir (<[n := content]> es)]> fs)
      | Some (File _) => inl ENOTDIR
      | None => inl ENOENT
      end
  end.

Definition readFile (p : Path) (fs : FS) : Errno + jsstring :=
  match p with
  | Top d =>
      match fs !! d with
      | Some (File c) => inr c
      | Some (Dir _) => inl EISDIR
      | None => inl ENOENT
      end
  | Sub d n =>
      match fs !! d with
      | Some (Dir es) =>
          match es !! n with
          | Some c => inr c
          | None => inl ENOENT
          end
      | Some (File _) => inl ENOTDIR
      | None => inl ENOENT
      end
  end.

Definition unlink (p : Path) (fs : FS) : Errno + FS :=
  match p with
  | Top d =>
      match fs !! d with
      | Some (File _) => inr (delete d fs)
      | Some (Dir _) => inl EISDIR
      | None => inl ENOENT
      end
  | Sub d n =>
      match fs !! d with
      | Some (Dir es) =>
          match es !! n with
          | Some _ => inr (<[d := Dir (delete n es)]> fs)
          | None => inl ENOENT
          end
      | Some (File _) => inl ENOTDIR
      | None => inl ENOENT
      end
  end.

Definition readdirSync (d : jsstring) (fs : FS) : Errno + list jsstring :=
  match fs !! d with
  | Some (Dir es) => inr (elements (dom es))
  | Some (File _) => inl ENOTDIR
  | None => inl ENOENT
  end.

(** [promise.catch(err => console.warn(...))]: a failed operation leaves
    the file system as it was and the rejection is swallowed. *)
Definition orWarn (r : Errno + FS) (fs : FS) : FS :=
  match r with
  | inr fs' => fs'
  | inl _ => fs
  end.

End Fs.

(** ** app/api/reassemble-video/route.ts *)

Module ReassembleRoute.
Import Fs.

(** A frame of the request body. *)
Record Frame := {
  base64 : option jsstring;
  url : option jsstring
}.

Inductive Response :=
| Json200 (video : jsstring) (size : Z)
| Err400
| Err500 (details : jsstring).

(** Result of the ffmpeg process; a failed run may leave a partial
    output file behind. *)
Inductive FfmpegResult :=
| Encoded (video : jsstring)
| EncodeFailed (partialOutput : option jsstring) (error : jsstring).

Record Env := {
  sessionId : jsstring;                         (* [randomUUID()] *)
  fetchUrl : jsstring -> Outcome jsstring;      (* [fetch(frame.url)], bytes when [ok] *)
  decodeBase64 : jsstring -> jsstring;          (* prefix removal and [Buffer.from(.., "base64")] *)
  encodeBase64 : jsstring -> jsstring;          (* [videoBuffer.toString("base64")] *)
  (** ffmpeg on the image sequence it finds in the staging directory *)
  ffmpeg : Z -> list jsstring -> FfmpegResult;
  (** Whether the write of the frame at a position has reached the disk
      when the rejection of a sibling starts the error cleanup. *)
  landed : nat -> bool
}.

Definition errnoText (e : Errno) : jsstring :=
  match e with
  | ENOENT => lit "ENOENT"
  | EISDIR => lit "EISDIR"
  | ENOTDIR => lit "ENOTDIR"
  | EEXIST => lit "EEXIST"
  end.

(** [`video_reassemble_${sessionId}`] *)
Definition tempDirName (env : Env) : jsstring := lit "video_reassemble_" ++ sessionId env.

(** [`frame_${index.toString().padStart(4, "0")}.png`] *)
Definition frameFilename (i : nat) : jsstring :=
  lit "frame_" ++ padStart0 4 (toString i) ++ lit ".png".

Definition framePath (env : Env) (i : nat) : Path := Sub (tempDirName env) (frameFilename i).

(** [`output_${sessionId}.${outputFormat}`] *)
Definition outputFilename (env : Env) (outputFormat : jsstring) : jsstring :=
  lit "output_" ++ sessionId env ++ lit "." ++ outputFormat.

(** The first half of [processFrame]: the buffer of a frame. *)
Definition frameBuffer (env : Env) (frame : Frame) (i : nat) : Outcome jsstring :=
  match base64 frame with
  | Some (c :: b) => Ok (decodeBase64 env (c :: b))
  | _ =>
      match url frame with
      | Some (c :: u) =>
          match fetchUrl env (c :: u) with
          | Ok buf => Ok buf
          | Thrown statusText => Thrown (lit "Failed to fetch frame image: " ++ statusText)
          end
      | _ => Thrown (lit "Invalid frame data at index " ++ toString i)
      end
  end.

(** [Promise.all(frames.map(processFrame))] when every member fulfils:
    the paths written, in array order. The error of the lowest failing
    position is reported otherwise. *)
Fixpoint stageAll (env : Env) (i : nat) (frames : list Frame) (fs : FS)
  : Outcome (FS * list Path) :=
  match frames with
  | [] => Ok (fs, [])
  | frame :: rest =>
      match frameBuffer env frame i with
      | Thrown e => Thrown e
      | Ok buf =>
          match writeFile (framePath env i) buf fs with
          | inl err => Thrown (errnoText err)
          | inr fs' =>
              match stageAll env (S i) rest fs' with
              | Thrown e => Thrown e
              | Ok (fs'', paths) => Ok (fs'', framePath env i :: paths)
              end
          end
      end
  end.

(** The writes of the selected positions, for a batch in which some
    member rejected. *)
Fixpoint stageSome (env : Env) (sel : nat -> bool) (i : nat) (frames : list Frame) (fs : FS)
  : FS :=
  match frames with
  | [] => fs
  | frame :: rest =>
      let fs' :=
        match frameBuffer env frame i with
        | Ok buf => if sel i then orWarn (writeFile (framePath env i) buf fs) fs else fs
        | Thrown _ => fs
        end in
      stageSome env sel (S i) rest fs'
  end.

(** What ffmpeg reads for the pattern [frame_%04d.png]: the files
    numbered 0, 1, 2, ... as long as they exist. *)
Fixpoint readSequence (entries : gmap jsstring jsstring) (i : nat) (fuel : nat)
  : list jsstring :=
  match fuel with
  | O => []
  | S fuel' =>
      match entries !! frameFilename i with
      | Some c => c :: readSequence entries (S i) fuel'
      | None => []
      end
  end.

Definition sequenceInput (env : Env) (fs : FS) : list jsstring :=
  match fs !! tempDirName env with
  | Some (Dir es) => readSequence es 0 (size es)
  | _ => []
  end.

Definition unlinkAll (paths : list Path) (fs : FS) : FS :=
  foldl (fun fs p => orWarn (unlink p fs) fs) fs paths.

(** "Clean up temporary files in parallel" on the success path. *)
Definition successCleanup (env : Env) (framePaths : list Path) (tempVideoPath : Path)
    (fs : FS) : FS :=
  let fs1 := unlinkAll framePaths fs in
  let fs2 := orWarn (unlink tempVideoPath fs1) fs1 in
  (* [await unlink(tempDir)] inside [try { } catch (cleanupError)] *)
  orWarn (unlink (Top (tempDirName env)) fs2) fs2.

(** "Clean up on error with parallel processing". The directory is
    listed before the unlink of the video file takes effect. *)
Definition errorCleanup (env : Env) (tempVideoPath : option Path) (fs : FS) : FS :=
  let dir := tempDirName env in
  let unlinkVideo fs :=
    match tempVideoPath with
    | Some p => orWarn (unlink p fs) fs
    | None => fs
    end in
  if existsSync (Top dir) fs then
    match readdirSync dir fs with
    | inl _ => unlinkVideo fs
    | inr files =>
        let fs1 := unlinkVideo fs in
        let fs2 := unlinkAll (Sub dir <$> files) fs1 in
        if existsSync (Top dir) fs2
        then orWarn (unlink (Top dir) fs2) fs2
        else fs2
    end
  else unlinkVideo fs.

Definition POST (env : Env) (frames : option (list Frame)) (fps : option Z)
    (outputFormat : option jsstring) (fs : FS) : Response * FS :=
  let fps := default 30 fps in
  let outputFormat := default (lit "mp4") outputFormat in
  match frames with
  | None | Some [] => (Err400, fs)
  | Some frames =>
      let dir := tempDirName env in
      match (if existsSync (Top dir) fs then inr fs else mkdir dir fs) with
      | inl err => (Err500 (errnoText err), errorCleanup env None fs)
      | inr fs1 =>
          match stageAll env 0 frames fs1 with
          | Thrown e =>
              let atCleanup := stageSome env (landed env) 0 frames fs1 in
              let cleaned := errorCleanup env None atCleanup in
              (Err500 e, stageSome env (fun i => negb (landed env i)) 0 frames cleaned)
          | Ok (fs2, framePaths) =>
              let tempVideoPath := Sub dir (outputFilename env outputFormat) in
              match ffmpeg env fps (sequenceInput env fs2) with
              | EncodeFailed partialOutput e =>
                  let fs3 :=
                    match partialOutput with
                    | Some bytes => orWarn (writeFile tempVideoPath bytes fs2) fs2
                    | None => fs2
                    end in
                  (Err500 e, errorCleanup env (Some tempVideoPath) fs3)
              | Encoded video =>
                  let fs3 := orWarn (writeFile tempVideoPath video fs2) fs2 in
                  match readFile tempVideoPath fs3 with
                  | inl err =>
                      (Err500 (errnoText err), errorCleanup env (Some tempVideoPath) fs3)
                  | inr videoBuffer =>
                      let fs4 := successCleanup env framePaths tempVideoPath fs3 in
                      (Json200 (lit "data:video/" ++ outputFormat ++ lit ";base64,"
                                  ++ encodeBase64 env videoBuffer)
                               (len videoBuffer),
                       fs4)
                  end
              end
          end
      end
  end.

End ReassembleRoute.

(** ** app/api/smooth-video/route.ts *)

Module SmoothVideoRoute.
Import Fs.

Inductive Response :=
| Json200 (video : jsstring) (size : Z) (smoothingLevel : jsstring)
| Err400
| Err500 (details : jsstring).

(** Result of the ffmpeg process; a failed run may leave a partial
    output file behind. *)
Inductive FfmpegResult :=
| Smoothed (video : jsstring)
| SmoothFailed (partialOutput : option jsstring) (message : jsstring).

Record Env := {
  sessionId : jsstring;                         (* [randomUUID()] *)
  decodeBase64 : jsstring -> jsstring;          (* [Buffer.from(.., "base64")] *)
  encodeBase64 : jsstring -> jsstring;          (* [buffer.toString("base64")] *)
  (** ffmpeg with a [-vf] filter on the bytes of the input file *)
  ffmpeg : jsstring -> jsstring -> FfmpegResult
}.

(** [`video_smooth_${sessionId}`] *)
Definition tempDirName (env : Env) : jsstring := lit "video_smooth_" ++ sessionId env.

(** [`input_${sessionId}.mp4`] and [`smoothed_${sessionId}.mp4`] *)
Definition inputFilename (env : Env) : jsstring := lit "input_" ++ sessionId env ++ lit ".mp4".
Definition outputFilename (env : Env) : jsstring :=
  lit "smoothed_" ++ sessionId env ++ lit ".mp4".

(** The [-vf] argument chosen by the [switch (smoothingLevel)]. *)
Definition videoFilter (smoothingLevel : jsstring) : jsstring :=
  if bool_decide (smoothingLevel = lit "light") then lit "deflicker=mode=pm:size=3"
  else if bool_decide (smoothingLevel = lit "heavy") then
    lit "deflicker=mode=pm:size=7,hqdn3d=luma_spatial=1:chroma_spatial=1:luma_tmp=10:chroma_tmp=8,tmix=frames=3:weights='1 8 1':scale=10,unsharp=luma_msize_x=3:luma_msize_y=3:luma_amount=0.8"
  else
    lit "deflicker=mode=pm:size=5,hqdn3d=luma_spatial=0:chroma_spatial=0:luma_tmp=8:chroma_tmp=6,tmix=frames=3:weights='1 3 1':scale=5".

(** The message of the [TypeError] that [Buffer.from(undefined, "base64")]
    throws. *)
Definition bufferTypeError : jsstring :=
  lit "The first argument must be of type string or an instance of Buffer, ArrayBuffer, or Array or an Array-like Object. Received undefined".

(** [videoBuffer]: the part of a [data:video/] URI between its first and
    second comma, or the whole string, decoded. *)
Definition videoBuffer (env : Env) (videoData : jsstring) : Outcome jsstring :=
  if startsWith videoData (lit "data:video/") then
    match split 44 videoData !! 1%nat with
    | Some base64Data => Ok (decodeBase64 env base64Data)
    | None => Thrown bufferTypeError
    end
  else Ok (decodeBase64 env videoData).

(** Operations awaited one after the other inside one [try]: the first
    one that fails ends the block. *)
Fixpoint tryAll (ops : list (FS -> Errno + FS)) (fs : FS) : FS :=
  match ops with
  | [] => fs
  | op :: rest =>
      match op fs with
      | inr fs' => tryAll rest fs'
      | inl _ => fs
      end
  end.

(** "Clean up temporary files" on the success path. *)
Definition successCleanup (env : Env) (inputVideoPath outputVideoPath : Path) (fs : FS) : FS :=
  tryAll [unlink inputVideoPath; unlink outputVideoPath; unlink (Top (tempDirName env))] fs.

(** "Clean up on error"; the paths are those assigned when the error was
    thrown. *)
Definition errorCleanup (env : Env) (inputVideoPath outputVideoPath : option Path) (fs : FS)
  : FS :=
  let dir := tempDirName env in
  let unlinkIf (p : option Path) (fs : FS) : Errno + FS :=
    match p with
    | Some p => unlink p fs
    | None => inr fs
    end in
  let listed (fs : FS) : Errno + FS :=
    if existsSync (Top dir) fs then
      match readdirSync dir fs with
      | inl err => inl err
      | inr files => inr (tryAll (((fun file => unlink (Sub dir file)) <$> files)
                                    ++ [unlink (Top dir)]) fs)
      end
    else inr fs in
  tryAll [unlinkIf inputVideoPath; unlinkIf outputVideoPath; listed] fs.

Definition POST (env : Env) (videoData smoothingLevel : option jsstring) (fs : FS)
  : Response * FS :=
  let smoothingLevel := default (lit "medium") smoothingLevel in
  match videoData with
  | None | Some [] => (Err400, fs)
  | Some videoData =>
      let dir := tempDirName env in
      match (if existsSync (Top dir) fs then inr fs else mkdir dir fs) with
      | inl err => (Err500 (ReassembleRoute.errnoText err), errorCleanup env None None fs)
      | inr fs1 =>
          let inputVideoPath := Sub dir (inputFilename env) in
          match videoBuffer env videoData with
          | Thrown e => (Err500 e, errorCleanup env (Some inputVideoPath) None fs1)
          | Ok buffer =>
              match writeFile inputVideoPath buffer fs1 with
              | inl err =>
                  (Err500 (ReassembleRoute.errnoText err),
                   errorCleanup env (Some inputVideoPath) None fs1)
              | inr fs2 =>
                  let outputVideoPath := Sub dir (outputFilename env) in
                  match ffmpeg env (videoFilter smoothingLevel) buffer with
                  | SmoothFailed partialOutput message =>
                      let fs3 :=
                        match partialOutput with
                        | Some bytes => orWarn (writeFile outputVideoPath bytes fs2) fs2
                        | None => fs2
                        end in
                      (Err500 (lit "FFmpeg smoothing failed: " ++ message),
                       errorCleanup env (Some inputVideoPath) (Some outputVideoPath) fs3)
                  | Smoothed video =>
                      let fs3 := orWarn (writeFile outputVideoPath video fs2) fs2 in
                      match readFile outputVideoPath fs3 with
                      | inl err =>
                          (Err500 (ReassembleRoute.errnoText err),
                           errorCleanup env (Some inputVideoPath) (Some outputVideoPath) fs3)
                      | inr smoothedVideoBuffer =>
                          (Json200 (lit "data:video/mp4;base64,"
                                      ++ encodeBase64 env smoothedVideoBuffer)
                                   (len smoothedVideoBuffer) smoothingLevel,
                           successCleanup env inputVideoPath outputVideoPath fs3)
                      end
                  end
              end
          end
      end
  end.

End SmoothVideoRoute.

(** ** src/lib/video-processor.ts: [reassembleVideo] *)

Module VideoProcessor.

(** [EditedFrame] of video-processor.ts *)
Record EditedFrame := {
  index : nat;
  base64 : option jsstring;
  url : option jsstring
}.

(** The [frames] field of the request body: the index is not sent. *)
Definition requestFrames (frames : list EditedFrame) : list ReassembleRoute.Frame :=
  (fun frame => {| ReassembleRoute.base64 := base64 frame;
                   ReassembleRoute.url := url frame |}) <$> frames.

(** [api] stands for [fetch("/api/reassemble-video")] followed by the
    decoding of the video: the blob when [response.ok], the [error]
    field of the body otherwise. *)
Definition reassembleVideo (api : list ReassembleRoute.Frame -> Z -> jsstring -> Outcome jsstring)
    (frames : list EditedFrame) (fps : option Z) (outputFormat : option jsstring)
  : Outcome jsstring :=
  let fps := default 30 fps in
  let outputFormat := default (lit "mp4") outputFormat in
  match api (requestFrames frames) fps outputFormat with
  | Ok blob => Ok blob
  | Thrown [] => Thrown (lit "Failed to reassemble video")
  | Thrown e => Thrown e
  end.

(** [fetch("/api/reassemble-video")] served by the route on the
    temporary directory [fs]: the decoded video when [response.ok], the
    [error] field of the body otherwise. [atob] stands for the removal of
    the data-URI prefix and the base64 decoding. *)
Definition fetchReassemble (server : ReassembleRoute.Env) (atob : jsstring -> jsstring)
    (fs : gmap jsstring Fs.Node)
    (frames : list ReassembleRoute.Frame) (fps : Z) (outputFormat : jsstring)
  : Outcome jsstring :=
  match (ReassembleRoute.POST server (Some frames) (Some fps) (Some outputFormat) fs).1 with
  | ReassembleRoute.Json200 video _ => Ok (atob video)
  | ReassembleRoute.Err400 => Thrown (lit "No frames provided")
  | ReassembleRoute.Err500 _ => Thrown (lit "Failed to reassemble video")
  end.

(** The [error] field of the body of a failed response of the
    extraction route. *)
Definition extractionError (response : ExtractFramesRoute.Response) : jsstring :=
  match response with
  | ExtractFramesRoute.Err400 => lit "No video file provided"
  | _ => lit "Failed to extract frames"
  end.

(** [extractFrames(videoFile, options)]; [api] stands for
    [fetch("/api/extract-frames")] with the three form fields, which the
    client always sends. *)
Definition extractFrames
    (api : option jsstring -> option Z -> option Z -> ExtractFramesRoute.Response)
    (videoFile : jsstring) (interval maxFrames : option Z)
  : Outcome (list ExtractFramesRoute.FrameData * ExtractFramesRoute.Metadata) :=
  let interval := default 30 interval in
  let maxFrames := default 10 maxFrames in
  match api (Some videoFile) (Some interval) (Some maxFrames) with
  | ExtractFramesRoute.Json200 frames metadata => Ok (frames, metadata)
  | response =>
      match extractionError response with
      | [] => Thrown (lit "Failed to extract frames")
      | e => Thrown e
      end
  end.

End VideoProcessor.

(** ** src/components/VideoEditor.tsx *)

Module VideoEditor.

Inductive ProcessingStep :=
| setup | extracting | preview_frames | editing | reassembling | complete.

#[global] Instance ProcessingStep_eq_dec : EqDecision ProcessingStep.
Proof. solve_decision. Defined.

Abbreviation ExtractedFrame := ExtractFramesRoute.FrameData.

(** [EditedFrame] of gemini-editor.ts, as the component builds it
    (without [editedBlob]). *)
Record EditedFrame := {
  index : nat;
  originalUrl : jsstring;
  editedUrl : jsstring
}.

Record EditProgress := {
  current : nat;
  total : nat;
  currentFrame : option nat;
  status : jsstring;
  message : jsstring
}.

(** The React state of the component that the handlers read or write. *)
Record State := {
  currentStep : ProcessingStep;
  prompt : jsstring;
  isProcessing : bool;
  progress : option EditProgress;
  error : option jsstring;
  extractedFrames : list ExtractedFrame;
  editedFrames : list EditedFrame;
  currentEditingFrame : Z;
  detailedDiff : jsstring;
  firstFrameEdited : jsstring;
  editedVideoUrl : option jsstring
}.

Definition setCurrentStep (v : ProcessingStep) (s : State) : State :=
  {| currentStep := v; prompt := prompt s; isProcessing := isProcessing s;
     progress := progress s; error := error s; extractedFrames := extractedFrames s;
     editedFrames := editedFrames s; currentEditingFrame := currentEditingFrame s;
     detailedDiff := detailedDiff s; firstFrameEdited := firstFrameEdited s;
     editedVideoUrl := editedVideoUrl s |}.
Definition setIsProcessing (v : bool) (s : State) : State :=
  {| currentStep := currentStep s; prompt := prompt s; isProcessing := v;
     progress := progress s; error := error s; extractedFrames := extractedFrames s;
     editedFrames := editedFrames s; currentEditingFrame := currentEditingFrame s;
     detailedDiff := detailedDiff s; firstFrameEdited := firstFrameEdited s;
     editedVideoUrl := editedVideoUrl s |}.
Definition setProgress (v : EditProgress) (s : State) : State :=
  {| currentStep := currentStep s; prompt := prompt s; isProcessing := isProcessing s;
     progress := Some v; error := error s; extractedFrames := extractedFrames s;
     editedFrames := editedFrames s; currentEditingFrame := currentEditingFrame s;
     detailedDiff := detailedDiff s; firstFrameEdited := firstFrameEdited s;
     editedVideoUrl := editedVideoUrl s |}.
Definition setError (v : option jsstring) (s : State) : State :=
  {| currentStep := currentStep s; prompt := prompt s; isProcessing := isProcessing s;
     progress := progress s; error := v; extractedFrames := extractedFrames s;
     editedFrames := editedFrames s; currentEditingFrame := currentEditingFrame s;
     detailedDiff := detailedDiff s; firstFrameEdited := firstFrameEdited s;
     editedVideoUrl := editedVideoUrl s |}.
Definition setEditedFrames (v : list EditedFrame) (s : State) : State :=
  {| currentStep := currentStep s; prompt := prompt s; isProcessing := isProcessing s;
     progress := progress s; error := error s; extractedFrames := extractedFrames s;
     editedFrames := v; currentEditingFrame := currentEditingFrame s;
     detailedDiff := detailedDiff s; firstFrameEdited := firstFrameEdited s;
     editedVideoUrl := editedVideoUrl s |}.
Definition setCurrentEditingFrame (v : Z) (s : State) : State :=
  {| currentStep := currentStep s; prompt := prompt s; isProcessing := isProcessing s;
     progress := progress s; error := error s; extractedFrames := extractedFrames s;
     editedFrames := editedFrames s; currentEditingFrame := v;
     detailedDiff := detailedDiff s; firstFrameEdited := firstFrameEdited s;
     editedVideoUrl := editedVideoUrl s |}.
Definition setDetailedDiff (v : jsstring) (s : State) : State :=
  {| currentStep := currentStep s; prompt := prompt s; isProcessing := isProcessing s;
     progress := progress s; error := error s; extractedFrames := extractedFrames s;
     editedFrames := editedFrames s; currentEditingFrame := currentEditingFrame s;
     detailedDiff := v; firstFrameEdited := firstFrameEdited s;
     editedVideoUrl := editedVideoUrl s |}.
Definition setFirstFrameEdited (v : jsstring) (s : State) : State :=
  {| currentStep := currentStep s; prompt := prompt s; isProcessing := isProcessing s;
     progress := progress s; error := error s; extractedFrames := extractedFrames s;
     editedFrames := editedFrames s; currentEditingFrame := currentEditingFrame s;
     detailedDiff := detailedDiff s; firstFrameEdited := v;
     editedVideoUrl := editedVideoUrl s |}.
Definition setExtractedFrames (v : list ExtractedFrame) (s : State) : State :=
  {| currentStep := currentStep s; prompt := prompt s; isProcessing := isProcessing s;
     progress := progress s; error := error s; extractedFrames := v;
     editedFrames := editedFrames s; currentEditingFrame := currentEditingFrame s;
     detailedDiff := detailedDiff s; firstFrameEdited := firstFrameEdited s;
     editedVideoUrl := editedVideoUrl s |}.
Definition setEditedVideoUrl (v : option jsstring) (s : State) : State :=
  {| currentStep := currentStep s; prompt := prompt s; isProcessing := isProcessing s;
     progress := progress s; error := error s; extractedFrames := extractedFrames s;
     editedFrames := editedFrames s; currentEditingFrame := currentEditingFrame s;
     detailedDiff := detailedDiff s; firstFrameEdited := firstFrameEdited s;
     editedVideoUrl := v |}.

(** What the component does to the outside world, in order. *)
Inductive Event :=
| EditRequested (frameIndex : nat) (prompt : jsstring) (image : jsstring)
| EditSettled (frameIndex : nat) (ok : bool)
| DiffRequested
| DiffSettled (ok : bool)
| UrlProbed (url : jsstring)
| ReassembleRequested (attempt : nat) (frames : list VideoProcessor.EditedFrame)
| ReassembleSettled (attempt : nat) (ok : bool)
| Waited (ms : Z)
| OnComplete (video : jsstring).

Record Env := {
  (** [fetch("/api/edit-frame")] and [result.images[0].url]; [Thrown]
      carries [response.statusText]. *)
  editFrameApi : jsstring -> list jsstring -> Outcome jsstring;
  (** [fetch("/api/analyze-diff")] and [diffResult.detailedDiff] *)
  analyzeDiffApi : jsstring -> jsstring -> jsstring -> Outcome jsstring;
  (** The order in which the requests of the fan-out complete, by frame
      index. *)
  completionOrder : list nat;
  (** [fetch("/api/reassemble-video")], by attempt. *)
  reassembleApi : nat -> list ReassembleRoute.Frame -> Z -> jsstring -> Outcome jsstring;
  createObjectURL : jsstring -> jsstring
}.

Definition processing : jsstring := lit "processing".

(** The [catch (err)] and [finally] blocks of [handleProcessFrames]. *)
Definition catchFinally (message : jsstring) (s : State) : State :=
  setCurrentEditingFrame (-1)
    (setIsProcessing false
       (setCurrentStep preview_frames (setError (Some message) s))).

Definition finally (s : State) : State :=
  setCurrentEditingFrame (-1) (setIsProcessing false s).

(** [editedFramesForReassembly] *)
Definition forReassembly (frames : list EditedFrame) : list VideoProcessor.EditedFrame :=
  (fun frame => {| VideoProcessor.index := index frame;
                   VideoProcessor.base64 := None;
                   VideoProcessor.url := Some (editedUrl frame) |}) <$> frames.

Definition reassembleVideo (env : Env) (attempt : nat)
    (frames : list VideoProcessor.EditedFrame) : Outcome jsstring :=
  VideoProcessor.reassembleVideo (reassembleApi env attempt) frames (Some 30) (Some (lit "mp4")).

(** *** Step 3 of [handleProcessFrames]: reassembly with retry *)

Definition maxRetries : nat := 2.

Inductive LoopResult :=
| Assembled (video : jsstring)     (* [break] *)
| GaveUp                           (* the early [return] of the last attempt *)
| FellThrough.                     (* the [while] condition became false *)

(** The [while (reassemblyAttempt <= maxRetries)] loop; [fuel] is the
    number of iterations the condition still allows. *)
Fixpoint retryLoop (env : Env) (frames : list VideoProcessor.EditedFrame)
    (fuel : nat) (reassemblyAttempt : nat) : LoopResult * list Event :=
  match fuel with
  | O => (FellThrough, [])
  | S fuel' =>
      match reassembleVideo env reassemblyAttempt frames with
      | Ok editedVideo =>
          (Assembled editedVideo,
           [ReassembleRequested reassemblyAttempt frames;
            ReassembleSettled reassemblyAttempt true])
      | Thrown _ =>
          let failed := [ReassembleRequested reassemblyAttempt frames;
                         ReassembleSettled reassemblyAttempt false] in
          if bool_decide (reassemblyAttempt = maxRetries) then (GaveUp, failed)
          else
            let '(r, rest) := retryLoop env frames fuel' (S reassemblyAttempt) in
            (r, failed ++ [Waited 1000] ++ rest)
      end
  end.

Definition allProcessed (n : nat) (message : jsstring) : EditProgress :=
  {| current := n + 2; total := n + 2; currentFrame := None;
     status := processing; message := message |}.

Definition reassemblePhase (env : Env) (allEditedFrames : list EditedFrame) (s : State)
  : State * list Event :=
  let n := length (extractedFrames s) in
  let s := setCurrentStep reassembling s in
  let editedFramesForReassembly := forReassembly allEditedFrames in
  let probes := (fun frame => UrlProbed (editedUrl frame)) <$> take 3 allEditedFrames in
  match retryLoop env editedFramesForReassembly maxRetries 1 with
  | (Assembled editedVideo, evs) =>
      let s := setEditedVideoUrl (Some (createObjectURL env editedVideo)) s in
      let s := setCurrentStep complete s in
      (finally s, probes ++ evs ++ [OnComplete editedVideo])
  | (GaveUp, evs) =>
      let s := setProgress
                 (allProcessed n
                    (lit "Automatic assembly failed. Please use manual assembly button.")) s in
      let s := setCurrentStep editing s in
      let s := setIsProcessing false s in
      (finally s, probes ++ evs)
  | (FellThrough, evs) =>
      (* [editedVideo] is still undefined and reading [.size] throws *)
      (catchFinally (lit "Cannot read properties of undefined (reading 'size')") s,
       probes ++ evs)
  end.

(** *** Phase 3 of [handleProcessFrames]: the parallel fan-out *)

(** The variables shared by the closures [processFrameWithStreaming],
    the requests still in flight, and whether [Promise.all] has already
    rejected. *)
Record Fan := {
  fanState : State;
  allEditedFrames : list EditedFrame;
  completedFrames : nat;
  pending : list (nat * ExtractedFrame);
  rejected : bool;
  events : list Event
}.

(** One request of the fan-out completes. [originalPrompt], [diff] and
    [n] are the values captured by the closure when it was created. A
    request that is not in flight has nothing to complete. The first
    rejection is the one [await Promise.all] throws; the later
    completions still run. *)
Definition settle (env : Env) (originalPrompt diff : jsstring) (n : nat)
    (f : Fan) (frameIndex : nat) : Fan :=
  match list_find (fun p => p.1 = frameIndex) (pending f) with
  | None => f
  | Some (pos, (_, frame)) =>
      let pending' := delete pos (pending f) in
      let image := ExtractFramesRoute.base64 frame in
      match editFrameApi env (PromptSynthesis.diffBasedPrompt diff originalPrompt) [image] with
      | Ok editedUrl =>
          let result := {| index := frameIndex; originalUrl := image; editedUrl := editedUrl |} in
          let completed := S (completedFrames f) in
          let all := allEditedFrames f ++ [result] in
          let report :=
            {| current := 2 + completed; total := n + 2; currentFrame := Some frameIndex;
               status := processing;
               message := lit "Processing frame " ++ toString (frameIndex + 1) ++ lit "/"
                            ++ toString n ++ lit " (" ++ toString completed ++ lit "/"
                            ++ toString (n - 1) ++ lit " parallel frames complete)" |} in
          {| fanState := setProgress report (setEditedFrames all (fanState f));
             allEditedFrames := all;
             completedFrames := completed;
             pending := pending';
             rejected := rejected f;
             events := events f ++ [EditSettled frameIndex true] |}
      | Thrown statusText =>
          let message := lit "Frame " ++ toString (frameIndex + 1)
                           ++ lit " processing failed: " ++ statusText in
          {| fanState := if rejected f then fanState f else catchFinally message (fanState f);
             allEditedFrames := allEditedFrames f;
             completedFrames := completedFrames f;
             pending := pending';
             rejected := true;
             events := events f ++ [EditSettled frameIndex false] |}
      end
  end.

(** [remainingFrames.map((frame, i) => processFrameWithStreaming(frame, i + 1))] *)
Definition dispatch (remainingFrames : list ExtractedFrame) : list (nat * ExtractedFrame) :=
  imap (fun i frame => (i + 1, frame)%nat) remainingFrames.

Definition requests (originalPrompt diff : jsstring) (d : list (nat * ExtractedFrame))
  : list Event :=
  (fun p => EditRequested p.1 (PromptSynthesis.diffBasedPrompt diff originalPrompt)
              (ExtractFramesRoute.base64 p.2)) <$> d.

Definition fanOut (env : Env) (originalPrompt diff : jsstring) (n : nat) (start : Fan) : Fan :=
  foldl (settle env originalPrompt diff n) start (completionOrder env).

(** *** [handleProcessFrames] *)

(** PHASE 3 and step 3: the fan-out over [remainingFrames] and, once
    [await Promise.all] has returned, the reassembly. [before] holds the
    events of phases 1 and 2. *)
Definition fanOutAndReassemble (env : Env) (originalPrompt detailedDiffSpec : jsstring) (n : nat)
    (firstEditedFrame : EditedFrame) (remainingFrames : list ExtractedFrame)
    (before : list Event) (s : State) : State * list Event :=
  match remainingFrames with
  | [] =>
      (* [extractedFrames.length > 1] is false *)
      let '(s, evs) := reassemblePhase env [firstEditedFrame] s in
      (s, before ++ evs)
  | _ :: _ =>
      let dispatched := dispatch remainingFrames in
      let fan :=
        fanOut env originalPrompt detailedDiffSpec n
          {| fanState := s;
             allEditedFrames := [firstEditedFrame];
             completedFrames := 0;
             pending := dispatched;
             rejected := false;
             events := before ++ requests originalPrompt detailedDiffSpec dispatched |} in
      if rejected fan then (fanState fan, events fan)
      else
        match pending fan with
        | _ :: _ => (fanState fan, events fan)   (* still awaiting *)
        | [] =>
            let s := setProgress
                       (allProcessed n
                          (lit "All frames processed! Preparing for video assembly..."))
                       (fanState fan) in
            let '(s, evs) := reassemblePhase env (allEditedFrames fan) s in
            (s, events fan ++ evs)
        end
  end.

(** The state at the first [await]: the handler has reset the edited
    frames and announced phase 1. *)
Definition started (n : nat) (s : State) : State :=
  let s := setIsProcessing true s in
  let s := setError None s in
  let s := setCurrentStep editing s in
  let s := setEditedFrames [] s in
  let s := setCurrentEditingFrame 0 s in
  setProgress
    {| current := 1; total := n + 2; currentFrame := Some 0%nat;
       status := processing;
       message := lit "Editing first frame to establish change pattern..." |} s.

(** The state at the second [await]: the first frame is edited and phase
    2 announced. *)
Definition analyzing (n : nat) (firstEditedFrame : EditedFrame) (s : State) : State :=
  let s := setFirstFrameEdited (editedUrl firstEditedFrame) s in
  let s := setEditedFrames [firstEditedFrame] s in
  setProgress
    {| current := 2; total := n + 2; currentFrame := Some 0%nat;
       status := processing;
       message := lit "Analyzing changes to create detailed specification..." |} s.

Definition handleProcessFrames (env : Env) (s : State) : State * list Event :=
  let n := length (extractedFrames s) in
  let originalPrompt := prompt s in
  match extractedFrames s with
  | [] =>
      (setError (Some (lit "No frames available to process. Please extract frames first.")) s,
       [])
  | firstFrame :: remainingFrames =>
      (* PHASE 1 *)
      let s := started n s in
      let image := ExtractFramesRoute.base64 firstFrame in
      let firstFramePrompt := PromptSynthesis.firstFramePrompt originalPrompt in
      let asked := EditRequested 0 firstFramePrompt image in
      match editFrameApi env firstFramePrompt [image] with
      | Thrown statusText =>
          (catchFinally (lit "First frame editing failed: " ++ statusText) s,
           [asked; EditSettled 0 false])
      | Ok firstFrameEditedUrl =>
          let firstEditedFrame :=
            {| index := 0; originalUrl := image; editedUrl := firstFrameEditedUrl |} in
          (* PHASE 2 *)
          let s := analyzing n firstEditedFrame s in
          match analyzeDiffApi env originalPrompt image firstFrameEditedUrl with
          | Thrown statusText =>
              (catchFinally (lit "Diff analysis failed: " ++ statusText) s,
               [asked; EditSettled 0 true; DiffRequested; DiffSettled false])
          | Ok detailedDiffSpec =>
              let s := setDetailedDiff detailedDiffSpec s in
              fanOutAndReassemble env originalPrompt detailedDiffSpec n firstEditedFrame
                remainingFrames
                [asked; EditSettled 0 true; DiffRequested; DiffSettled true] s
          end
      end
  end.

(** The reassembly requests of a trace, their results and the waits. *)
Definition isAttempt (ev : Event) : bool :=
  match ev with
  | ReassembleRequested _ _ | ReassembleSettled _ _ | Waited _ => true
  | _ => false
  end.

Definition reassemblyAttempts (trace : list Event) : list Event :=
  filter (fun ev => isAttempt ev = true) trace.

(** The frame indices of the edit requests of a trace, in order. *)
Definition requestedFrames (trace : list Event) : list nat :=
  omap (fun ev => match ev with
                  | EditRequested frameIndex _ _ => Some frameIndex
                  | _ => None
                  end) trace.

(** *** [handleManualAssemble], [handleGoToStep] and what is rendered *)

Definition handleManualAssemble (env : Env) (attempt : nat) (s : State) : State * list Event :=
  match editedFrames s with
  | [] => (s, [])
  | _ :: _ =>
      let n := length (extractedFrames s) in
      let frames := forReassembly (editedFrames s) in
      let s := setCurrentStep reassembling s in
      let s := setIsProcessing true s in
      match reassembleVideo env attempt frames with
      | Ok editedVideo =>
          let s := setEditedVideoUrl (Some (createObjectURL env editedVideo)) s in
          let s := setCurrentStep complete s in
          let s := setProgress
                     {| current := n + 3; total := n + 3; currentFrame := None;
                        status := lit "complete";
                        message := lit "Video editing complete!" |} s in
          (setIsProcessing false s,
           [ReassembleRequested attempt frames; ReassembleSettled attempt true])
      | Thrown e =>
          let s := setError (Some (lit "Manual assembly failed: " ++ e)) s in
          let s := setCurrentStep editing s in
          (setIsProcessing false s,
           [ReassembleRequested attempt frames; ReassembleSettled attempt false])
      end
  end.

Definition handleGoToStep (step : ProcessingStep) (s : State) : State :=
  let s := setCurrentStep step s in
  let s := setError None s in
  let s := setIsProcessing false s in
  let s := setCurrentEditingFrame (-1) s in
  match step with
  | setup =>
      setFirstFrameEdited []
        (setDetailedDiff []
           (setEditedVideoUrl None (setEditedFrames [] (setExtractedFrames [] s))))
  | preview_frames =>
      setFirstFrameEdited []
        (setDetailedDiff [] (setEditedVideoUrl None (setEditedFrames [] s)))
  | editing => setEditedVideoUrl None s
  | _ => s
  end.

(** The "Assemble Video Now" button, bound to [handleManualAssemble],
    is rendered under [currentStep === "editing"], [!isProcessing] and
    [editedFrames.length > 0]. *)
Definition manualAssembleOffered (s : State) : bool :=
  bool_decide (currentStep s = editing) && negb (isProcessing s)
    && bool_decide (0 < length (editedFrames s))%nat.

(** The "Edit Frames" step indicator, which calls
    [handleGoToStep("editing")], is clickable when frames were extracted. *)
Definition editingStepClickable (s : State) : bool :=
  bool_decide (0 < length (extractedFrames s))%nat.

(** The condition under which the auto-start effect calls
    [handleProcessFrames]. *)
Definition autoStarts (s : State) : bool :=
  bool_decide (currentStep s = editing)
    && bool_decide (0 < length (extractedFrames s))%nat
    && negb (isProcessing s)
    && bool_decide (length (editedFrames s) = 0%nat).

(** *** [handleExtractFrames]

    [frameInterval] and [maxFrames] are the two settings of the setup
    step, which no handler writes; [api] stands for
    [fetch("/api/extract-frames")]. *)
Definition handleExtractFrames
    (api : option jsstring -> option Z -> option Z -> ExtractFramesRoute.Response)
    (videoFile : jsstring) (frameInterval : Z) (maxFrames : option Z) (s : State) : State :=
  match trim (prompt s) with
  | [] => setError (Some (lit "Please enter a prompt")) s
  | _ :: _ =>
      let s := setIsProcessing true s in
      let s := setError None s in
      let s := setCurrentStep extracting s in
      (* [maxFrames || undefined] *)
      let maxFrames :=
        match maxFrames with
        | Some 0 | None => None
        | Some m => Some m
        end in
      match VideoProcessor.extractFrames api videoFile (Some frameInterval) maxFrames with
      | Ok (frames, _) =>
          setIsProcessing false (setCurrentStep editing (setExtractedFrames frames s))
      | Thrown message =>
          setIsProcessing false (setCurrentStep setup (setError (Some message) s))
      end
  end.

(** *** [handleReset], [handleRetryEditing], [handleModifyPrompt] *)

(** [setProgress(null)] *)
Definition clearProgress (s : State) : State :=
  {| currentStep := currentStep s; prompt := prompt s; isProcessing := isProcessing s;
     progress := None; error := error s; extractedFrames := extractedFrames s;
     editedFrames := editedFrames s; currentEditingFrame := currentEditingFrame s;
     detailedDiff := detailedDiff s; firstFrameEdited := firstFrameEdited s;
     editedVideoUrl := editedVideoUrl s |}.

Definition handleReset (s : State) : State :=
  let s := setCurrentStep setup s in
  let s := setExtractedFrames [] s in
  let s := setEditedFrames [] s in
  let s := setEditedVideoUrl None s in
  let s := setDetailedDiff [] s in
  let s := setFirstFrameEdited [] s in
  let s := setError None s in
  clearProgress s.

Definition handleRetryEditing (env : Env) (s : State) : State * list Event :=
  handleProcessFrames env s.

Definition handleModifyPrompt (s : State) : State := handleGoToStep preview_frames s.

(** *** The auto-scroll effect

    [editedFrames.reduce((latest, current) =>
       current.index > latest.index ? current : latest)],
    which the effect evaluates under [editedFrames.length > 0]. *)
Definition latestEditedFrame (editedFrames : list EditedFrame) : option EditedFrame :=
  match editedFrames with
  | [] => None
  | first :: rest =>
      Some (foldl (fun latest current =>
                     if bool_decide (index latest < index current)%nat then current else latest)
                  first rest)
  end.

(** *** The step indicators

    The [active] and [completed] properties passed to the four
    [StepIndicator]s of the header. *)
Definition indicatorActive (number : nat) (step : ProcessingStep) : bool :=
  match number with
  | 1 => bool_decide (step = setup)
  | 2 => bool_decide (step = extracting) || bool_decide (step = preview_frames)
  | 3 => bool_decide (step = editing)
  | 4 => bool_decide (step = reassembling) || bool_decide (step = complete)
  | _ => false
  end%nat.

Definition indicatorCompleted (number : nat) (step : ProcessingStep) : bool :=
  match number with
  | 1 => bool_decide (step ∈ [extracting; preview_frames; editing; reassembling; complete])
  | 2 => bool_decide (step ∈ [editing; reassembling; complete])
  | 3 => bool_decide (step ∈ [reassembling; complete])
  | 4 => bool_decide (step = complete)
  | _ => false
  end%nat.

(** *** The requests to the edit route

    [fetch("/api/edit-frame")] served by the route itself: the URL of
    [result.images[0]] when [response.ok], [response.statusText]
    otherwise. [statusText] is the reason phrase that comes with a status
    code. *)
Definition fetchEditFrame (server : EditFrameRoute.Env) (statusText : Z -> jsstring)
    (prompt : jsstring) (imageUrls : list jsstring) : Outcome jsstring :=
  match EditFrameRoute.POST server (Some prompt) (Some imageUrls) with
  | EditFrameRoute.Json200 url => Ok url
  | response => Thrown (statusText (EditFrameRoute.status response))
  end.

End VideoEditor.

(** * Concrete inputs

    The environments and requests at which the properties below are
    evaluated. *)

Module Examples.


(** An analyzer whose model answers with 6000 code units. *)
Definition verboseAnalyzer : AnalyzeDiffRoute.Env :=
  {| AnalyzeDiffRoute.googleApiKey := Some (lit "key");
     AnalyzeDiffRoute.fetchEdited := fun _ => Some (lit "png");
     AnalyzeDiffRoute.generateContent := fun _ _ _ => Some (replicate (Z.to_nat 6000) 120%N) |}.

(** A two-second clip at 30 frames per second, every frame of which
    ffmpeg extracts. *)
Definition clipMetadata : ExtractFramesRoute.Metadata :=
  {| ExtractFramesRoute.duration := 2; ExtractFramesRoute.fps := 30;
     ExtractFramesRoute.width := 1280; ExtractFramesRoute.height := 720 |}.

Definition clipEnv : ExtractFramesRoute.Env :=
  {| ExtractFramesRoute.videoId := lit "1b4e28ba";
     ExtractFramesRoute.ffprobe := fun _ => Some clipMetadata;
     ExtractFramesRoute.ffmpegFrame := fun _ _ => Some (lit "iVBORw0KGgo=") |}.

(** An edit service that fails on the frame whose URL is [u1]. *)
Definition flakyEditor : GeminiEditor.Env :=
  {| GeminiEditor.editFrameApi := fun _ imageUrls =>
       match imageUrls with
       | u :: _ => if bool_decide (u = lit "u1") then Thrown (lit "API request failed: Bad Gateway")
                   else Ok (lit "edited:" ++ u)
       | [] => Thrown (lit "API request failed: Bad Request")
       end;
     GeminiEditor.downloadImage := fun _ => Ok (lit "blob") |}.

Definition threeFrames : list GeminiEditor.Frame :=
  [ {| GeminiEditor.index := 0; GeminiEditor.url := lit "u0" |};
    {| GeminiEditor.index := 1; GeminiEditor.url := lit "u1" |};
    {| GeminiEditor.index := 2; GeminiEditor.url := lit "u2" |} ].

(** A server on which every download and the encoder succeed; the
    "video" is the concatenation of the frames ffmpeg was given. *)
Definition healthyServer : ReassembleRoute.Env :=
  {| ReassembleRoute.sessionId := lit "9f3c";
     ReassembleRoute.fetchUrl := fun u => Ok (lit "png:" ++ u);
     ReassembleRoute.decodeBase64 := fun b => b;
     ReassembleRoute.encodeBase64 := fun b => b;
     ReassembleRoute.ffmpeg := fun _ inputs => ReassembleRoute.Encoded (concat inputs);
     ReassembleRoute.landed := fun _ => true |}.

(** The same server with an encoder that fails, leaving nothing. *)
Definition brokenEncoder : ReassembleRoute.Env :=
  {| ReassembleRoute.sessionId := lit "9f3c";
     ReassembleRoute.fetchUrl := fun u => Ok (lit "png:" ++ u);
     ReassembleRoute.decodeBase64 := fun b => b;
     ReassembleRoute.encodeBase64 := fun b => b;
     ReassembleRoute.ffmpeg := fun _ _ => ReassembleRoute.EncodeFailed None (lit "Command failed");
     ReassembleRoute.landed := fun _ => true |}.

Definition urlFrame (u : jsstring) : ReassembleRoute.Frame :=
  {| ReassembleRoute.base64 := None; ReassembleRoute.url := Some u |}.

(** [k] frames as the extraction route returns them. *)
Definition extracted (k : nat) : list VideoEditor.ExtractedFrame :=
  (fun i => {| ExtractFramesRoute.index := i;
               ExtractFramesRoute.timestamp := inject_Z (Z.of_nat i);
               ExtractFramesRoute.filename := lit "frame_1b4e28ba_" ++ toString i ++ lit ".png";
               ExtractFramesRoute.base64 := lit "data:image/png;base64," ++ toString i |})
  <$> seq 0 k.

(** A session: the edit service fails on the frames listed in
    [failing], the fan-out completes in [order], and the reassembly
    attempts listed in [assembling] succeed. *)
Definition session (failing order assembling : list nat) : VideoEditor.Env :=
  {| VideoEditor.editFrameApi := fun _ imageUrls =>
       match imageUrls with
       | image :: _ =>
           if bool_decide (Exists (fun i => image = lit "data:image/png;base64," ++ toString i)
                             failing)
           then Thrown (lit "Bad Gateway")
           else Ok (lit "https://fal.media/" ++ drop 22 image)
       | [] => Thrown (lit "Bad Request")
       end;
     VideoEditor.analyzeDiffApi := fun _ _ _ => Ok (lit "Add aviator sunglasses");
     VideoEditor.completionOrder := order;
     VideoEditor.reassembleApi := fun attempt _ _ _ =>
       if bool_decide (attempt ∈ assembling) then Ok (lit "mp4")
       else Thrown (lit "Failed to reassemble video");
     VideoEditor.createObjectURL := fun _ => lit "blob:edited" |}.

(** The component when the frames have just been extracted. *)
Definition ready (k : nat) : VideoEditor.State :=
  {| VideoEditor.currentStep := VideoEditor.editing;
     VideoEditor.prompt := lit "add sunglasses";
     VideoEditor.isProcessing := false;
     VideoEditor.progress := None;
     VideoEditor.error := None;
     VideoEditor.extractedFrames := extracted k;
     VideoEditor.editedFrames := [];
     VideoEditor.currentEditingFrame := -1;
     VideoEditor.detailedDiff := [];
     VideoEditor.firstFrameEdited := [];
     VideoEditor.editedVideoUrl := None |}.

(** Three frames whose fan-out completes in the order 2, 1. *)
Definition outOfOrder : VideoEditor.State * list VideoEditor.Event :=
  VideoEditor.handleProcessFrames (session [] [2; 1]%nat [1%nat]) (ready 3).

(** Three frames, the edit of frame 1 failing; the user then opens the
    editing step and presses "Assemble Video Now". *)
Definition oneMissing : VideoEditor.State * list VideoEditor.Event :=
  VideoEditor.handleProcessFrames (session [1%nat] [1; 2]%nat []) (ready 3).


(** Ten frames, the edit of frame 4 failing. *)
Definition oneOfTen : VideoEditor.State * list VideoEditor.Event :=
  VideoEditor.handleProcessFrames (session [4%nat] [3; 1; 4; 9; 2; 8; 5; 7; 6]%nat [1%nat])
    (ready 10).

(** An edit route with its key configured, in front of a service that
    edits everything it is sent. *)
Definition editServer : EditFrameRoute.Env :=
  {| EditFrameRoute.falApiKey := Some (lit "key");
     EditFrameRoute.falSubscribe := fun _ imageUrls =>
       match imageUrls with
       | image :: _ => EditFrameRoute.FalOk (lit "https://fal.media/" ++ drop 22 image)
       | [] => EditFrameRoute.FalError
       end |}.

(** The reason phrases of HTTP/1.1. *)
Definition reasonPhrase (status : Z) : jsstring :=
  if Z.eqb status 400 then lit "Bad Request"
  else if Z.eqb status 422 then lit "Unprocessable Entity"
  else if Z.eqb status 500 then lit "Internal Server Error"
  else lit "OK".

(** A session whose edit requests are served by [editServer]. *)
Definition routedSession (order : list nat) : VideoEditor.Env :=
  {| VideoEditor.editFrameApi := VideoEditor.fetchEditFrame editServer reasonPhrase;
     VideoEditor.analyzeDiffApi := fun _ _ _ => Ok (lit "Add aviator sunglasses");
     VideoEditor.completionOrder := order;
     VideoEditor.reassembleApi := fun _ _ _ _ => Ok (lit "mp4");
     VideoEditor.createObjectURL := fun _ => lit "blob:edited" |}.

(** A session whose reassembly requests are served by
    [healthyServer] on an empty temporary directory. *)
Definition assembledSession : VideoEditor.Env :=
  {| VideoEditor.editFrameApi := fun _ _ => Thrown (lit "Bad Gateway");
     VideoEditor.analyzeDiffApi := fun _ _ _ => Ok (lit "Add aviator sunglasses");
     VideoEditor.completionOrder := [];
     VideoEditor.reassembleApi := fun _ =>
       VideoProcessor.fetchReassemble healthyServer (drop 22) ∅;
     VideoEditor.createObjectURL := fun blob => lit "blob:" ++ blob |}.

(** A smoothing server whose ffmpeg prefixes the input with the filter
    it was given. *)
Definition smoother : SmoothVideoRoute.Env :=
  {| SmoothVideoRoute.sessionId := lit "51ab";
     SmoothVideoRoute.decodeBase64 := fun b => b;
     SmoothVideoRoute.encodeBase64 := fun b => b;
     SmoothVideoRoute.ffmpeg := fun videoFilter input =>
       SmoothVideoRoute.Smoothed (videoFilter ++ lit "|" ++ input) |}.

(** The component with [k] extracted frames and a prompt of 1893 code
    units. *)
Definition wordy (k : nat) : VideoEditor.State :=
  {| VideoEditor.currentStep := VideoEditor.editing;
     VideoEditor.prompt := replicate 1893 97%N;
     VideoEditor.isProcessing := false;
     VideoEditor.progress := None;
     VideoEditor.error := None;
     VideoEditor.extractedFrames := extracted k;
     VideoEditor.editedFrames := [];
     VideoEditor.currentEditingFrame := -1;
     VideoEditor.detailedDiff := [];
     VideoEditor.firstFrameEdited := [];
     VideoEditor.editedVideoUrl := None |}.

End Examples.

(** * Properties *)

(** ** Strings *)

Section StringFacts.

Lemma len_app (s t : jsstring) : len (s ++ t) = len s + len t.
Proof. unfold len. rewrite length_app. lia. Qed.

Lemma len_nonneg (s : jsstring) : 0 <= len s.
Proof. unfold len. lia. Qed.

Lemma length_lit (s : string) : length (lit s) = String.length s.
Proof. induction s as [|a s IH]; simpl; congruence. Qed.

(** [s.substring(0, e)] is the prefix of [s] of [e] code units. *)
Lemma substring_prefix (s : jsstring) (e : Z) :
  substring s 0 e = take (Z.to_nat e) s.
Proof.
  unfold substring, clamp, len.
  set (n := Z.of_nat (length s)).
  assert (Hn : 0 <= n) by (subst n; lia).
  replace (Z.min (Z.max 0 0) n) with 0 by lia.
  replace (Z.min 0 (Z.min (Z.max e 0) n)) with 0 by lia.
  replace (Z.max 0 (Z.min (Z.max e 0) n)) with (Z.min (Z.max e 0) n) by lia.
  rewrite Z.sub_0_r. simpl (Z.to_nat 0). rewrite drop_0.
  destruct (Z.le_gt_cases e n) as [Hle|Hgt].
  - f_equal. lia.
  - rewrite !take_ge; [done | subst n; lia | subst n; lia].
Qed.

Lemma len_substring_prefix (s : jsstring) (e : Z) :
  len (substring s 0 e) <= Z.max e 0 /\ len (substring s 0 e) <= len s.
Proof.
  rewrite substring_prefix. unfold len. rewrite length_take. lia.
Qed.

End StringFacts.

(** ** C2: the ceiling of the synthesized prompt *)

Section PromptCeiling.
Import PromptSynthesis.

Lemma len_truncatedDiff (d p : jsstring) :
  len (truncatedDiff d p) <= Z.max (1500 - len p) 0 + 15.
Proof.
  unfold truncatedDiff, maxDiffLength.
  destruct (Z.ltb_spec (1500 - len p) (len d)) as [Hlt|Hge].
  - rewrite len_app.
    pose proof (len_substring_prefix d (1500 - len p)) as [H1 _].
    change (len truncationMarker) with 15. lia.
  - lia.
Qed.

Lemma len_diffBasedPrompt (d p : jsstring) :
  len (diffBasedPrompt d p) = 95 + len p + len (truncatedDiff d p).
Proof.
  unfold diffBasedPrompt. rewrite !len_app.
  change (len promptHead) with 27. change (len promptMid) with 12.
  change (len promptTail) with 56. lia.
Qed.

(** Beyond 1500 code units of user prompt nothing of the specification
    is kept, and the prompt is 110 code units longer than the user's. *)
Lemma len_diffBasedPrompt_long (d p : jsstring) :
  1500 < len p -> len (diffBasedPrompt d p) = len p + 110.
Proof.
  intros Hp. rewrite len_diffBasedPrompt. unfold truncatedDiff, maxDiffLength.
  pose proof (len_nonneg d).
  destruct (Z.ltb_spec (1500 - len p) (len d)) as [Hlt|Hge]; [|lia].
  rewrite len_app.
  pose proof (len_substring_prefix d (1500 - len p)) as [H1 _].
  pose proof (len_nonneg (substring d 0 (1500 - len p))).
  change (len truncationMarker) with 15. lia.
Qed.

End PromptCeiling.

(** The guard of the edit-frame route on the length of the prompt. *)
Lemma edit_route_refuses_long_prompt env (prompt : jsstring) (imageUrls : list jsstring) :
  2000 < len prompt ->
  truthy (EditFrameRoute.falApiKey env) = true ->
  imageUrls <> [] ->
  EditFrameRoute.POST env (Some prompt) (Some imageUrls)
  = EditFrameRoute.Err400 (lit "Prompt too long. Maximum 2000 characters.").
Proof.
  intros Hlong Hkey Himgs. unfold EditFrameRoute.POST. rewrite Hkey.
  destruct prompt as [|c p]; [unfold len in Hlong; simpl in Hlong; lia|].
  destruct imageUrls as [|u us]; [done|].
  apply Z.ltb_lt in Hlong. simpl. by rewrite Hlong.
Qed.





(** ** C7: the ceiling of the diff specification *)

Lemma len_enforceLimit (text : jsstring) :
  len (AnalyzeDiffRoute.enforceLimit text) <= 5000.
Proof.
  unfold AnalyzeDiffRoute.enforceLimit.
  destruct (Z.ltb_spec 5000 (len text)) as [Hlong|Hshort]; [|exact Hshort].
  rewrite len_app. pose proof (len_substring_prefix text 4997) as [H _].
  change (len (lit "...")) with 3. lia.
Qed.

(** A response over the limit is cut to exactly 5000 code units: its
    first 4997 followed by three dots. *)
Lemma enforceLimit_long (text : jsstring) :
  5000 < len text ->
  AnalyzeDiffRoute.enforceLimit text = take 4997 text ++ lit "..."
  /\ len (AnalyzeDiffRoute.enforceLimit text) = 5000.
Proof.
  intros Hlong. unfold AnalyzeDiffRoute.enforceLimit.
  apply Z.ltb_lt in Hlong as Hb. rewrite Hb. rewrite substring_prefix.
  split; [reflexivity|].
  rewrite len_app. unfold len in *. rewrite length_take.
  change (length (lit "...")) with 3%nat. lia.
Qed.

(** C7: every diff specification the analyzer returns has at most 5000
    code units (and [diffLength] reports its length); the analyzer does
    return one, the model's text cut by [enforceLimit], whenever the key
    and the three parameters are present, the edited frame downloads and
    the model answers. *)
Theorem analyzer_diff_at_most_5000 (env : AnalyzeDiffRoute.Env)
    (originalPrompt originalFrameBase64 editedFrameUrl : jsstring) :
  (forall detailedDiff diffLength,
     AnalyzeDiffRoute.POST env (Some originalPrompt) (Some originalFrameBase64)
       (Some editedFrameUrl) = AnalyzeDiffRoute.Json200 detailedDiff diffLength ->
     len detailedDiff <= 5000 /\ diffLength = len detailedDiff)
  /\ (forall editedFrame text,
        truthy (AnalyzeDiffRoute.googleApiKey env) = true ->
        originalPrompt <> [] -> originalFrameBase64 <> [] -> editedFrameUrl <> [] ->
        AnalyzeDiffRoute.fetchEdited env editedFrameUrl = Some editedFrame ->
        AnalyzeDiffRoute.generateContent env originalPrompt originalFrameBase64 editedFrame
          = Some text ->
        AnalyzeDiffRoute.POST env (Some originalPrompt) (Some originalFrameBase64)
          (Some editedFrameUrl)
        = AnalyzeDiffRoute.Json200 (AnalyzeDiffRoute.enforceLimit text)
            (len (AnalyzeDiffRoute.enforceLimit text))).
Proof.
  split.
  - intros detailedDiff diffLength. unfold AnalyzeDiffRoute.POST.
    destruct (negb _); [discriminate|].
    destruct originalPrompt as [|c1 p]; [discriminate|].
    destruct originalFrameBase64 as [|c2 o]; [discriminate|].
    destruct editedFrameUrl as [|c3 e]; [discriminate|].
    destruct (AnalyzeDiffRoute.fetchEdited env (c3 :: e)) as [frame|]; [|discriminate].
    destruct (AnalyzeDiffRoute.generateContent env (c1 :: p) (c2 :: o) frame) as [text|];
      [|discriminate].
    intros [= <- <-]. split; [apply len_enforceLimit | reflexivity].
  - intros editedFrame text Hkey Hp Ho He Hfetch Hgen. unfold AnalyzeDiffRoute.POST.
    rewrite Hkey. simpl negb. cbv iota.
    destruct originalPrompt as [|c1 p]; [done|].
    destruct originalFrameBase64 as [|c2 o]; [done|].
    destruct editedFrameUrl as [|c3 e]; [done|].
    by rewrite Hfetch, Hgen.
Qed.

(** C7 at an analyzer whose model answers with 6000 code units: the
    returned specification has exactly 5000. *)
Lemma analyzer_diff_at_most_5000_witness :
  exists detailedDiff,
    AnalyzeDiffRoute.POST Examples.verboseAnalyzer (Some (lit "add sunglasses"))
      (Some (lit "data:image/png;base64,AAAA")) (Some (lit "https://fal.media/f0.png"))
    = AnalyzeDiffRoute.Json200 detailedDiff 5000
    /\ len detailedDiff <= 5000.
Proof.
  eexists. split.
  - vm_compute. reflexivity.
  - eapply (proj1 (analyzer_diff_at_most_5000 Examples.verboseAnalyzer (lit "add sunglasses")
             (lit "data:image/png;base64,AAAA") (lit "https://fal.media/f0.png"))).
    vm_compute. reflexivity.
Defined.

(** ** C6: the extraction plan *)

Section Extraction.
Import ExtractFramesRoute.

Variable env : Env.
Variable file : jsstring.
Variable m : Metadata.
Variable interval : Z.

Lemma extractLoop_spec (n : nat) : forall i acc frames,
  extractLoop env file m interval n i acc = Some frames ->
  exists new, frames = acc ++ new /\ length new = n
    /\ forall k f, new !! k = Some f ->
         index f = (i + k)%nat /\ timestamp f = timestampOf m interval (i + k).
Proof.
  induction n as [|n IH]; intros i acc frames; simpl.
  - intros [= <-]. exists []. rewrite app_nil_r. repeat split; [|done]. done.
  - destruct (ffmpegFrame env file (timestampOf m interval i)) as [b64|]; [|discriminate].
    intros H. apply IH in H as (new & -> & Hlen & Hnew).
    eexists (_ :: new). rewrite <- app_assoc. split; [reflexivity|].
    split; [simpl; lia|].
    intros [|k] f; simpl.
    + intros [= <-]. rewrite Nat.add_0_r. by split.
    + intros Hk. apply Hnew in Hk. by rewrite Nat.add_succ_r.
Qed.

Lemma extractLoop_returns (n : nat) : forall i acc,
  (forall ts, is_Some (ffmpegFrame env file ts)) ->
  is_Some (extractLoop env file m interval n i acc).
Proof.
  induction n as [|n IH]; intros i acc Hok; simpl; [by eexists|].
  destruct (Hok (timestampOf m interval i)) as [b64 ->]. by apply IH.
Qed.

Lemma extractAll_spec (n : nat) (frames : list FrameData) :
  extractAll env file (frameInfos env m interval n) = Some frames ->
  length frames = n /\ forall k f, frames !! k = Some f ->
    index f = k /\ timestamp f = timestampOf m interval k.
Proof.
  unfold extractAll. intros H. apply mapM_Some in H.
  split.
  - apply Forall2_length in H. rewrite <- H. unfold frameInfos.
    by rewrite length_fmap, length_seq.
  - intros k f Hk.
    destruct (Forall2_lookup_r _ _ _ _ _ H Hk) as ([[i ts] name] & Hinfo & Hf).
    unfold frameInfos in Hinfo. rewrite list_lookup_fmap in Hinfo.
    destruct (seq 0 n !! k) as [j|] eqn:Hj; [|discriminate].
    apply lookup_seq in Hj as [-> _]. simpl in Hinfo. injection Hinfo as <- <- <-.
    simpl in Hf. destruct (ffmpegFrame env file _); [|discriminate].
    simpl in Hf. injection Hf as <-. by split.
Qed.

Lemma extractAll_returns (n : nat) :
  (forall ts, is_Some (ffmpegFrame env file ts)) ->
  is_Some (extractAll env file (frameInfos env m interval n)).
Proof.
  intros Hok. unfold extractAll. apply mapM_is_Some, Forall_forall.
  intros [[i ts] name] _. simpl. destruct (Hok ts) as [b64 ->]. by eexists.
Qed.

(** A frame is extracted only from a video whose frame rate is
    positive, when the duration is not negative. *)
Lemma positive_rate_when_frames (maxFrames : Z) :
  (0 <= duration m)%Q ->
  0 < framesToExtract m interval maxFrames ->
  (0 < fps m)%Q.
Proof.
  intros Hd Hn. unfold framesToExtract, totalFrames, frameInterval in Hn.
  assert (Htot : 0 < Qfloor (duration m * fps m)).
  { destruct (Z.le_gt_cases (Qfloor (duration m * fps m)) 0) as [Hle|]; [|done].
    assert (Qfloor (duration m * fps m) / Z.max 1 interval <= 0)
      by (apply Z.div_le_upper_bound; lia).
    lia. }
  destruct (Qlt_le_dec 0 (fps m)) as [|Hneg]; [done|exfalso].
  assert (Hprod : (duration m * fps m <= 0)%Q).
  { clear Hn Htot. destruct (duration m) as [nd dd], (fps m) as [nf df].
    unfold Qle in *. simpl in *.
    rewrite Z.mul_1_r in *. simpl. apply Z.mul_nonneg_nonpos; lia. }
  pose proof (Qfloor_le (duration m * fps m)) as Hfl.
  assert (Hz : (inject_Z (Qfloor (duration m * fps m)) <= 0)%Q)
    by (eapply Qle_trans; eassumption).
  change 0%Q with (inject_Z 0) in Hz. rewrite <- Zle_Qle in Hz. lia.
Qed.

Lemma timestampOf_increasing (j k : nat) :
  (0 < fps m)%Q -> (j < k)%nat ->
  (timestampOf m interval j < timestampOf m interval k)%Q.
Proof.
  intros Hfps Hjk. unfold timestampOf, Qdiv.
  apply Qmult_lt_compat_r; [by apply Qinv_lt_0_compat|].
  rewrite <- Zlt_Qlt. unfold frameInterval. nia.
Qed.

End Extraction.

(** C6: with [interval >= 1], [maxFrames >= 1] and a video of
    non-negative duration, either variant of the extraction route answers
    with at most [maxFrames] frames; the frame at position [k] has index
    [k] and timestamp [k * interval / fps], and timestamps increase
    strictly with the index. The route does answer, with exactly the
    planned number of frames, when ffmpeg succeeds at every timestamp. *)
Theorem extraction_bounded_and_increasing (parallel : bool)
    (env : ExtractFramesRoute.Env) (file : jsstring) (m : ExtractFramesRoute.Metadata)
    (interval maxFrames : Z) :
  1 <= interval -> 1 <= maxFrames ->
  (0 <= ExtractFramesRoute.duration m)%Q ->
  ExtractFramesRoute.ffprobe env file = Some m ->
  (forall frames metadata,
     ExtractFramesRoute.handler parallel env (Some file) (Some interval) (Some maxFrames)
       = ExtractFramesRoute.Json200 frames metadata ->
     Z.of_nat (length frames) <= maxFrames
     /\ (forall k f, frames !! k = Some f ->
           ExtractFramesRoute.index f = k
           /\ ExtractFramesRoute.timestamp f
              = (inject_Z (Z.of_nat k * interval) / ExtractFramesRoute.fps m)%Q)
     /\ (forall j k f g, frames !! j = Some f -> frames !! k = Some g -> (j < k)%nat ->
           (ExtractFramesRoute.timestamp f < ExtractFramesRoute.timestamp g)%Q))
  /\ ((forall ts, is_Some (ExtractFramesRoute.ffmpegFrame env file ts)) ->
      exists frames,
        ExtractFramesRoute.handler parallel env (Some file) (Some interval) (Some maxFrames)
          = ExtractFramesRoute.Json200 frames m
        /\ length frames
           = Z.to_nat (ExtractFramesRoute.framesToExtract m interval maxFrames)).
Proof.
  intros Hi Hmax Hd Hprobe.
  set (n := Z.to_nat (ExtractFramesRoute.framesToExtract m interval maxFrames)).
  assert (Hspec : forall frames,
    (if parallel
     then ExtractFramesRoute.extractAll env file (ExtractFramesRoute.frameInfos env m interval n)
     else ExtractFramesRoute.extractLoop env file m interval n 0 []) = Some frames ->
    length frames = n
    /\ forall k f, frames !! k = Some f ->
         ExtractFramesRoute.index f = k
         /\ ExtractFramesRoute.timestamp f = ExtractFramesRoute.timestampOf m interval k).
  { intros frames H. destruct parallel.
    - by apply extractAll_spec in H.
    - apply extractLoop_spec in H as (new & -> & Hlen & Hnew). simpl. split; [done|].
      intros k f Hk. by apply Hnew in Hk. }
  split.
  - intros frames metadata. unfold ExtractFramesRoute.handler. simpl.
    rewrite Hprobe. fold n.
    destruct (if parallel then _ else _) as [frames'|] eqn:Hrun; [|discriminate].
    intros [= <- <-]. destruct (Hspec _ eq_refl) as [Hlen Hplan].
    split; [|split].
    + rewrite Hlen. subst n. unfold ExtractFramesRoute.framesToExtract. lia.
    + intros k f Hk. apply Hplan in Hk as [Hidx Hts]. split; [done|].
      rewrite Hts. unfold ExtractFramesRoute.timestampOf, ExtractFramesRoute.frameInterval.
      by rewrite Z.max_r by lia.
    + intros j k f g Hj Hk Hjk.
      assert (Hkn : (k < n)%nat) by (rewrite <- Hlen; by eapply lookup_lt_Some).
      apply Hplan in Hj as [_ ->]. apply Hplan in Hk as [_ ->].
      apply timestampOf_increasing; [|done].
      apply (positive_rate_when_frames m interval maxFrames); [done|]. subst n. lia.
  - intros Hok. unfold ExtractFramesRoute.handler. simpl. rewrite Hprobe. fold n.
    assert (Hsome : is_Some (if parallel
      then ExtractFramesRoute.extractAll env file (ExtractFramesRoute.frameInfos env m interval n)
      else ExtractFramesRoute.extractLoop env file m interval n 0 [])).
    { destruct parallel; [by apply extractAll_returns | by apply extractLoop_returns]. }
    destruct Hsome as [frames Hrun]. rewrite Hrun. exists frames. split; [done|].
    by apply Hspec in Hrun as [-> _].
Qed.

(** C6 on a two-second clip at 30 fps, sampled every 10 frames with a cap
    of 4: the sequential route answers, with at most 4 frames. *)
Lemma extraction_bounded_and_increasing_witness :
  exists frames,
    ExtractFramesRoute.POST Examples.clipEnv (Some (lit "clip.mp4")) (Some 10) (Some 4)
      = ExtractFramesRoute.Json200 frames Examples.clipMetadata
    /\ Z.of_nat (length frames) <= 4.
Proof.
  assert (H := extraction_bounded_and_increasing false Examples.clipEnv (lit "clip.mp4")
                 Examples.clipMetadata 10 4).
  destruct H as [Hall Hex]; [lia | lia | vm_compute; discriminate | reflexivity |].
  destruct Hex as [frames [Hrun _]]; [intros ts; by eexists|].
  exists frames. split; [exact Hrun|].
  exact (proj1 (Hall frames _ Hrun)).
Defined.

(** ** C10: [GeminiEditor.editFrames] keeps one entry per frame *)

Section EditFrames.
Import GeminiEditor.

Variable env : Env.
Variable prompt : jsstring.
Variable n : nat.

(** The entry pushed for a frame: the edit when the [try] block
    succeeds, the original otherwise. *)
Lemma step_pushes (frame : Frame) (i : nat) (st : Loop) :
  editedFrames (step env prompt n frame i st)
  = editedFrames st ++
      [match tryEdit env prompt frame i (previousEditedUrl st) with
       | Ok edited => edited
       | Thrown _ => {| ef_index := index frame; originalUrl := url frame;
                        editedUrl := url frame; editedBlob := None |}
       end].
Proof. unfold step. by destruct (tryEdit _ _ _ _ _). Qed.

Lemma loop_app (l1 l2 : list Frame) : forall i st,
  loop env prompt n (l1 ++ l2) i st
  = loop env prompt n l2 (i + length l1) (loop env prompt n l1 i st).
Proof.
  induction l1 as [|f l1 IH]; intros i st; simpl.
  - by rewrite Nat.add_0_r.
  - rewrite IH. f_equal. lia.
Qed.

Lemma loop_extends (frames : list Frame) : forall i st,
  exists new,
    editedFrames (loop env prompt n frames i st) = editedFrames st ++ new
    /\ length new = length frames.
Proof.
  induction frames as [|f frames IH]; intros i st; simpl.
  - exists []. by rewrite app_nil_r.
  - destruct (IH (S i) (step env prompt n f i st)) as (new & -> & Hlen).
    rewrite step_pushes, <- app_assoc. eexists. split; [reflexivity|].
    simpl. by rewrite Hlen.
Qed.

Lemma loop_reports_extend (frames : list Frame) : forall i st,
  exists new, reported (loop env prompt n frames i st) = reported st ++ new.
Proof.
  induction frames as [|f frames IH]; intros i st; simpl.
  - exists []. by rewrite app_nil_r.
  - destruct (IH (S i) (step env prompt n f i st)) as (new & ->).
    unfold step. destruct (tryEdit _ _ _ _ _); simpl; rewrite <- app_assoc; by eexists.
Qed.

Lemma tryEdit_index (frame : Frame) (i : nat) prev (edited : EditedFrame) :
  tryEdit env prompt frame i prev = Ok edited ->
  ef_index edited = index frame /\ originalUrl edited = url frame.
Proof.
  unfold tryEdit. destruct (editFrameApi _ _ _); [|discriminate].
  destruct (downloadImage _ _); [|discriminate]. by intros [= <-].
Qed.

End EditFrames.

(** The start of the loop of [editFrames]. *)
Local Abbreviation editFrames_init :=
  {| GeminiEditor.editedFrames := []; GeminiEditor.previousEditedUrl := None;
     GeminiEditor.reported := [] |}.

(** The entry of the result at the position of a frame. *)
Lemma editFrames_entry (env : GeminiEditor.Env) (frames : list GeminiEditor.Frame)
    (prompt : jsstring) (i : nat) (frame : GeminiEditor.Frame) :
  frames !! i = Some frame ->
  (GeminiEditor.editFrames env frames prompt).1 !! i
  = Some match GeminiEditor.tryEdit env prompt frame i
                 (GeminiEditor.previousEditedUrl
                    (GeminiEditor.loop env prompt (length frames) (take i frames) 0
                       editFrames_init)) with
         | Ok edited => edited
         | Thrown _ => {| GeminiEditor.ef_index := GeminiEditor.index frame;
                          GeminiEditor.originalUrl := GeminiEditor.url frame;
                          GeminiEditor.editedUrl := GeminiEditor.url frame;
                          GeminiEditor.editedBlob := None |}
         end.
Proof.
  intros Hi. unfold GeminiEditor.editFrames. cbn [fst].
  assert (Hsplit : frames = take i frames ++ frame :: drop (S i) frames)
    by (by rewrite take_drop_middle).
  assert (Hlen : length (take i frames) = i).
  { rewrite length_take. apply lookup_lt_Some in Hi. lia. }
  rewrite Hsplit at 2. rewrite loop_app. simpl. rewrite Hlen.
  set (before := GeminiEditor.loop env prompt (length frames) (take i frames) 0 editFrames_init).
  destruct (loop_extends env prompt (length frames) (drop (S i) frames) (S i)
              (GeminiEditor.step env prompt (length frames) frame i before))
    as (new & -> & _).
  rewrite step_pushes.
  destruct (loop_extends env prompt (length frames) (take i frames) 0%nat editFrames_init)
    as (pre & Hpre & Hprelen).
  fold before in Hpre. simpl in Hpre. rewrite Hpre.
  rewrite <- app_assoc. rewrite lookup_app_r by lia.
  rewrite Hprelen, Hlen, Nat.sub_diag. reflexivity.
Qed.

Lemma editFrames_length (env : GeminiEditor.Env) (frames : list GeminiEditor.Frame)
    (prompt : jsstring) :
  length (GeminiEditor.editFrames env frames prompt).1 = length frames.
Proof.
  unfold GeminiEditor.editFrames. cbn [fst].
  by destruct (loop_extends env prompt (length frames) frames 0%nat editFrames_init)
    as (new & -> & Hl).
Qed.

(** The indices of the result are those of the input, in order. *)
Lemma editFrames_indices (env : GeminiEditor.Env) (frames : list GeminiEditor.Frame)
    (prompt : jsstring) :
  GeminiEditor.ef_index <$> (GeminiEditor.editFrames env frames prompt).1
  = GeminiEditor.index <$> frames.
Proof.
  apply list_eq. intros i. rewrite !list_lookup_fmap.
  destruct (frames !! i) as [frame|] eqn:Hi.
  - rewrite (editFrames_entry env frames prompt i frame Hi). simpl. f_equal.
    destruct (GeminiEditor.tryEdit _ _ _ _ _) as [edited|] eqn:Htry; [|done].
    by apply tryEdit_index in Htry as [-> _].
  - apply lookup_ge_None in Hi. rewrite lookup_ge_None_2; [done|].
    rewrite editFrames_length. lia.
Qed.

(** C10: for every list of frames and whatever the edit service does,
    [editFrames] returns one entry per frame, in the order of the input
    and with the index of its frame; the entry of a frame whose [try]
    block threw carries the frame's own URL as [editedUrl] (and no blob);
    and the last progress report has status [completed]. *)
Theorem editFrames_keeps_every_frame (env : GeminiEditor.Env)
    (frames : list GeminiEditor.Frame) (prompt : jsstring) :
  let result := GeminiEditor.editFrames env frames prompt in
  length result.1 = length frames
  /\ GeminiEditor.ef_index <$> result.1 = GeminiEditor.index <$> frames
  /\ (forall i frame,
        frames !! i = Some frame ->
        let before :=
          GeminiEditor.loop env prompt (length frames) (take i frames) 0
            {| GeminiEditor.editedFrames := []; GeminiEditor.previousEditedUrl := None;
               GeminiEditor.reported := [] |} in
        match GeminiEditor.tryEdit env prompt frame i (GeminiEditor.previousEditedUrl before) with
        | Ok edited => result.1 !! i = Some edited
        | Thrown _ =>
            result.1 !! i
            = Some {| GeminiEditor.ef_index := GeminiEditor.index frame;
                      GeminiEditor.originalUrl := GeminiEditor.url frame;
                      GeminiEditor.editedUrl := GeminiEditor.url frame;
                      GeminiEditor.editedBlob := None |}
        end)
  /\ last result.2 = Some (GeminiEditor.finalReport (length frames))
  /\ GeminiEditor.status (GeminiEditor.finalReport (length frames)) = GeminiEditor.completed.
Proof.
  cbv zeta. split; [apply editFrames_length|]. split; [apply editFrames_indices|].
  split; [|split; [apply last_snoc | reflexivity]].
  intros i frame Hi. rewrite (editFrames_entry env frames prompt i frame Hi).
  by destruct (GeminiEditor.tryEdit _ _ _ _ _).
Qed.

(** C10 on three frames when the edit of the second one fails: three
    entries come back and the second one is the unedited original. *)
Lemma editFrames_keeps_every_frame_witness :
  length (GeminiEditor.editFrames Examples.flakyEditor Examples.threeFrames
            (lit "make it blue")).1 = 3%nat
  /\ (GeminiEditor.editFrames Examples.flakyEditor Examples.threeFrames
        (lit "make it blue")).1 !! 1%nat
     = Some {| GeminiEditor.ef_index := 1; GeminiEditor.originalUrl := lit "u1";
               GeminiEditor.editedUrl := lit "u1"; GeminiEditor.editedBlob := None |}.
Proof.
  pose proof (editFrames_keeps_every_frame Examples.flakyEditor Examples.threeFrames
                (lit "make it blue")) as (Hlen & _ & Hat & _).
  split; [exact Hlen|].
  exact (Hat 1%nat {| GeminiEditor.index := 1; GeminiEditor.url := lit "u1" |} eq_refl).
Defined.

(** ** C5: what the reassembly route leaves on disk *)

Section StagingDirectory.
Import Fs ReassembleRoute.

(** The name [d] is a directory of the temporary directory. *)
Local Abbreviation isDir d fs := (exists es, (fs : FS) !! (d : jsstring) = Some (Dir es)).

Variable d : jsstring.

(** [unlink] never removes a directory. *)
Lemma unlink_keeps_dir (p : Path) (fs fs' : FS) :
  unlink p fs = inr fs' -> isDir d fs -> isDir d fs'.
Proof.
  intros Hop [es Hd]. destruct p as [d'|d' n]; simpl in Hop.
  - destruct (fs !! d') as [[c|es']|] eqn:Hd'; try discriminate.
    injection Hop as <-. exists es. rewrite lookup_delete_ne; [done|congruence].
  - destruct (fs !! d') as [[c|es']|] eqn:Hd'; try discriminate.
    destruct (es' !! n); [|discriminate]. injection Hop as <-.
    destruct (decide (d' = d)) as [->|Hne].
    + rewrite lookup_insert_eq. by eexists.
    + rewrite lookup_insert_ne by done. by exists es.
Qed.

Lemma writeFile_keeps_dir (p : Path) (content : jsstring) (fs fs' : FS) :
  writeFile p content fs = inr fs' -> isDir d fs -> isDir d fs'.
Proof.
  intros Hop [es Hd]. destruct p as [d'|d' n]; simpl in Hop.
  - destruct (decide (d' = d)) as [->|Hne].
    + rewrite Hd in Hop. discriminate.
    + exists es. destruct (fs !! d') as [[c|es']|]; try discriminate;
        injection Hop as <-; by rewrite lookup_insert_ne.
  - destruct (fs !! d') as [[c|es']|] eqn:Hd'; try discriminate.
    injection Hop as <-.
    destruct (decide (d' = d)) as [->|Hne].
    + rewrite lookup_insert_eq. by eexists.
    + rewrite lookup_insert_ne by done. by exists es.
Qed.

Lemma orWarn_unlink_keeps_dir (p : Path) (fs : FS) :
  isDir d fs -> isDir d (orWarn (unlink p fs) fs).
Proof.
  intros Hd. destruct (unlink p fs) as [e|fs'] eqn:Hop; simpl; [done|].
  by eapply unlink_keeps_dir.
Qed.

Lemma orWarn_writeFile_keeps_dir (p : Path) (content : jsstring) (fs : FS) :
  isDir d fs -> isDir d (orWarn (writeFile p content fs) fs).
Proof.
  intros Hd. destruct (writeFile p content fs) as [e|fs'] eqn:Hop; simpl; [done|].
  by eapply writeFile_keeps_dir.
Qed.

Lemma unlinkAll_keeps_dir (paths : list Path) : forall fs : FS,
  isDir d fs -> isDir d (unlinkAll paths fs).
Proof.
  unfold unlinkAll. induction paths as [|p paths IH]; intros fs Hd; simpl; [done|].
  by apply IH, orWarn_unlink_keeps_dir.
Qed.

Variable env : Env.

Lemma stageAll_keeps_dir (frames : list Frame) : forall i (fs fs' : FS) paths,
  stageAll env i frames fs = Ok (fs', paths) -> isDir d fs -> isDir d fs'.
Proof.
  induction frames as [|f frames IH]; intros i fs fs' paths; cbn [stageAll].
  - by intros [= <- <-].
  - destruct (frameBuffer env f i) as [buf|]; [|discriminate].
    destruct (writeFile (framePath env i) buf fs) as [e|fs1] eqn:Hw; [discriminate|].
    destruct (stageAll env (S i) frames fs1) as [[fs2 ps]|] eqn:Hrest; [|discriminate].
    intros [= <- <-] Hd. eapply IH; [exact Hrest|]. by eapply writeFile_keeps_dir.
Qed.

Lemma stageSome_keeps_dir (sel : nat -> bool) (frames : list Frame) : forall i (fs : FS),
  isDir d fs -> isDir d (stageSome env sel i frames fs).
Proof.
  induction frames as [|f frames IH]; intros i fs Hd; cbn [stageSome]; [done|].
  apply IH. destruct (frameBuffer env f i); [|done].
  destruct (sel i); [|done]. by apply orWarn_writeFile_keeps_dir.
Qed.

Lemma successCleanup_keeps_dir (framePaths : list Path) (video : Path) (fs : FS) :
  isDir d fs -> isDir d (successCleanup env framePaths video fs).
Proof.
  intros Hd. unfold successCleanup.
  by apply orWarn_unlink_keeps_dir, orWarn_unlink_keeps_dir, unlinkAll_keeps_dir.
Qed.

Lemma errorCleanup_keeps_dir (video : option Path) (fs : FS) :
  isDir d fs -> isDir d (errorCleanup env video fs).
Proof.
  intros Hd. unfold errorCleanup.
  assert (Hv : forall fs0 : FS, isDir d fs0 ->
            isDir d match video with
                    | Some p => orWarn (unlink p fs0) fs0
                    | None => fs0
                    end).
  { intros fs0 H0. destruct video; [by apply orWarn_unlink_keeps_dir|done]. }
  destruct (existsSync _ fs); [|by apply Hv].
  destruct (readdirSync _ fs) as [e|files]; [by apply Hv|].
  destruct (existsSync _ _).
  - by apply orWarn_unlink_keeps_dir, unlinkAll_keeps_dir, Hv.
  - by apply unlinkAll_keeps_dir, Hv.
Qed.

End StagingDirectory.

(** C5 fails on the staging directory: for every request with at least
    one frame, on a server where the fresh directory name is free, the
    per-session staging directory is still a directory of [os.tmpdir()]
    when the route has answered, on the success path and on every failure
    path: [unlink] does not remove directories and the rejection is
    swallowed by the cleanup's [catch]. *)
Theorem reassembly_leaves_staging_directory (env : ReassembleRoute.Env)
    (frame : ReassembleRoute.Frame) (frames : list ReassembleRoute.Frame)
    (fps : option Z) (outputFormat : option jsstring) (fs : gmap jsstring Fs.Node) :
  fs !! ReassembleRoute.tempDirName env = None ->
  exists entries,
    (ReassembleRoute.POST env (Some (frame :: frames)) fps outputFormat fs).2
      !! ReassembleRoute.tempDirName env = Some (Fs.Dir entries).
Proof.
  intros Hfree. unfold ReassembleRoute.POST.
  set (dir := ReassembleRoute.tempDirName env) in *.
  assert (Hex : Fs.existsSync (Fs.Top dir) fs = false).
  { simpl. rewrite Hfree. apply bool_decide_eq_false. by intros [? ?]. }
  rewrite Hex. unfold Fs.mkdir. rewrite Hfree.
  set (fs1 := <[dir := Fs.Dir ∅]> fs).
  assert (H1 : exists es, fs1 !! dir = Some (Fs.Dir es)).
  { exists ∅. subst fs1. by rewrite lookup_insert_eq. }
  destruct (ReassembleRoute.stageAll env 0 (frame :: frames) fs1) as [[fs2 paths]|e] eqn:Hstage.
  - assert (H2 : exists es, fs2 !! dir = Some (Fs.Dir es))
      by (eapply stageAll_keeps_dir; eassumption).
    destruct (ReassembleRoute.ffmpeg env _ _) as [video|partialOutput e].
    + set (fs3 := Fs.orWarn _ fs2).
      assert (H3 : exists es, fs3 !! dir = Some (Fs.Dir es))
        by (by apply orWarn_writeFile_keeps_dir).
      destruct (Fs.readFile _ fs3); cbn [snd].
      * by apply errorCleanup_keeps_dir.
      * by apply successCleanup_keeps_dir.
    + cbn [snd]. apply errorCleanup_keeps_dir.
      destruct partialOutput; [by apply orWarn_writeFile_keeps_dir|done].
  - cbn [snd]. by apply stageSome_keeps_dir, errorCleanup_keeps_dir, stageSome_keeps_dir.
Qed.

(** The success path at two frames given by URL on an empty temporary
    directory: the route answers 200, the frame files and the output file
    are gone, and the staging directory is left behind, empty. *)
Lemma reassembly_leaves_staging_directory_witness :
  ReassembleRoute.POST Examples.healthyServer
    (Some [Examples.urlFrame (lit "a"); Examples.urlFrame (lit "b")]) None None ∅
  = (ReassembleRoute.Json200 (lit "data:video/mp4;base64,png:apng:b") 10,
     {[ lit "video_reassemble_9f3c" := Fs.Dir ∅ ]})
  /\ exists entries,
       (ReassembleRoute.POST Examples.healthyServer
          (Some [Examples.urlFrame (lit "a"); Examples.urlFrame (lit "b")]) None None ∅).2
         !! lit "video_reassemble_9f3c" = Some (Fs.Dir entries).
Proof.
  split; [vm_compute; reflexivity|].
  apply (reassembly_leaves_staging_directory Examples.healthyServer
           (Examples.urlFrame (lit "a")) [Examples.urlFrame (lit "b")] None None ∅).
  reflexivity.
Defined.

(** ** The fan-out of [handleProcessFrames] *)

(** A list of pairs with distinct first components is a function. *)
Lemma NoDup_keys_functional {A B : Type} (l : list (A * B)) (x : A) (y1 y2 : B) :
  NoDup l.*1 -> (x, y1) ∈ l -> (x, y2) ∈ l -> y1 = y2.
Proof.
  intros Hnd H1 H2.
  apply list_elem_of_lookup in H1 as [i1 H1]. apply list_elem_of_lookup in H2 as [i2 H2].
  assert (i1 = i2) as ->.
  { eapply (NoDup_lookup _ _ _ x Hnd); rewrite list_lookup_fmap.
    - by rewrite H1.
    - by rewrite H2. }
  congruence.
Qed.

Section FanOut.
Import VideoEditor.

Variable env : Env.
Variables originalPrompt diff : jsstring.
Variable n : nat.

Local Abbreviation editPrompt := (PromptSynthesis.diffBasedPrompt diff originalPrompt).
Local Abbreviation settle' := (settle env originalPrompt diff n).

(** The indices entered in [allEditedFrames] and those still in flight. *)
Local Abbreviation keys f := ((index <$> allEditedFrames f) ++ (pending f).*1).

(** The three ways a completion can go. *)
Lemma settle_cases (f : Fan) (k : nat) :
  (settle' f k = f /\ k ∉ (pending f).*1)
  \/ (exists pos frame url,
        pending f !! pos = Some (k, frame)
        /\ editFrameApi env editPrompt [ExtractFramesRoute.base64 frame] = Ok url
        /\ allEditedFrames (settle' f k)
           = allEditedFrames f ++
               [{| index := k; originalUrl := ExtractFramesRoute.base64 frame;
                   editedUrl := url |}]
        /\ editedFrames (fanState (settle' f k)) = allEditedFrames (settle' f k)
        /\ (exists report,
              fanState (settle' f k)
              = setProgress report (setEditedFrames (allEditedFrames (settle' f k)) (fanState f)))
        /\ pending (settle' f k) = delete pos (pending f)
        /\ rejected (settle' f k) = rejected f
        /\ events (settle' f k) = events f ++ [EditSettled k true])
  \/ (exists pos frame e,
        pending f !! pos = Some (k, frame)
        /\ editFrameApi env editPrompt [ExtractFramesRoute.base64 frame] = Thrown e
        /\ allEditedFrames (settle' f k) = allEditedFrames f
        /\ fanState (settle' f k)
           = (if rejected f then fanState f
              else catchFinally (lit "Frame " ++ toString (k + 1)
                                   ++ lit " processing failed: " ++ e) (fanState f))
        /\ pending (settle' f k) = delete pos (pending f)
        /\ rejected (settle' f k) = true
        /\ events (settle' f k) = events f ++ [EditSettled k false]).
Proof.
  unfold settle.
  destruct (list_find (fun p => p.1 = k) (pending f)) as [[pos [k' frame]]|] eqn:Hfind.
  - apply list_find_Some in Hfind as (Hpos & Hk & _). simpl in Hk. subst k'.
    destruct (editFrameApi env editPrompt [ExtractFramesRoute.base64 frame]) as [url|e] eqn:Hapi.
    + right; left. exists pos, frame, url. simpl. repeat split; try done. by eexists.
    + right; right. exists pos, frame, e. simpl. by repeat split.
  - left. split; [done|]. apply list_find_None in Hfind.
    intros Hin. apply list_elem_of_fmap in Hin as ([k' frame] & -> & Hin).
    rewrite Forall_forall in Hfind. by apply (Hfind _ Hin).
Qed.

(** No index is entered twice: the entered and in-flight indices only
    ever lose members. *)
Lemma settle_keys (f : Fan) (k : nat) : keys (settle' f k) ⊆+ keys f.
Proof.
  destruct (settle_cases f k) as [[-> _]|[H|H]]; [done| |].
  - destruct H as (pos & frame & url & Hpos & _ & -> & _ & _ & -> & _).
    rewrite fmap_app, <- app_assoc. apply submseteq_skips_l. simpl.
    apply Permutation_submseteq.
    rewrite (delete_Permutation _ _ _ Hpos) at 2. done.
  - destruct H as (pos & frame & e & Hpos & _ & -> & _ & -> & _).
    apply submseteq_skips_l, fmap_submseteq, submseteq_delete.
Qed.

Lemma settle_pending_sub (f : Fan) (k : nat) : pending (settle' f k) ⊆+ pending f.
Proof.
  destruct (settle_cases f k) as [[-> _]|[H|H]]; [done| |].
  - destruct H as (pos & frame & url & _ & _ & _ & _ & _ & -> & _). apply submseteq_delete.
  - destruct H as (pos & frame & e & _ & _ & _ & _ & -> & _). apply submseteq_delete.
Qed.

(** The React state mirrors the shared array. *)
Lemma settle_mirrors (f : Fan) (k : nat) :
  editedFrames (fanState f) = allEditedFrames f ->
  editedFrames (fanState (settle' f k)) = allEditedFrames (settle' f k).
Proof.
  intros Hm. destruct (settle_cases f k) as [[-> _]|[H|H]]; [done| |].
  - by destruct H as (pos & frame & url & _ & _ & _ & -> & _).
  - destruct H as (pos & frame & e & _ & _ & -> & -> & _). by destruct (rejected f).
Qed.

Lemma settle_extracted (f : Fan) (k : nat) :
  extractedFrames (fanState (settle' f k)) = extractedFrames (fanState f).
Proof.
  destruct (settle_cases f k) as [[-> _]|[H|H]]; [done| |].
  - by destruct H as (pos & frame & url & _ & _ & _ & _ & [report ->] & _).
  - destruct H as (pos & frame & e & _ & _ & _ & -> & _). by destruct (rejected f).
Qed.

(** Every completion appends one [EditSettled] event, or nothing. *)
Lemma settle_events (f : Fan) (k : nat) :
  exists new, events (settle' f k) = events f ++ new
    /\ Forall (fun ev => exists j ok, ev = EditSettled j ok) new.
Proof.
  destruct (settle_cases f k) as [[-> _]|[H|H]].
  - exists []. by rewrite app_nil_r.
  - destruct H as (pos & frame & url & _ & _ & _ & _ & _ & _ & _ & ->).
    eexists. split; [done|]. repeat constructor. by eexists _, _.
  - destruct H as (pos & frame & e & _ & _ & _ & _ & _ & _ & ->).
    eexists. split; [done|]. repeat constructor. by eexists _, _.
Qed.

(** The same facts for a whole completion order. *)
Local Abbreviation run f order := (foldl settle' f order).

Lemma run_keys (order : list nat) : forall f, keys (run f order) ⊆+ keys f.
Proof.
  induction order as [|k order IH]; intros f; simpl; [done|].
  etrans; [apply IH | apply settle_keys].
Qed.

Lemma run_pending_sub (order : list nat) : forall f, pending (run f order) ⊆+ pending f.
Proof.
  induction order as [|k order IH]; intros f; simpl; [done|].
  etrans; [apply IH | apply settle_pending_sub].
Qed.

Lemma run_mirrors (order : list nat) : forall f,
  editedFrames (fanState f) = allEditedFrames f ->
  editedFrames (fanState (run f order)) = allEditedFrames (run f order).
Proof.
  induction order as [|k order IH]; intros f Hm; simpl; [done|].
  by apply IH, settle_mirrors.
Qed.

Lemma run_extracted (order : list nat) : forall f,
  extractedFrames (fanState (run f order)) = extractedFrames (fanState f).
Proof.
  induction order as [|k order IH]; intros f; simpl; [done|].
  by rewrite IH, settle_extracted.
Qed.

Lemma run_events (order : list nat) : forall f,
  exists new, events (run f order) = events f ++ new
    /\ Forall (fun ev => exists j ok, ev = EditSettled j ok) new.
Proof.
  induction order as [|k order IH]; intros f; simpl.
  - exists []. by rewrite app_nil_r.
  - destruct (IH (settle' f k)) as (new2 & -> & H2).
    destruct (settle_events f k) as (new1 & -> & H1).
    exists (new1 ++ new2). rewrite app_assoc. split; [done|]. by apply Forall_app.
Qed.

(** The shared array only grows, at its end. *)
Lemma run_all_extends (order : list nat) : forall f,
  exists new, allEditedFrames (run f order) = allEditedFrames f ++ new.
Proof.
  induction order as [|k order IH]; intros f; simpl.
  - exists []. by rewrite app_nil_r.
  - destruct (IH (settle' f k)) as (new & ->).
    destruct (settle_cases f k) as [[-> _]|[H|H]]; [by eexists| |].
    + destruct H as (pos & frame & url & _ & _ & -> & _).
      rewrite <- app_assoc. by eexists.
    + destruct H as (pos & frame & e & _ & _ & -> & _). by eexists.
Qed.

(** Where an entry of the shared array comes from: it was there at the
    start, or it is the edit the service returned for a dispatched frame. *)
Lemma run_provenance (start : list EditedFrame) (dispatched : list (nat * ExtractedFrame))
    (order : list nat) : forall f,
  pending f ⊆+ dispatched ->
  Forall (fun e => e ∈ start \/ exists frame,
            (index e, frame) ∈ dispatched
            /\ originalUrl e = ExtractFramesRoute.base64 frame
            /\ editFrameApi env editPrompt [ExtractFramesRoute.base64 frame] = Ok (editedUrl e))
         (allEditedFrames f) ->
  Forall (fun e => e ∈ start \/ exists frame,
            (index e, frame) ∈ dispatched
            /\ originalUrl e = ExtractFramesRoute.base64 frame
            /\ editFrameApi env editPrompt [ExtractFramesRoute.base64 frame] = Ok (editedUrl e))
         (allEditedFrames (run f order)).
Proof.
  induction order as [|k order IH]; intros f Hsub Hall; simpl; [done|].
  apply IH; [etrans; [apply settle_pending_sub | done]|].
  destruct (settle_cases f k) as [[-> _]|[H|H]]; [done| |].
  - destruct H as (pos & frame & url & Hpos & Hapi & -> & _).
    apply Forall_app. split; [done|]. constructor; [|constructor].
    right. exists frame. simpl. split; [|done].
    eapply elem_of_submseteq; [|exact Hsub]. by eapply list_elem_of_lookup_2.
  - by destruct H as (pos & frame & e & _ & _ & -> & _).
Qed.

(** A dispatched request is in flight until its [EditSettled] event. *)
Lemma run_settled_or_pending (j : nat) (order : list nat) : forall f,
  j ∈ (pending f).*1 \/ (exists ok, EditSettled j ok ∈ events f) ->
  j ∈ (pending (run f order)).*1 \/ (exists ok, EditSettled j ok ∈ events (run f order)).
Proof.
  induction order as [|k order IH]; intros f Hj; simpl; [done|].
  apply IH.
  destruct (settle_cases f k) as [[-> _]|[H|H]]; [done| |].
  - destruct H as (pos & frame & url & Hpos & _ & _ & _ & _ & -> & _ & ->).
    destruct Hj as [Hj|[ok Hj]]; [|by right; exists ok; apply elem_of_app; left].
    rewrite (delete_Permutation _ _ _ Hpos) in Hj. simpl in Hj.
    apply elem_of_cons in Hj as [->|Hj]; [|by left].
    right. exists true. apply elem_of_app. right. by apply list_elem_of_singleton.
  - destruct H as (pos & frame & e & Hpos & _ & _ & _ & -> & _ & ->).
    destruct Hj as [Hj|[ok Hj]]; [|by right; exists ok; apply elem_of_app; left].
    rewrite (delete_Permutation _ _ _ Hpos) in Hj. simpl in Hj.
    apply elem_of_cons in Hj as [->|Hj]; [|by left].
    right. exists false. apply elem_of_app. right. by apply list_elem_of_singleton.
Qed.

Lemma run_rejected_stays (order : list nat) : forall f,
  rejected f = true -> rejected (run f order) = true.
Proof.
  induction order as [|k order IH]; intros f Hf; simpl; [done|].
  apply IH. destruct (settle_cases f k) as [[Heq _]|[H|H]]; [by rewrite Heq| |].
  - destruct H as (pos & frame & url & Hpos & Hapi & Hall & Hm & Hst & Hpend & Hr & Hev).
    by rewrite Hr.
  - by destruct H as (pos & frame & e & Hpos & Hapi & Hall & Hst & Hpend & Hr & Hev).
Qed.

(** Until [Promise.all] rejects, a dispatched request is in flight or its
    result is in the shared array; once it has rejected it stays so. *)
Lemma run_entered_or_pending (j : nat) (order : list nat) : forall f,
  rejected (run f order) = false ->
  j ∈ (pending f).*1 \/ j ∈ index <$> allEditedFrames f ->
  rejected f = false
  /\ (j ∈ (pending (run f order)).*1 \/ j ∈ index <$> allEditedFrames (run f order)).
Proof.
  induction order as [|k order IH]; intros f Hrej Hj; simpl in *; [done|].
  destruct (settle_cases f k) as [[Heq _]|[H|H]].
  - rewrite Heq in *. by apply IH.
  - destruct H as (pos & frame & url & Hpos & _ & Hall & _ & _ & Hpend & Hr & _).
    destruct (IH (settle' f k) Hrej) as [Hr' Hfin].
    + rewrite Hpend, Hall, fmap_app. simpl.
      destruct Hj as [Hj|Hj]; [|by right; apply elem_of_app; left].
      rewrite (delete_Permutation _ _ _ Hpos) in Hj. simpl in Hj.
      apply elem_of_cons in Hj as [->|Hj]; [|by left].
      right. apply elem_of_app. right. by apply list_elem_of_singleton.
    + split; [congruence | done].
  - destruct H as (pos & frame & e & _ & _ & _ & _ & _ & Hr & _).
    rewrite (run_rejected_stays order _ Hr) in Hrej. discriminate.
Qed.

(** A request that completes is no longer in flight. *)
Lemma run_completes (j : nat) (order : list nat) : forall f,
  NoDup (pending f).*1 -> j ∈ order -> j ∉ (pending (run f order)).*1.
Proof.
  induction order as [|k order IH]; intros f Hnd Hj; [by apply elem_of_nil in Hj|].
  simpl.
  assert (Hnd' : NoDup (pending (settle' f k)).*1).
  { pose proof (settle_pending_sub f k) as Hsub.
    apply (fmap_submseteq fst) in Hsub.
    apply submseteq_Permutation in Hsub as [rest Hrest].
    rewrite Hrest in Hnd. by apply NoDup_app in Hnd as [? _]. }
  apply elem_of_cons in Hj as [->|Hj]; [|by apply IH].
  intros Hin.
  assert (Hin' : k ∈ (pending (settle' f k)).*1).
  { eapply elem_of_submseteq; [exact Hin|]. apply fmap_submseteq, run_pending_sub. }
  clear Hin. destruct (settle_cases f k) as [[Heq Hno]|[H|H]].
  - rewrite Heq in Hin'. done.
  - destruct H as (pos & frame & url & Hpos & _ & _ & _ & _ & Hpend & _).
    rewrite Hpend in Hin'. rewrite (delete_Permutation _ _ _ Hpos) in Hnd. simpl in Hnd.
    by apply NoDup_cons in Hnd as [? _].
  - destruct H as (pos & frame & e & Hpos & _ & _ & _ & Hpend & _).
    rewrite Hpend in Hin'. rewrite (delete_Permutation _ _ _ Hpos) in Hnd. simpl in Hnd.
    by apply NoDup_cons in Hnd as [? _].
Qed.

(** *** Rejection *)

(** Once [Promise.all] has rejected, the later completions touch neither
    the step, nor the error, nor the processing flag. *)
Lemma run_after_rejection (order : list nat) : forall f,
  rejected f = true ->
  currentStep (fanState (run f order)) = currentStep (fanState f)
  /\ isProcessing (fanState (run f order)) = isProcessing (fanState f)
  /\ error (fanState (run f order)) = error (fanState f).
Proof.
  induction order as [|k order IH]; intros f Hf; simpl; [done|].
  destruct (settle_cases f k) as [[Heq _]|[H|H]].
  - rewrite Heq. by apply IH.
  - destruct H as (pos & frame & url & Hpos & Hapi & Hall & Hm & [report Hst] & Hpend & Hr & Hev).
    destruct (IH (settle' f k)) as (-> & -> & ->); [congruence|]. by rewrite Hst.
  - destruct H as (pos & frame & e & Hpos & Hapi & Hall & Hst & Hpend & Hr & Hev).
    destruct (IH (settle' f k) Hr) as (-> & -> & ->). by rewrite Hst, Hf.
Qed.

(** Until then, the completions touch neither the step, nor the error,
    nor the processing flag either. *)
Lemma run_without_rejection (order : list nat) : forall f,
  rejected (run f order) = false ->
  currentStep (fanState (run f order)) = currentStep (fanState f)
  /\ isProcessing (fanState (run f order)) = isProcessing (fanState f)
  /\ error (fanState (run f order)) = error (fanState f).
Proof.
  induction order as [|k order IH]; intros f Hrej; simpl in *; [done|].
  destruct (settle_cases f k) as [[Heq _]|[H|H]].
  - rewrite Heq in *. by apply IH.
  - destruct H as (pos & frame & url & Hpos & Hapi & Hall & Hm & [report Hst] & Hpend & Hr & Hev).
    destruct (IH (settle' f k) Hrej) as (-> & -> & ->). by rewrite Hst.
  - destruct H as (pos & frame & e & Hpos & Hapi & Hall & Hst & Hpend & Hr & Hev).
    rewrite (run_rejected_stays order _ Hr) in Hrej. discriminate.
Qed.

(** The rejection is that of a dispatched frame whose edit failed, and it
    takes the component to the preview step with that frame's message. *)
Lemma run_rejection (order : list nat) : forall f,
  rejected f = false -> rejected (run f order) = true ->
  exists k frame e,
    (k, frame) ∈ pending f
    /\ editFrameApi env editPrompt [ExtractFramesRoute.base64 frame] = Thrown e
    /\ currentStep (fanState (run f order)) = preview_frames
    /\ isProcessing (fanState (run f order)) = false
    /\ error (fanState (run f order))
       = Some (lit "Frame " ++ toString (k + 1) ++ lit " processing failed: " ++ e).
Proof.
  induction order as [|k order IH]; intros f Hf Hrej; simpl in *; [congruence|].
  destruct (settle_cases f k) as [[Heq _]|[H|H]].
  - rewrite Heq in *. by apply IH.
  - destruct H as (pos & frame & url & Hpos & Hapi & Hall & Hm & Hst & Hpend & Hr & Hev).
    destruct (IH (settle' f k)) as (k' & frame' & e & Hin & Hrest); [congruence|done|].
    exists k', frame', e. split; [|done].
    eapply elem_of_submseteq; [exact Hin | apply settle_pending_sub].
  - destruct H as (pos & frame & e & Hpos & Hapi & Hall & Hst & Hpend & Hr & Hev).
    exists k, frame, e. split; [by eapply list_elem_of_lookup_2|]. split; [done|].
    destruct (run_after_rejection order (settle' f k) Hr) as (-> & -> & ->).
    by rewrite Hst, Hf.
Qed.

(** A failing request that completes rejects [Promise.all]. *)
Lemma run_rejects (k : nat) (frame : ExtractedFrame) (e : jsstring) (order : list nat) :
  forall f,
    NoDup (pending f).*1 ->
    (k, frame) ∈ pending f ->
    editFrameApi env editPrompt [ExtractFramesRoute.base64 frame] = Thrown e ->
    k ∈ order ->
    rejected (run f order) = true.
Proof.
  induction order as [|j order IH]; intros f Hnd Hin Hapi Hk; [by apply elem_of_nil in Hk|].
  simpl. destruct (rejected (settle' f j)) eqn:Hrej; [by apply run_rejected_stays|].
  assert (Hnd' : NoDup (pending (settle' f j)).*1).
  { pose proof (settle_pending_sub f j) as Hsub.
    apply (fmap_submseteq fst) in Hsub.
    apply submseteq_Permutation in Hsub as [rest Hrest].
    rewrite Hrest in Hnd. by apply NoDup_app in Hnd as [? _]. }
  destruct (settle_cases f j) as [[Heq Hno]|[H|H]].
  - apply elem_of_cons in Hk as [->|Hk].
    + exfalso. apply Hno. apply list_elem_of_fmap. by exists (j, frame).
    + rewrite Heq in *. by apply IH.
  - destruct H as (pos & frame' & url & Hpos & Hapi' & Hall & Hm & Hst & Hpend & Hr & Hev).
    assert (Hother : k <> j).
    { intros ->.
      assert (frame' = frame) as ->; [|congruence].
      eapply NoDup_keys_functional; [exact Hnd| |exact Hin].
      by eapply list_elem_of_lookup_2. }
    apply elem_of_cons in Hk as [->|Hk]; [done|].
    apply IH; [done| |done|done].
    rewrite Hpend. rewrite (delete_Permutation _ _ _ Hpos) in Hin.
    apply elem_of_cons in Hin as [Hin|Hin]; [congruence|done].
  - destruct H as (pos & frame' & e' & Hpos & Hapi' & Hall & Hst & Hpend & Hr & Hev).
    congruence.
Qed.

(** A dispatched request is in flight, or its result is in the shared
    array, or its edit failed. *)
Lemma run_entered_or_failed (j : nat) (order : list nat) : forall f,
  j ∈ (pending f).*1 \/ j ∈ index <$> allEditedFrames f ->
  j ∈ (pending (run f order)).*1
  \/ j ∈ index <$> allEditedFrames (run f order)
  \/ (exists frame e,
        (j, frame) ∈ pending f
        /\ editFrameApi env editPrompt [ExtractFramesRoute.base64 frame] = Thrown e).
Proof.
  induction order as [|k order IH]; intros f Hj; simpl; [tauto|].
  destruct (settle_cases f k) as [[Heq _]|[H|H]].
  - rewrite Heq. by apply IH.
  - destruct H as (pos & frame & url & Hpos & Hapi & Hall & Hm & Hst & Hpend & Hr & Hev).
    destruct (IH (settle' f k)) as [Hin|[Hin|(frame' & e & Hin & Hfail)]].
    + rewrite Hpend, Hall, fmap_app. simpl.
      destruct Hj as [Hj|Hj]; [|by right; apply elem_of_app; left].
      rewrite (delete_Permutation _ _ _ Hpos) in Hj. simpl in Hj.
      apply elem_of_cons in Hj as [->|Hj]; [|by left].
      right. apply elem_of_app. right. by apply list_elem_of_singleton.
    + by left.
    + by right; left.
    + right; right. exists frame', e. split; [|done].
      eapply elem_of_submseteq; [exact Hin | apply settle_pending_sub].
  - destruct H as (pos & frame & e & Hpos & Hapi & Hall & Hst & Hpend & Hr & Hev).
    destruct Hj as [Hj|Hj].
    + rewrite (delete_Permutation _ _ _ Hpos) in Hj. simpl in Hj.
      apply elem_of_cons in Hj as [->|Hj].
      * right; right. exists frame, e. split; [by eapply list_elem_of_lookup_2|done].
      * destruct (IH (settle' f k)) as [Hin|[Hin|(frame' & e' & Hin & Hfail)]].
        -- left. by rewrite Hpend.
        -- by left.
        -- by right; left.
        -- right; right. exists frame', e'. split; [|done].
           eapply elem_of_submseteq; [exact Hin | apply settle_pending_sub].
    + destruct (IH (settle' f k)) as [Hin|[Hin|(frame' & e' & Hin & Hfail)]].
      * right. by rewrite Hall.
      * by left.
      * by right; left.
      * right; right. exists frame', e'. split; [|done].
        eapply elem_of_submseteq; [exact Hin | apply settle_pending_sub].
Qed.

End FanOut.

(** ** Traces *)


(** ** Reassembly with retry *)

Section Reassembly.
Import VideoEditor.

Variable env : Env.

(** The three runs the retry loop can take. *)
Lemma retryLoop_cases (frames : list VideoProcessor.EditedFrame) :
  (exists video,
     reassembleVideo env 1 frames = Ok video
     /\ retryLoop env frames maxRetries 1
        = (Assembled video, [ReassembleRequested 1 frames; ReassembleSettled 1 true]))
  \/ (exists e video,
        reassembleVideo env 1 frames = Thrown e
        /\ reassembleVideo env 2 frames = Ok video
        /\ retryLoop env frames maxRetries 1
           = (Assembled video,
              [ReassembleRequested 1 frames; ReassembleSettled 1 false; Waited 1000;
               ReassembleRequested 2 frames; ReassembleSettled 2 true]))
  \/ (exists e1 e2,
        reassembleVideo env 1 frames = Thrown e1
        /\ reassembleVideo env 2 frames = Thrown e2
        /\ retryLoop env frames maxRetries 1
           = (GaveUp,
              [ReassembleRequested 1 frames; ReassembleSettled 1 false; Waited 1000;
               ReassembleRequested 2 frames; ReassembleSettled 2 false])).
Proof.
  unfold maxRetries. cbn [retryLoop].
  destruct (reassembleVideo env 1 frames) as [video|e1] eqn:H1.
  - left. by exists video.
  - right. destruct (reassembleVideo env 2 frames) as [video|e2] eqn:H2.
    + left. by exists e1, video.
    + right. by exists e1, e2.
Qed.

(** The state in which the automatic flow gives up. *)
Local Abbreviation fallback s :=
  (finally
     (setIsProcessing false
        (setCurrentStep editing
           (setProgress
              (allProcessed (length (extractedFrames s))
                 (lit "Automatic assembly failed. Please use manual assembly button."))
              (setCurrentStep reassembling s))))).

Local Abbreviation finished video s :=
  (finally
     (setCurrentStep VideoEditor.complete
        (setEditedVideoUrl (Some (createObjectURL env video))
           (setCurrentStep reassembling s)))).

Local Abbreviation probes all := ((fun frame => UrlProbed (editedUrl frame)) <$> take 3 all).

Lemma reassemblePhase_cases (all : list EditedFrame) (s : State) :
  (exists video attempts,
     reassemblePhase env all s
       = (finished video s, probes all ++ attempts ++ [OnComplete video])
     /\ (attempts = [ReassembleRequested 1 (forReassembly all); ReassembleSettled 1 true]
         \/ attempts = [ReassembleRequested 1 (forReassembly all); ReassembleSettled 1 false;
                        Waited 1000;
                        ReassembleRequested 2 (forReassembly all); ReassembleSettled 2 true]))
  \/ (exists e1 e2,
        reassembleVideo env 1 (forReassembly all) = Thrown e1
        /\ reassembleVideo env 2 (forReassembly all) = Thrown e2
        /\ reassemblePhase env all s
           = (fallback s,
              probes all ++
                [ReassembleRequested 1 (forReassembly all); ReassembleSettled 1 false;
                 Waited 1000;
                 ReassembleRequested 2 (forReassembly all); ReassembleSettled 2 false])).
Proof.
  unfold reassemblePhase.
  destruct (retryLoop_cases (forReassembly all))
    as [(video & _ & ->)|[(e & video & _ & _ & ->)|(e1 & e2 & H1 & H2 & ->)]].
  - left. exists video. eexists. split; [reflexivity|]. by left.
  - left. exists video. eexists. split; [reflexivity|]. by right.
  - right. by exists e1, e2.
Qed.

(** What the reassembly phase may emit: probes, at most two requests
    for the frames it was given, a wait between them, and [onComplete]. *)
Lemma reassemblePhase_events (all : list EditedFrame) (s : State) :
  Forall (fun ev =>
            (exists url, ev = UrlProbed url)
            \/ (exists a, ev = ReassembleRequested a (forReassembly all) /\ (1 <= a <= 2)%nat)
            \/ (exists a ok, ev = ReassembleSettled a ok)
            \/ ev = Waited 1000
            \/ (exists video, ev = OnComplete video))
         (reassemblePhase env all s).2.
Proof.
  assert (Hprobes : Forall (fun ev =>
            (exists url, ev = UrlProbed url)
            \/ (exists a, ev = ReassembleRequested a (forReassembly all) /\ (1 <= a <= 2)%nat)
            \/ (exists a ok, ev = ReassembleSettled a ok)
            \/ ev = Waited 1000
            \/ (exists video, ev = OnComplete video)) (probes all)).
  { apply Forall_fmap, Forall_forall. intros frame _. left. by eexists. }
  destruct (reassemblePhase_cases all s)
    as [(video & attempts & -> & [->| ->])|(e1 & e2 & _ & _ & ->)]; cbn [snd];
    apply Forall_app; (split; [exact Hprobes|]);
    repeat first
      [ apply Forall_nil_2
      | apply Forall_cons; split
      | apply Forall_app; split ];
    eauto 10 with lia.
Qed.

(** The reassembly phase leaves the frames alone. *)
Lemma reassemblePhase_keeps_frames (all : list EditedFrame) (s : State) :
  editedFrames (reassemblePhase env all s).1 = editedFrames s
  /\ extractedFrames (reassemblePhase env all s).1 = extractedFrames s.
Proof.
  by destruct (reassemblePhase_cases all s)
    as [(video & attempts & -> & _)|(e1 & e2 & _ & _ & ->)].
Qed.

End Reassembly.

(** ** The frames dispatched by the fan-out *)

Lemma dispatch_lookup (remaining : list VideoEditor.ExtractedFrame) (i : nat) :
  VideoEditor.dispatch remaining !! i = (fun frame => ((i + 1)%nat, frame)) <$> remaining !! i.
Proof. unfold VideoEditor.dispatch. by rewrite list_lookup_imap. Qed.

Lemma elem_of_dispatch (first : VideoEditor.ExtractedFrame)
    (remaining : list VideoEditor.ExtractedFrame) (k : nat) (frame : VideoEditor.ExtractedFrame) :
  (k, frame) ∈ VideoEditor.dispatch remaining <->
  (1 <= k)%nat /\ (first :: remaining) !! k = Some frame.
Proof.
  rewrite list_elem_of_lookup. split.
  - intros [i Hi]. rewrite dispatch_lookup in Hi.
    destruct (remaining !! i) as [fr|] eqn:Hfr; [|discriminate].
    injection Hi as <- <-. split; [lia|]. by rewrite Nat.add_1_r.
  - intros [Hk Hfr]. destruct k as [|k]; [lia|]. exists k.
    rewrite dispatch_lookup. simpl in Hfr. rewrite Hfr. simpl. by rewrite Nat.add_1_r.
Qed.

Lemma dispatch_keys (remaining : list VideoEditor.ExtractedFrame) :
  (VideoEditor.dispatch remaining).*1 = seq 1 (length remaining).
Proof.
  apply list_eq. intros i. rewrite list_lookup_fmap, dispatch_lookup.
  destruct (remaining !! i) as [fr|] eqn:Hfr; simpl.
  - apply lookup_lt_Some in Hfr. rewrite lookup_seq_lt by done. f_equal. lia.
  - apply lookup_ge_None in Hfr. by rewrite lookup_seq_ge.
Qed.

(** ** Phase 3 and the hand-over to reassembly *)

Section Automatic.
Import VideoEditor.

Variable env : Env.
Variables originalPrompt diff : jsstring.
Variable n : nat.
Variable first : EditedFrame.
Variable firstFrame : ExtractedFrame.
Variable remaining : list ExtractedFrame.
Variable before : list Event.
Variable s : State.

Hypothesis first_index : index first = 0%nat.
Hypothesis first_mirrored : editedFrames s = [first].

Local Abbreviation editPrompt := (PromptSynthesis.diffBasedPrompt diff originalPrompt).

(** The fan-out when all requests have been issued. *)
Local Abbreviation start :=
  {| fanState := s;
     allEditedFrames := [first];
     completedFrames := 0;
     pending := dispatch remaining;
     rejected := false;
     events := before ++ requests originalPrompt diff (dispatch remaining) |}.

Local Abbreviation fan := (fanOut env originalPrompt diff n start).

Local Abbreviation outcome :=
  (fanOutAndReassemble env originalPrompt diff n first remaining before s).

Local Abbreviation announced :=
  (setProgress (allProcessed n (lit "All frames processed! Preparing for video assembly..."))
     (fanState fan)).

(** The ways phase 3 can end. *)
Lemma fanOutAndReassemble_cases :
  (remaining = []
   /\ outcome = ((reassemblePhase env [first] s).1, before ++ (reassemblePhase env [first] s).2))
  \/ (remaining <> [] /\ (rejected fan = true \/ pending fan <> [])
      /\ outcome = (fanState fan, events fan))
  \/ (remaining <> [] /\ rejected fan = false /\ pending fan = []
      /\ outcome = ((reassemblePhase env (allEditedFrames fan) announced).1,
                    events fan ++ (reassemblePhase env (allEditedFrames fan) announced).2)).
Proof.
  unfold fanOutAndReassemble. destruct remaining as [|frame rest] eqn:Hrem.
  - left. split; [done|]. by destruct (reassemblePhase env [first] s).
  - right. cbv zeta. rewrite <- Hrem.
    assert (Hne : remaining <> []) by (by rewrite Hrem).
    destruct (rejected fan) eqn:Hrej.
    + left. split; [done|]. split; [by left|done].
    + destruct (pending fan) as [|p ps] eqn:Hpend.
      * right. repeat split; try done.
        by destruct (reassemblePhase env (allEditedFrames fan) _).
      * left. split; [done|]. split; [by right|done].
Qed.

Lemma fan_keys : index <$> allEditedFrames fan ⊆+ seq 0 (S (length remaining)).
Proof.
  pose proof (run_keys env originalPrompt diff n (completionOrder env) start) as H.
  cbn [allEditedFrames pending fmap list_fmap] in H.
  rewrite first_index, dispatch_keys in H.
  etrans; [|exact H]. by apply submseteq_inserts_r.
Qed.

Lemma fan_indices_unique : NoDup (index <$> allEditedFrames fan).
Proof.
  destruct (submseteq_Permutation _ _ fan_keys) as [rest Hrest].
  pose proof (NoDup_seq 0 (S (length remaining))) as Hnd.
  rewrite Hrest in Hnd. by apply NoDup_app in Hnd as [? _].
Qed.

Lemma fan_indices_in_range (k : nat) :
  k ∈ index <$> allEditedFrames fan -> (k < S (length remaining))%nat.
Proof.
  intros Hk. eapply elem_of_submseteq in Hk; [|apply fan_keys].
  apply elem_of_seq in Hk. lia.
Qed.

Lemma fan_mirrors : editedFrames (fanState fan) = allEditedFrames fan.
Proof. by apply run_mirrors. Qed.

Lemma fan_starts_with_first : exists rest, allEditedFrames fan = first :: rest.
Proof.
  destruct (run_all_extends env originalPrompt diff n (completionOrder env) start) as [new Hnew].
  exists new. exact Hnew.
Qed.

Lemma fan_provenance :
  Forall (fun e => e = first \/ exists frame,
            (1 <= index e)%nat
            /\ (firstFrame :: remaining) !! index e = Some frame
            /\ originalUrl e = ExtractFramesRoute.base64 frame
            /\ editFrameApi env editPrompt [ExtractFramesRoute.base64 frame] = Ok (editedUrl e))
         (allEditedFrames fan).
Proof.
  pose proof (run_provenance env originalPrompt diff n [first] (dispatch remaining)
                (completionOrder env) start) as H.
  assert (Hstart : Forall (fun e => e ∈ [first] \/ exists frame,
            (index e, frame) ∈ dispatch remaining
            /\ originalUrl e = ExtractFramesRoute.base64 frame
            /\ editFrameApi env editPrompt [ExtractFramesRoute.base64 frame] = Ok (editedUrl e))
         (allEditedFrames start)).
  { constructor; [|constructor]. left. by apply list_elem_of_singleton. }
  specialize (H (reflexivity _) Hstart).
  eapply Forall_impl; [exact H|].
  intros e [He|(frame & Hin & Ho & Hapi)].
  - left. by apply list_elem_of_singleton in He.
  - right. exists frame. apply (elem_of_dispatch firstFrame) in Hin as [? ?]. done.
Qed.

Lemma fan_events :
  exists settles,
    events fan = before ++ requests originalPrompt diff (dispatch remaining) ++ settles
    /\ Forall (fun ev => exists j ok, ev = EditSettled j ok) settles.
Proof.
  destruct (run_events env originalPrompt diff n (completionOrder env) start) as (new & Hnew & H).
  exists new. split; [|done]. unfold fanOut. rewrite Hnew. simpl. by rewrite <- app_assoc.
Qed.

(** When [await Promise.all] returns, every dispatched request has its
    [EditSettled] event and its result is in the shared array. *)
Lemma fan_all_settled (k : nat) :
  pending fan = [] -> (1 <= k < S (length remaining))%nat ->
  exists ok, EditSettled k ok ∈ events fan.
Proof.
  unfold fanOut. intros Hpend Hk.
  destruct (run_settled_or_pending env originalPrompt diff n k (completionOrder env) start)
    as [Hin|Hdone]; [| |done].
  - left. simpl. rewrite dispatch_keys. apply elem_of_seq. lia.
  - rewrite Hpend in Hin. by apply elem_of_nil in Hin.
Qed.

Lemma fan_all_entered :
  rejected fan = false -> pending fan = [] ->
  index <$> allEditedFrames fan ≡ₚ seq 0 (S (length remaining)).
Proof.
  intros Hrej Hpend. apply NoDup_Permutation; [apply fan_indices_unique|apply NoDup_seq|].
  intros k. split.
  - intros Hk. apply elem_of_seq. apply fan_indices_in_range in Hk. lia.
  - intros Hk. apply elem_of_seq in Hk.
    destruct (decide (k = 0%nat)) as [->|Hne].
    + destruct fan_starts_with_first as [rest ->]. simpl. rewrite first_index. by left.
    + unfold fanOut in *.
      destruct (run_entered_or_pending env originalPrompt diff n k (completionOrder env) start Hrej)
        as [_ [Hin|Hin]]; [| |done].
      * left. simpl. rewrite dispatch_keys. apply elem_of_seq. lia.
      * rewrite Hpend in Hin. by apply elem_of_nil in Hin.
Qed.

(** The edited frames held by the component when phase 3 (and the
    reassembly, if it was reached) is over. *)
Lemma outcome_frames :
  exists rest,
    editedFrames outcome.1 = first :: rest
    /\ NoDup (index <$> editedFrames outcome.1)
    /\ (forall k, k ∈ index <$> editedFrames outcome.1 -> (k < S (length remaining))%nat)
    /\ Forall (fun e => e = first \/ exists frame,
                 (1 <= index e)%nat
                 /\ (firstFrame :: remaining) !! index e = Some frame
                 /\ originalUrl e = ExtractFramesRoute.base64 frame
                 /\ editFrameApi env editPrompt [ExtractFramesRoute.base64 frame]
                    = Ok (editedUrl e))
              (editedFrames outcome.1).
Proof.
  assert (Hfan : exists rest,
    allEditedFrames fan = first :: rest
    /\ NoDup (index <$> allEditedFrames fan)
    /\ (forall k, k ∈ index <$> allEditedFrames fan -> (k < S (length remaining))%nat)
    /\ Forall (fun e => e = first \/ exists frame,
                 (1 <= index e)%nat
                 /\ (firstFrame :: remaining) !! index e = Some frame
                 /\ originalUrl e = ExtractFramesRoute.base64 frame
                 /\ editFrameApi env editPrompt [ExtractFramesRoute.base64 frame]
                    = Ok (editedUrl e))
              (allEditedFrames fan)).
  { destruct fan_starts_with_first as [rest Hrest]. exists rest.
    split; [done|]. split; [apply fan_indices_unique|].
    split; [apply fan_indices_in_range | apply fan_provenance]. }
  destruct fanOutAndReassemble_cases as [[Hrem ->]|[(_ & _ & ->)|(_ & _ & _ & ->)]]; cbn [fst].
  - destruct (reassemblePhase_keeps_frames env [first] s) as [-> _].
    rewrite first_mirrored. exists []. split; [done|]. simpl. rewrite first_index.
    split; [apply NoDup_singleton|]. split.
    + intros k Hk. apply list_elem_of_singleton in Hk. lia.
    + constructor; [by left|constructor].
  - by rewrite fan_mirrors.
  - destruct (reassemblePhase_keeps_frames env (allEditedFrames fan) announced) as [-> _].
    cbn [editedFrames setProgress]. by rewrite fan_mirrors.
Qed.

(** The shape of the trace of phase 3: the requests of the fan-out, the
    completions, then what the reassembly phase emits. A reassembly
    request is only there when every dispatched edit has succeeded: it
    carries the edited frames of all indices, and every dispatched request
    has settled before. *)
Lemma outcome_trace :
  exists settles phase,
    outcome.2 = (before ++ requests originalPrompt diff (dispatch remaining) ++ settles) ++ phase
    /\ Forall (fun ev => exists j ok, ev = EditSettled j ok) settles
    /\ Forall (fun ev =>
                 (exists url, ev = UrlProbed url)
                 \/ (exists a, ev = ReassembleRequested a (forReassembly (editedFrames outcome.1))
                                /\ (1 <= a <= 2)%nat)
                 \/ (exists a ok, ev = ReassembleSettled a ok)
                 \/ ev = Waited 1000
                 \/ (exists video, ev = OnComplete video)) phase
    /\ (phase <> [] ->
        index <$> editedFrames outcome.1 ≡ₚ seq 0 (S (length remaining))
        /\ forall k, (1 <= k < S (length remaining))%nat ->
             exists ok, EditSettled k ok
                          ∈ before ++ requests originalPrompt diff (dispatch remaining) ++ settles).
Proof.
  destruct fanOutAndReassemble_cases
    as [[Hrem ->]|[(_ & _ & ->)|(_ & Hrej & Hpend & ->)]]; cbn [fst snd].
  - exists [], (reassemblePhase env [first] s).2.
    rewrite Hrem. cbn [dispatch imap requests fmap list_fmap length]. rewrite !app_nil_r.
    split; [done|]. split; [done|].
    destruct (reassemblePhase_keeps_frames env [first] s) as [-> _]. rewrite first_mirrored.
    split; [apply reassemblePhase_events|].
    intros _. simpl. rewrite first_index. split; [done|]. intros k Hk. lia.
  - destruct fan_events as (settles & -> & Hsettles).
    exists settles, []. rewrite app_nil_r. split; [done|]. split; [done|]. split; [done|].
    by intros [].
  - destruct fan_events as (settles & Hev & Hsettles).
    exists settles, (reassemblePhase env (allEditedFrames fan) announced).2.
    rewrite Hev. split; [done|]. split; [done|].
    destruct (reassemblePhase_keeps_frames env (allEditedFrames fan) announced) as [-> _].
    cbn [editedFrames setProgress]. rewrite fan_mirrors.
    split; [apply reassemblePhase_events|].
    intros _. split; [by apply fan_all_entered|].
    intros k Hk. rewrite <- Hev. by apply fan_all_settled.
Qed.

Hypothesis no_error : error s = None.

(** Phase 3 either stops before the reassembly, or hands the edited
    frames of all indices to the reassembly phase, with no error set. *)
Lemma outcome_summary :
  exists settles,
    Forall (fun ev => exists j ok, ev = EditSettled j ok) settles
    /\ ((outcome.2 = before ++ requests originalPrompt diff (dispatch remaining) ++ settles
         /\ outcome.1 = fanState fan
         /\ remaining <> [] /\ (rejected fan = true \/ pending fan <> []))
        \/ (exists st,
              outcome = ((reassemblePhase env (editedFrames st) st).1,
                         (before ++ requests originalPrompt diff (dispatch remaining) ++ settles)
                           ++ (reassemblePhase env (editedFrames st) st).2)
              /\ error st = None
              /\ extractedFrames st = extractedFrames s
              /\ index <$> editedFrames st ≡ₚ seq 0 (S (length remaining))
              /\ editedFrames st <> [])).
Proof.
  destruct fanOutAndReassemble_cases
    as [[Hrem ->]|[(Hne & Hstop & ->)|(_ & Hrej & Hpend & ->)]].
  - exists []. split; [done|]. right. exists s.
    rewrite Hrem, first_mirrored. cbn [dispatch imap requests fmap list_fmap length].
    rewrite !app_nil_r. repeat split; try done.
    simpl. by rewrite first_index.
  - destruct fan_events as (settles & Hev & Hsettles).
    exists settles. split; [done|]. left. by rewrite Hev.
  - destruct fan_events as (settles & Hev & Hsettles).
    exists settles. split; [done|]. right. exists announced.
    assert (Hed : editedFrames announced = allEditedFrames fan)
      by (cbn [editedFrames setProgress]; apply fan_mirrors).
    rewrite Hed, Hev. split; [done|]. split; [|split; [|split]].
    + cbn [error setProgress]. unfold fanOut in *.
      destruct (run_without_rejection env originalPrompt diff n (completionOrder env) start Hrej)
        as (_ & _ & ->). exact no_error.
    + cbn [extractedFrames setProgress]. unfold fanOut. by rewrite run_extracted.
    + by apply fan_all_entered.
    + destruct fan_starts_with_first as [rest ->]. done.
Qed.

(** Exactly one dispatched edit fails and every request completes. *)
Lemma outcome_partial_failure (bad : nat) (badFrame : ExtractedFrame) (e : jsstring) :
  (1 <= bad)%nat ->
  (firstFrame :: remaining) !! bad = Some badFrame ->
  editFrameApi env editPrompt [ExtractFramesRoute.base64 badFrame] = Thrown e ->
  (forall k frame,
     (1 <= k)%nat -> k <> bad -> (firstFrame :: remaining) !! k = Some frame ->
     exists u, editFrameApi env editPrompt [ExtractFramesRoute.base64 frame] = Ok u) ->
  (forall k, (1 <= k < S (length remaining))%nat -> k ∈ completionOrder env) ->
  (index <$> editedFrames outcome.1) ++ [bad] ≡ₚ seq 0 (S (length remaining))
  /\ (exists rest, editedFrames outcome.1 = first :: rest)
  /\ (exists settles,
        outcome.2 = before ++ requests originalPrompt diff (dispatch remaining) ++ settles
        /\ Forall (fun ev => exists j ok, ev = EditSettled j ok) settles)
  /\ currentStep outcome.1 = preview_frames
  /\ isProcessing outcome.1 = false
  /\ error outcome.1
     = Some (lit "Frame " ++ toString (bad + 1) ++ lit " processing failed: " ++ e)
  /\ extractedFrames outcome.1 = extractedFrames s.
Proof.
  intros Hbad Hframe Hfail Hothers Hcomplete.
  assert (Hrange : (bad < S (length remaining))%nat)
    by (apply lookup_lt_Some in Hframe; simpl in Hframe; lia).
  assert (Hdispatched : (bad, badFrame) ∈ dispatch remaining)
    by (by apply (elem_of_dispatch firstFrame)).
  assert (Hnd : NoDup (pending start).*1).
  { simpl. rewrite dispatch_keys. apply NoDup_seq. }
  assert (Hrej : rejected fan = true).
  { unfold fanOut. eapply run_rejects; [exact Hnd|exact Hdispatched|exact Hfail|].
    apply Hcomplete. lia. }
  assert (Hpending : pending fan = []).
  { destruct (pending fan) as [|[k frame] rest] eqn:Hp; [done|exfalso].
    assert (Hk : k ∈ (pending fan).*1) by (rewrite Hp; simpl; by left).
    assert (Hin : k ∈ (pending start).*1).
    { eapply elem_of_submseteq; [exact Hk|]. apply fmap_submseteq.
      unfold fanOut. apply run_pending_sub. }
    simpl in Hin. rewrite dispatch_keys in Hin. apply elem_of_seq in Hin.
    unfold fanOut in Hk.
    eapply run_completes; [exact Hnd| |exact Hk]. apply Hcomplete. lia. }
  assert (Hout : outcome = (fanState fan, events fan)).
  { destruct fanOutAndReassemble_cases
      as [[Hrem _]|[(_ & _ & Heq)|(_ & Hno & _ & _)]]; [|done|congruence].
    rewrite Hrem in Hdispatched. by apply elem_of_nil in Hdispatched. }
  rewrite Hout. cbn [fst snd]. rewrite fan_mirrors.
  split; [|split; [apply fan_starts_with_first|split; [apply fan_events|]]].
  - apply NoDup_Permutation.
    + apply NoDup_app. split; [apply fan_indices_unique|]. split; [|apply NoDup_singleton].
      intros k Hk Hkbad. apply list_elem_of_singleton in Hkbad as ->.
      apply list_elem_of_fmap in Hk as (entry & Hidx & Hentry).
      pose proof fan_provenance as Hprov. rewrite Forall_forall in Hprov.
      destruct (Hprov _ Hentry) as [->|(frame & _ & Hlook & _ & Hok)].
      * rewrite first_index in Hidx. lia.
      * rewrite <- Hidx in Hlook. congruence.
    + apply NoDup_seq.
    + intros k. rewrite elem_of_app, list_elem_of_singleton, elem_of_seq. split.
      * intros [Hk| ->]; [|lia]. apply fan_indices_in_range in Hk. lia.
      * intros [_ Hk]. destruct (decide (k = bad)) as [->|Hne]; [by right|left].
        destruct (decide (k = 0%nat)) as [->|Hpos].
        { destruct fan_starts_with_first as [rest ->]. simpl. rewrite first_index. by left. }
        unfold fanOut in *.
        destruct (run_entered_or_failed env originalPrompt diff n k (completionOrder env) start)
          as [Hin|[Hin|(frame & e' & Hin & Hthrown)]].
        -- left. simpl. rewrite dispatch_keys. apply elem_of_seq. lia.
        -- rewrite Hpending in Hin. by apply elem_of_nil in Hin.
        -- done.
        -- exfalso. simpl in Hin. apply (elem_of_dispatch firstFrame) in Hin as [Hk1 Hlook].
           destruct (Hothers k frame Hk1 Hne Hlook) as [u Hu]. congruence.
  - unfold fanOut in *.
    destruct (run_rejection env originalPrompt diff n (completionOrder env) start eq_refl Hrej)
      as (k & frame & e' & Hin & Hthrown & Hstep & Hproc & Herror).
    simpl in Hin. apply (elem_of_dispatch firstFrame) in Hin as [Hk1 Hlook].
    assert (k = bad) as ->.
    { destruct (decide (k = bad)) as [|Hne]; [done|exfalso].
      destruct (Hothers k frame Hk1 Hne Hlook) as [u Hu]. congruence. }
    assert (frame = badFrame) as -> by congruence.
    assert (e' = e) as -> by congruence.
    split; [done|]. split; [done|]. split; [done|]. by rewrite run_extracted.
Qed.

End Automatic.

(** ** [handleProcessFrames] as a whole *)

Section Session.
Import VideoEditor.

Variable env : Env.
Variable s : State.
Variable firstFrame : ExtractedFrame.
Variable remaining : list ExtractedFrame.

Hypothesis extracted : extractedFrames s = firstFrame :: remaining.

Local Abbreviation n := (length (extractedFrames s)).
Local Abbreviation image := (ExtractFramesRoute.base64 firstFrame).
Local Abbreviation asked :=
  (EditRequested 0 (PromptSynthesis.firstFramePrompt (prompt s)) image).
Local Abbreviation firstEdited url := {| index := 0; originalUrl := image; editedUrl := url |}.

(** The three ways the handler can go after its safety check. *)
Lemma handleProcessFrames_cases :
  (exists e,
     editFrameApi env (PromptSynthesis.firstFramePrompt (prompt s)) [image] = Thrown e
     /\ handleProcessFrames env s
        = (catchFinally (lit "First frame editing failed: " ++ e) (started n s),
           [asked; EditSettled 0 false]))
  \/ (exists url e,
        editFrameApi env (PromptSynthesis.firstFramePrompt (prompt s)) [image] = Ok url
        /\ analyzeDiffApi env (prompt s) image url = Thrown e
        /\ handleProcessFrames env s
           = (catchFinally (lit "Diff analysis failed: " ++ e)
                (analyzing n (firstEdited url) (started n s)),
              [asked; EditSettled 0 true; DiffRequested; DiffSettled false]))
  \/ (exists url diff,
        editFrameApi env (PromptSynthesis.firstFramePrompt (prompt s)) [image] = Ok url
        /\ analyzeDiffApi env (prompt s) image url = Ok diff
        /\ handleProcessFrames env s
           = fanOutAndReassemble env (prompt s) diff n (firstEdited url) remaining
               [asked; EditSettled 0 true; DiffRequested; DiffSettled true]
               (setDetailedDiff diff (analyzing n (firstEdited url) (started n s)))).
Proof.
  unfold handleProcessFrames. rewrite extracted. cbv zeta.
  destruct (editFrameApi env _ [image]) as [url|e]; [|left; by exists e].
  right. destruct (analyzeDiffApi env (prompt s) image url) as [diff|e] eqn:Hdiff.
  - right. exists url, diff. by rewrite Hdiff.
  - left. exists url, e. by rewrite Hdiff.
Qed.

End Session.

(** ** C9: the indices of the edited frames *)



(** ** C8: the order of the phases *)





(** ** C1: what is handed to reassembly *)

(** Nothing before the reassembly phase is a reassembly request. *)
Lemma reassembly_not_in_front (p img originalPrompt diff : jsstring)
    (d : list (nat * VideoEditor.ExtractedFrame)) (settles : list VideoEditor.Event)
    (attempt : nat) (frames : list VideoProcessor.EditedFrame) :
  Forall (fun ev => exists j ok, ev = VideoEditor.EditSettled j ok) settles ->
  VideoEditor.ReassembleRequested attempt frames
    ∉ [VideoEditor.EditRequested 0 p img; VideoEditor.EditSettled 0 true;
       VideoEditor.DiffRequested; VideoEditor.DiffSettled true]
      ++ VideoEditor.requests originalPrompt diff d ++ settles.
Proof.
  intros Hsettles Hin. apply elem_of_app in Hin as [Hin|Hin].
  - repeat (apply elem_of_cons in Hin as [Hin|Hin]; [discriminate|]).
    by apply elem_of_nil in Hin.
  - apply elem_of_app in Hin as [Hin|Hin].
    + unfold VideoEditor.requests in Hin.
      apply list_elem_of_fmap in Hin as (q & Hq & _). discriminate.
    + rewrite Forall_forall in Hsettles. by destruct (Hsettles _ Hin) as (j & ok & ?).
Qed.

(** The route names the staged files by position in the request. *)
Lemma stageAll_paths (server : ReassembleRoute.Env) (frames : list ReassembleRoute.Frame) :
  forall i fs fs' paths,
    ReassembleRoute.stageAll server i frames fs = Ok (fs', paths) ->
    paths = ReassembleRoute.framePath server <$> seq i (length frames).
Proof.
  induction frames as [|f frames IH]; intros i fs fs' paths; cbn [ReassembleRoute.stageAll].
  - by intros [= _ <-].
  - destruct (ReassembleRoute.frameBuffer server f i) as [buf|]; [|discriminate].
    destruct (Fs.writeFile _ buf fs) as [e|fs1]; [discriminate|].
    destruct (ReassembleRoute.stageAll server (S i) frames fs1) as [[fs2 ps]|] eqn:Hrest;
      [|discriminate].
    intros [= _ <-]. simpl. f_equal. by eapply IH.
Qed.




(** ** C4: bounded retry and fallback to manual assembly *)

Lemma attempts_none (trace : list VideoEditor.Event) :
  Forall (fun ev => VideoEditor.isAttempt ev = false) trace ->
  VideoEditor.reassemblyAttempts trace = [].
Proof.
  unfold VideoEditor.reassemblyAttempts. induction 1 as [|ev trace Hev _ IH]; [done|].
  rewrite filter_cons. destruct (decide _) as [Hyes|_]; [congruence|done].
Qed.

Lemma attempts_app (l1 l2 : list VideoEditor.Event) :
  VideoEditor.reassemblyAttempts (l1 ++ l2)
  = VideoEditor.reassemblyAttempts l1 ++ VideoEditor.reassemblyAttempts l2.
Proof. apply filter_app. Qed.

(** Nothing before the reassembly phase is an attempt. *)
Lemma attempts_of_front (p img originalPrompt diff : jsstring)
    (d : list (nat * VideoEditor.ExtractedFrame)) (settles : list VideoEditor.Event) :
  Forall (fun ev => exists j ok, ev = VideoEditor.EditSettled j ok) settles ->
  Forall (fun ev => VideoEditor.isAttempt ev = false)
    ([VideoEditor.EditRequested 0 p img; VideoEditor.EditSettled 0 true;
      VideoEditor.DiffRequested; VideoEditor.DiffSettled true]
       ++ VideoEditor.requests originalPrompt diff d ++ settles).
Proof.
  intros Hsettles. apply Forall_app. split; [by repeat constructor|].
  apply Forall_app. split.
  - unfold VideoEditor.requests. apply Forall_fmap, Forall_forall. by intros q _.
  - eapply Forall_impl; [exact Hsettles|]. by intros ev (j & ok & ->).
Qed.

Lemma attempts_of_probes (all : list VideoEditor.EditedFrame) :
  Forall (fun ev => VideoEditor.isAttempt ev = false)
    ((fun frame => VideoEditor.UrlProbed (VideoEditor.editedUrl frame)) <$> take 3 all).
Proof. apply Forall_fmap, Forall_forall. by intros q _. Qed.

(** What pressing "Assemble Video Now" does in a state that holds edited
    frames. *)
Lemma manual_assembly (env : VideoEditor.Env) (attempt : nat) (st : VideoEditor.State) :
  VideoEditor.editedFrames st <> [] ->
  exists ok,
    (VideoEditor.handleManualAssemble env attempt st).2
    = [VideoEditor.ReassembleRequested attempt
         (VideoEditor.forReassembly (VideoEditor.editedFrames st));
       VideoEditor.ReassembleSettled attempt ok]
    /\ VideoEditor.editedFrames (VideoEditor.handleManualAssemble env attempt st).1
       = VideoEditor.editedFrames st
    /\ VideoEditor.isProcessing (VideoEditor.handleManualAssemble env attempt st).1 = false
    /\ VideoEditor.currentStep (VideoEditor.handleManualAssemble env attempt st).1
       = (if ok then VideoEditor.complete else VideoEditor.editing).
Proof.
  intros Hne. unfold VideoEditor.handleManualAssemble.
  destruct (VideoEditor.editedFrames st) as [|e rest] eqn:Hed; [done|].
  destruct (VideoEditor.reassembleVideo env attempt _) as [video|err].
  - exists true. cbn. by rewrite Hed.
  - exists false. cbn. by rewrite Hed.
Qed.

(** C4: [handleProcessFrames] requests reassembly at most twice, the
    second time after the first has failed and a wait of 1000 ms; and
    when the second attempt has failed too, the component is back in the
    editing step, not processing, with no error set and the edited frames
    of all indices still held; the manual-assembly button is offered, the
    auto-start effect does not fire, and pressing the button requests
    reassembly of those same frames. *)
Theorem reassembly_retries_then_falls_back (env : VideoEditor.Env) (s : VideoEditor.State) :
  let run := VideoEditor.handleProcessFrames env s in
  let frames := VideoEditor.forReassembly (VideoEditor.editedFrames run.1) in
  (VideoEditor.reassemblyAttempts run.2 = []
   \/ VideoEditor.reassemblyAttempts run.2
      = [VideoEditor.ReassembleRequested 1 frames; VideoEditor.ReassembleSettled 1 true]
   \/ VideoEditor.reassemblyAttempts run.2
      = [VideoEditor.ReassembleRequested 1 frames; VideoEditor.ReassembleSettled 1 false;
         VideoEditor.Waited 1000;
         VideoEditor.ReassembleRequested 2 frames; VideoEditor.ReassembleSettled 2 true]
   \/ VideoEditor.reassemblyAttempts run.2
      = [VideoEditor.ReassembleRequested 1 frames; VideoEditor.ReassembleSettled 1 false;
         VideoEditor.Waited 1000;
         VideoEditor.ReassembleRequested 2 frames; VideoEditor.ReassembleSettled 2 false])
  /\ (VideoEditor.ReassembleSettled 2 false ∈ run.2 ->
      VideoEditor.currentStep run.1 = VideoEditor.editing
      /\ VideoEditor.isProcessing run.1 = false
      /\ VideoEditor.error run.1 = None
      /\ VideoEditor.index <$> VideoEditor.editedFrames run.1
         ≡ₚ seq 0 (length (VideoEditor.extractedFrames s))
      /\ VideoEditor.manualAssembleOffered run.1 = true
      /\ VideoEditor.autoStarts run.1 = false
      /\ forall later attempt, exists ok,
           (VideoEditor.handleManualAssemble later attempt run.1).2
           = [VideoEditor.ReassembleRequested attempt frames;
              VideoEditor.ReassembleSettled attempt ok]
           /\ VideoEditor.editedFrames (VideoEditor.handleManualAssemble later attempt run.1).1
              = VideoEditor.editedFrames run.1
           /\ VideoEditor.currentStep (VideoEditor.handleManualAssemble later attempt run.1).1
              = (if ok then VideoEditor.complete else VideoEditor.editing)).
Proof.
  cbv zeta.
  destruct (VideoEditor.extractedFrames s) as [|firstFrame remaining] eqn:Hex.
  { unfold VideoEditor.handleProcessFrames. rewrite Hex. cbn [fst snd].
    split; [by left|]. intros Hin. by apply elem_of_nil in Hin. }
  destruct (handleProcessFrames_cases env s firstFrame remaining Hex)
    as [(e & _ & ->)|[(url & e & _ & _ & ->)|(url & diff & _ & _ & ->)]]; cbn [fst snd].
  1, 2: split; [by left|]; intros Hin;
        repeat (apply elem_of_cons in Hin as [Hin|Hin]; [discriminate|]);
        by apply elem_of_nil in Hin.
  match goal with
  | |- context [VideoEditor.fanOutAndReassemble ?e ?p ?d ?m ?f ?r ?b ?st] =>
      destruct (outcome_summary e p d m f r b st eq_refl eq_refl eq_refl)
        as (settles & Hsettles & [(Htrace & _)|(st' & -> & Herr & Hext & Hperm & Hne)])
  end.
  - rewrite Htrace.
    pose proof (attempts_of_front (PromptSynthesis.firstFramePrompt (VideoEditor.prompt s))
                  (ExtractFramesRoute.base64 firstFrame) (VideoEditor.prompt s) diff
                  (VideoEditor.dispatch remaining) settles Hsettles) as Hfront.
    split; [left; by apply attempts_none|].
    intros Hin. rewrite Forall_forall in Hfront. by apply Hfront in Hin.
  - cbn [fst snd].
    pose proof (attempts_of_front (PromptSynthesis.firstFramePrompt (VideoEditor.prompt s))
                  (ExtractFramesRoute.base64 firstFrame) (VideoEditor.prompt s) diff
                  (VideoEditor.dispatch remaining) settles Hsettles) as Hfront.
    pose proof (attempts_of_probes (VideoEditor.editedFrames st')) as Hprobes.
    destruct (reassemblePhase_cases env (VideoEditor.editedFrames st') st')
      as [(video & attempts & -> & Hshape)|(e1 & e2 & _ & _ & ->)]; cbn [fst snd].
    + rewrite (attempts_app (_ ++ _ ++ settles)), (attempts_none _ Hfront).
      rewrite (attempts_app (_ <$> _)), (attempts_none _ Hprobes).
      split.
      * destruct Hshape as [-> | ->]; [right; left | right; right; left]; reflexivity.
      * intros Hin. exfalso.
        apply elem_of_app in Hin as [Hin|Hin];
          [rewrite Forall_forall in Hfront; by apply Hfront in Hin|].
        apply elem_of_app in Hin as [Hin|Hin];
          [rewrite Forall_forall in Hprobes; by apply Hprobes in Hin|].
        destruct Hshape as [-> | ->];
          repeat (apply elem_of_cons in Hin as [Hin|Hin]; [discriminate|]);
          by apply elem_of_nil in Hin.
    + rewrite (attempts_app (_ ++ _ ++ settles)), (attempts_none _ Hfront).
      rewrite (attempts_app (_ <$> _)), (attempts_none _ Hprobes).
      split; [do 3 right; reflexivity|].
      intros _. set (final := VideoEditor.finally _).
      assert (Hstep : VideoEditor.currentStep final = VideoEditor.editing) by reflexivity.
      assert (Hproc : VideoEditor.isProcessing final = false) by reflexivity.
      assert (Herror : VideoEditor.error final = None) by exact Herr.
      assert (Hed : VideoEditor.editedFrames final = VideoEditor.editedFrames st')
        by reflexivity.
      assert (Hsome : (0 < length (VideoEditor.editedFrames final))%nat).
      { rewrite Hed. destruct (VideoEditor.editedFrames st'); [done|simpl; lia]. }
      split; [done|]. split; [done|]. split; [done|].
      split; [by rewrite Hed|].
      split; [|split].
      * unfold VideoEditor.manualAssembleOffered. rewrite Hstep, Hproc.
        by rewrite !bool_decide_eq_true_2.
      * unfold VideoEditor.autoStarts. apply andb_false_iff. right.
        apply bool_decide_eq_false. lia.
      * intros later attempt.
        destruct (manual_assembly later attempt final) as (ok & H1 & H2 & _ & H4).
        { intros Hnil. rewrite Hnil in Hsome. simpl in Hsome. lia. }
        exists ok. by rewrite H1, H2, H4.
Qed.

(** C4 on ten frames, all edited, when both reassembly attempts fail. *)
Lemma reassembly_retries_then_falls_back_witness :
  VideoEditor.currentStep
    (VideoEditor.handleProcessFrames
       (Examples.session [] [3; 1; 4; 9; 2; 8; 5; 7; 6]%nat []) (Examples.ready 10)).1
  = VideoEditor.editing
  /\ VideoEditor.manualAssembleOffered
       (VideoEditor.handleProcessFrames
          (Examples.session [] [3; 1; 4; 9; 2; 8; 5; 7; 6]%nat []) (Examples.ready 10)).1
     = true.
Proof.
  destruct (proj2 (reassembly_retries_then_falls_back
                     (Examples.session [] [3; 1; 4; 9; 2; 8; 5; 7; 6]%nat [])
                     (Examples.ready 10)))
    as (Hstep & _ & _ & _ & Hoffered & _).
  - apply list_elem_of_lookup. exists 29%nat. vm_compute. reflexivity.
  - split; [exact Hstep | exact Hoffered].
Defined.

(** ** C3: one failing edit *)

(** The automatic path reaches reassembly only when the edit of every
    remaining frame has succeeded. *)
Lemma reassembly_needs_every_edit (env : VideoEditor.Env) (s : VideoEditor.State)
    (attempt : nat) (frames : list VideoProcessor.EditedFrame) :
  VideoEditor.ReassembleRequested attempt frames ∈ (VideoEditor.handleProcessFrames env s).2 ->
  forall k frame,
    (1 <= k)%nat -> VideoEditor.extractedFrames s !! k = Some frame ->
    exists diff u,
      VideoEditor.editFrameApi env
        (PromptSynthesis.diffBasedPrompt diff (VideoEditor.prompt s))
        [ExtractFramesRoute.base64 frame] = Ok u.
Proof.
  intros Hin k frame Hk Hframe.
  destruct (VideoEditor.extractedFrames s) as [|firstFrame remaining] eqn:Hex; [done|].
  destruct (handleProcessFrames_cases env s firstFrame remaining Hex)
    as [(e & _ & Hrun)|[(url & e & _ & _ & Hrun)|(url & diff & _ & _ & Hrun)]];
    rewrite Hrun in Hin; cbn [snd] in Hin.
  1, 2: repeat (apply elem_of_cons in Hin as [Hin|Hin]; [discriminate|]);
        by apply elem_of_nil in Hin.
  clear Hrun.
  match type of Hin with
  | context [VideoEditor.fanOutAndReassemble ?e ?p ?d ?m ?f ?r ?b ?st] =>
      destruct (outcome_trace e p d m f r b st eq_refl eq_refl)
        as (settles & phase & Htrace & Hsettles & _ & Hreached);
      destruct (outcome_frames e p d m f firstFrame r b st eq_refl eq_refl)
        as (rest & _ & _ & _ & Hprov)
  end.
  rewrite Htrace in Hin. apply elem_of_app in Hin as [Hin|Hin];
    [by apply reassembly_not_in_front in Hin|].
  assert (Hne : phase <> []) by (intros ->; by apply elem_of_nil in Hin).
  destruct (Hreached Hne) as [Hperm _].
  assert (Hentered : k ∈ seq 0 (S (length remaining))).
  { apply elem_of_seq. apply lookup_lt_Some in Hframe. simpl in Hframe. lia. }
  rewrite <- Hperm in Hentered.
  apply list_elem_of_fmap in Hentered as (entry & Hidx & Hentry).
  rewrite Forall_forall in Hprov.
  destruct (Hprov _ Hentry) as [->|(frame' & _ & Hlook & _ & Hok)]; [simpl in Hidx; lia|].
  rewrite <- Hidx in Hlook. exists diff, (VideoEditor.editedUrl entry). congruence.
Qed.

(** C3, as stated, fails on its last part: with ten frames and the edit
    of frame 4 failing, nine edited frames are kept, but the component
    is in the preview step, where the manual-assembly button is not
    rendered. *)
Lemma partial_failure_hides_manual_assembly :
  length (VideoEditor.editedFrames Examples.oneOfTen.1) = 9%nat
  /\ VideoEditor.currentStep Examples.oneOfTen.1 = VideoEditor.preview_frames
  /\ VideoEditor.manualAssembleOffered Examples.oneOfTen.1 = false.
Proof. vm_compute. repeat split; reflexivity. Qed.

(** C3 (amended): reassembly is requested by [handleProcessFrames] only
    if the edit of every remaining frame succeeded. When exactly one
    dispatched edit fails and every request completes, every other frame's
    edit is kept in [editedFrames] (all indices but the failed one), no
    reassembly is attempted, and the component is in the preview step,
    not processing, with the failed frame's message as error. The
    manual-assembly button is not rendered in that step; the editing step
    can be opened, and there the button is offered, the edited frames are
    still held and the auto-start effect does not fire. *)
Theorem partial_failure_keeps_edited_frames (env : VideoEditor.Env) (s : VideoEditor.State) :
  let run := VideoEditor.handleProcessFrames env s in
  (forall attempt frames,
     VideoEditor.ReassembleRequested attempt frames ∈ run.2 ->
     forall k frame,
       (1 <= k)%nat -> VideoEditor.extractedFrames s !! k = Some frame ->
       exists diff u,
         VideoEditor.editFrameApi env
           (PromptSynthesis.diffBasedPrompt diff (VideoEditor.prompt s))
           [ExtractFramesRoute.base64 frame] = Ok u)
  /\ (forall firstFrame url diff bad badFrame e,
        VideoEditor.extractedFrames s !! 0%nat = Some firstFrame ->
        VideoEditor.editFrameApi env (PromptSynthesis.firstFramePrompt (VideoEditor.prompt s))
          [ExtractFramesRoute.base64 firstFrame] = Ok url ->
        VideoEditor.analyzeDiffApi env (VideoEditor.prompt s)
          (ExtractFramesRoute.base64 firstFrame) url = Ok diff ->
        (1 <= bad)%nat ->
        VideoEditor.extractedFrames s !! bad = Some badFrame ->
        VideoEditor.editFrameApi env
          (PromptSynthesis.diffBasedPrompt diff (VideoEditor.prompt s))
          [ExtractFramesRoute.base64 badFrame] = Thrown e ->
        (forall k frame,
           (1 <= k)%nat -> k <> bad -> VideoEditor.extractedFrames s !! k = Some frame ->
           exists u,
             VideoEditor.editFrameApi env
               (PromptSynthesis.diffBasedPrompt diff (VideoEditor.prompt s))
               [ExtractFramesRoute.base64 frame] = Ok u) ->
        (forall k, (1 <= k < length (VideoEditor.extractedFrames s))%nat ->
                   k ∈ VideoEditor.completionOrder env) ->
        (VideoEditor.index <$> VideoEditor.editedFrames run.1) ++ [bad]
          ≡ₚ seq 0 (length (VideoEditor.extractedFrames s))
        /\ VideoEditor.reassemblyAttempts run.2 = []
        /\ VideoEditor.currentStep run.1 = VideoEditor.preview_frames
        /\ VideoEditor.isProcessing run.1 = false
        /\ VideoEditor.error run.1
           = Some (lit "Frame " ++ toString (bad + 1) ++ lit " processing failed: " ++ e)
        /\ VideoEditor.manualAssembleOffered run.1 = false
        /\ VideoEditor.editingStepClickable run.1 = true
        /\ VideoEditor.editedFrames (VideoEditor.handleGoToStep VideoEditor.editing run.1)
           = VideoEditor.editedFrames run.1
        /\ VideoEditor.manualAssembleOffered
             (VideoEditor.handleGoToStep VideoEditor.editing run.1) = true
        /\ VideoEditor.autoStarts (VideoEditor.handleGoToStep VideoEditor.editing run.1)
           = false).
Proof.
  cbv zeta. split; [apply reassembly_needs_every_edit|].
  intros firstFrame url diff bad badFrame e Hzero Hfirst Hdiff Hbad Hframe Hfail Hothers Hcomplete.
  destruct (VideoEditor.extractedFrames s) as [|firstFrame' remaining] eqn:Hex; [done|].
  injection Hzero as ->.
  destruct (handleProcessFrames_cases env s firstFrame remaining Hex)
    as [(e' & Hfirst' & _)|[(url' & e' & Hfirst' & Hdiff' & _)|(url' & diff' & Hfirst' & Hdiff' & ->)]];
    [congruence|congruence|].
  assert (url' = url) as -> by congruence.
  assert (diff' = diff) as -> by congruence.
  match goal with
  | |- context [VideoEditor.fanOutAndReassemble ?en ?p ?d ?m ?f ?r ?b ?st] =>
      destruct (outcome_partial_failure en p d m f firstFrame r b st eq_refl eq_refl
                  bad badFrame e Hbad Hframe Hfail Hothers Hcomplete)
        as (Hperm & (rest & Hhead) & (settles & Htrace & Hsettles) & Hstep & Hproc & Herror & Hext);
      set (run := VideoEditor.fanOutAndReassemble en p d m f r b st) in *
  end.
  assert (Hsome : (0 < length (VideoEditor.editedFrames run.1))%nat)
    by (rewrite Hhead; simpl; lia).
  split; [exact Hperm|].
  split.
  { rewrite Htrace. apply attempts_none. by apply attempts_of_front. }
  split; [exact Hstep|]. split; [exact Hproc|]. split; [exact Herror|].
  split.
  { unfold VideoEditor.manualAssembleOffered. by rewrite Hstep. }
  split.
  { unfold VideoEditor.editingStepClickable. rewrite Hext. cbn. rewrite Hex.
    apply bool_decide_eq_true. simpl. lia. }
  split; [reflexivity|].
  split.
  - unfold VideoEditor.manualAssembleOffered.
    change (VideoEditor.editedFrames (VideoEditor.handleGoToStep VideoEditor.editing run.1))
      with (VideoEditor.editedFrames run.1).
    cbn [VideoEditor.handleGoToStep VideoEditor.currentStep VideoEditor.isProcessing
         VideoEditor.setEditedVideoUrl VideoEditor.setCurrentEditingFrame
         VideoEditor.setIsProcessing VideoEditor.setError VideoEditor.setCurrentStep].
    by rewrite !bool_decide_eq_true_2.
  - unfold VideoEditor.autoStarts. apply andb_false_iff. right.
    apply bool_decide_eq_false.
    change (VideoEditor.editedFrames (VideoEditor.handleGoToStep VideoEditor.editing run.1))
      with (VideoEditor.editedFrames run.1). lia.
Qed.

(** The amended C3 on ten frames, the edit of frame 4 failing: the nine
    other frames are kept, and the manual assembly is offered once the
    editing step is opened. *)
Lemma partial_failure_keeps_edited_frames_witness :
  (VideoEditor.index <$> VideoEditor.editedFrames Examples.oneOfTen.1) ++ [4%nat] ≡ₚ seq 0 10
  /\ VideoEditor.manualAssembleOffered
       (VideoEditor.handleGoToStep VideoEditor.editing Examples.oneOfTen.1) = true.
Proof.
  destruct (proj2 (partial_failure_keeps_edited_frames
                     (Examples.session [4%nat] [3; 1; 4; 9; 2; 8; 5; 7; 6]%nat [1%nat])
                     (Examples.ready 10))
              {| ExtractFramesRoute.index := 0;
                 ExtractFramesRoute.timestamp := inject_Z 0;
                 ExtractFramesRoute.filename := lit "frame_1b4e28ba_0.png";
                 ExtractFramesRoute.base64 := lit "data:image/png;base64,0" |}
              (lit "https://fal.media/0") (lit "Add aviator sunglasses") 4%nat
              {| ExtractFramesRoute.index := 4;
                 ExtractFramesRoute.timestamp := inject_Z 4;
                 ExtractFramesRoute.filename := lit "frame_1b4e28ba_4.png";
                 ExtractFramesRoute.base64 := lit "data:image/png;base64,4" |}
              (lit "Bad Gateway"))
    as (Hkept & _ & _ & _ & _ & _ & _ & _ & Hoffered & _).
  - vm_compute. reflexivity.
  - vm_compute. reflexivity.
  - vm_compute. reflexivity.
  - lia.
  - vm_compute. reflexivity.
  - vm_compute. reflexivity.
  - intros k frame Hk Hne Hlook.
    do 10 (destruct k as [|k];
           [first [lia | vm_compute in Hlook; injection Hlook as <-;
                         eexists; vm_compute; reflexivity]|]).
    vm_compute in Hlook. discriminate.
  - intros k [Hk1 Hk2].
    do 10 (destruct k as [|k];
           [first [lia | apply (bool_decide_unpack _); vm_compute; exact I]|]).
    vm_compute in Hk2. lia.
  - split; [exact Hkept | exact Hoffered].
Defined.

(** * Further properties

    Properties of the handlers and routes beyond the design
    specification's claims. *)

(** ** How [handleProcessFrames] ends *)

Section Endings.
Import VideoEditor.

Variable env : Env.
Variable s : State.
Variable firstFrame : ExtractedFrame.
Variable remaining : list ExtractedFrame.

Hypothesis extracted : extractedFrames s = firstFrame :: remaining.

(** The four states in which the handler can be found once nothing more
    happens: stopped by a failure, finished, given up on the assembly, or
    still awaiting a request of the fan-out that never completes. *)
Lemma handleProcessFrames_ends :
  (currentStep (handleProcessFrames env s).1 = preview_frames
   /\ isProcessing (handleProcessFrames env s).1 = false
   /\ is_Some (error (handleProcessFrames env s).1))
  \/ (currentStep (handleProcessFrames env s).1 = complete
      /\ isProcessing (handleProcessFrames env s).1 = false
      /\ error (handleProcessFrames env s).1 = None
      /\ exists video,
           editedVideoUrl (handleProcessFrames env s).1 = Some (createObjectURL env video)
           /\ OnComplete video ∈ (handleProcessFrames env s).2)
  \/ (currentStep (handleProcessFrames env s).1 = editing
      /\ isProcessing (handleProcessFrames env s).1 = false
      /\ error (handleProcessFrames env s).1 = None
      /\ editedFrames (handleProcessFrames env s).1 <> [])
  \/ (currentStep (handleProcessFrames env s).1 = editing
      /\ isProcessing (handleProcessFrames env s).1 = true
      /\ error (handleProcessFrames env s).1 = None
      /\ exists k, (1 <= k < length (extractedFrames s))%nat /\ k ∉ completionOrder env).
Proof.
  destruct (handleProcessFrames_cases env s firstFrame remaining extracted)
    as [(e & _ & ->)|[(url & e & _ & _ & ->)|(url & diff & _ & _ & ->)]].
  - left. cbn. split; [done|]. split; [done|]. by eexists.
  - left. cbn. split; [done|]. split; [done|]. by eexists.
  - match goal with
    | |- context [fanOutAndReassemble ?e ?p ?d ?m ?f ?r ?b ?st] =>
        pose proof (fan_mirrors e p d m f r b st eq_refl) as Hmirror;
        pose proof (fan_starts_with_first e p d m f r b st) as Hfirst;
        destruct (fanOutAndReassemble_cases e p d m f r b st)
          as [[Hrem ->]|[(Hne & Hstop & ->)|(Hne & Hrej & Hpend & ->)]]
    end; cbn [fst snd].
    + match goal with
      | |- context [reassemblePhase env ?all ?st] =>
          destruct (reassemblePhase_cases env all st)
            as [(video & attempts & -> & _)|(e1 & e2 & _ & _ & ->)]
      end; cbn [fst snd].
      * right; left. split; [done|]. split; [done|]. split; [done|].
        exists video. split; [done|].
        rewrite !elem_of_app. do 3 right. by apply list_elem_of_singleton.
      * right; right; left. by repeat split.
    + set (start := {| fanState := _ |}) in *.
      destruct (rejected (fanOut env (prompt s) diff (length (extractedFrames s)) start))
        eqn:Hrej.
      * unfold fanOut in *.
        destruct (run_rejection env (prompt s) diff _ (completionOrder env) start eq_refl Hrej)
          as (k & frame & e & _ & _ & Hstep & Hproc & Herr).
        left. rewrite Hstep, Hproc, Herr. split; [done|]. split; [done|]. by eexists.
      * destruct Hstop as [Hstop|Hstop]; [discriminate|].
        unfold fanOut in *.
        destruct (run_without_rejection env (prompt s) diff _ (completionOrder env) start Hrej)
          as (Hstep & Hproc & Herr).
        do 3 right. rewrite Hstep, Hproc, Herr. split; [done|]. split; [done|]. split; [done|].
        destruct (pending (foldl _ start (completionOrder env))) as [|[k frame] rest] eqn:Hp;
          [done|].
        exists k.
        assert (Hk : k ∈ (pending (foldl (settle env (prompt s) diff
                            (length (extractedFrames s))) start (completionOrder env))).*1)
          by (rewrite Hp; simpl; by left).
        assert (Hin : k ∈ (pending start).*1).
        { eapply elem_of_submseteq; [exact Hk|]. apply fmap_submseteq, run_pending_sub. }
        simpl in Hin. rewrite dispatch_keys in Hin. apply elem_of_seq in Hin.
        rewrite extracted. simpl. split; [lia|].
        intros Hdone. revert Hk. apply run_completes; [|done].
        simpl. rewrite dispatch_keys. apply NoDup_seq.
    + set (start := {| fanState := _ |}) in *.
      unfold fanOut in *.
      destruct (run_without_rejection env (prompt s) diff _ (completionOrder env) start Hrej)
        as (Hstep & Hproc & Herr).
      match goal with
      | |- context [reassemblePhase env ?all ?st] =>
          destruct (reassemblePhase_cases env all st)
            as [(video & attempts & -> & _)|(e1 & e2 & _ & _ & ->)]
      end; cbn [fst snd].
      * right; left. split; [done|]. split; [done|]. split; [exact Herr|].
        exists video. split; [done|].
        rewrite !elem_of_app. do 3 right. by apply list_elem_of_singleton.
      * right; right; left. split; [done|]. split; [done|]. split; [exact Herr|].
        cbn [editedFrames finally setIsProcessing setCurrentStep setProgress
               setCurrentEditingFrame].
        destruct Hfirst as [rest Hrest]. rewrite Hmirror, Hrest. done.
Qed.

End Endings.

(** ** What is rendered *)

Lemma autoStarts_true (s : VideoEditor.State) :
  VideoEditor.autoStarts s = true <->
  VideoEditor.currentStep s = VideoEditor.editing
  /\ VideoEditor.extractedFrames s <> []
  /\ VideoEditor.isProcessing s = false
  /\ VideoEditor.editedFrames s = [].
Proof.
  unfold VideoEditor.autoStarts.
  rewrite !andb_true_iff, !bool_decide_eq_true, negb_true_iff.
  destruct (VideoEditor.extractedFrames s), (VideoEditor.editedFrames s); simpl;
    intuition (discriminate || lia || congruence).
Qed.

Lemma manualAssembleOffered_true (s : VideoEditor.State) :
  VideoEditor.manualAssembleOffered s = true <->
  VideoEditor.currentStep s = VideoEditor.editing
  /\ VideoEditor.isProcessing s = false
  /\ VideoEditor.editedFrames s <> [].
Proof.
  unfold VideoEditor.manualAssembleOffered.
  rewrite !andb_true_iff, !bool_decide_eq_true, negb_true_iff.
  destruct (VideoEditor.editedFrames s); simpl; intuition (discriminate || lia || congruence).
Qed.

Lemma autoStarts_false (s : VideoEditor.State) :
  VideoEditor.currentStep s <> VideoEditor.editing
  \/ VideoEditor.extractedFrames s = []
  \/ VideoEditor.isProcessing s = true
  \/ VideoEditor.editedFrames s <> [] ->
  VideoEditor.autoStarts s = false.
Proof.
  intros H. apply not_true_is_false. rewrite autoStarts_true.
  intros (H1 & H2 & H3 & H4). destruct H as [H|[H|[H|H]]]; congruence.
Qed.

(** X1: when [handleProcessFrames] has run, the condition of the
    auto-start effect is false, whatever the services answered and
    whatever state the handler was called in: the effect cannot call the
    handler in a loop. *)
Theorem processing_does_not_restart_itself (env : VideoEditor.Env) (s : VideoEditor.State) :
  VideoEditor.autoStarts (VideoEditor.handleProcessFrames env s).1 = false.
Proof.
  apply autoStarts_false.
  destruct (VideoEditor.extractedFrames s) as [|firstFrame remaining] eqn:Hex.
  - right; left. unfold VideoEditor.handleProcessFrames. by rewrite Hex.
  - destruct (handleProcessFrames_ends env s firstFrame remaining Hex)
      as [(Hstep & _)|[(Hstep & _)|[(_ & _ & _ & Hed)|(_ & Hproc & _)]]].
    + left. by rewrite Hstep.
    + left. by rewrite Hstep.
    + by do 3 right.
    + right; right; left. exact Hproc.
Qed.

(** X2: once every request of the fan-out has completed, the handler
    has left the processing state and the component is in one of three
    states: on the complete step with the video's URL and [onComplete]
    called; on the editing step with manual assembly offered; or on the
    preview step with an error message. *)
Theorem processing_settles (env : VideoEditor.Env) (s : VideoEditor.State) :
  VideoEditor.extractedFrames s <> [] ->
  (forall k, (1 <= k < length (VideoEditor.extractedFrames s))%nat ->
             k ∈ VideoEditor.completionOrder env) ->
  VideoEditor.isProcessing (VideoEditor.handleProcessFrames env s).1 = false
  /\ ((VideoEditor.currentStep (VideoEditor.handleProcessFrames env s).1 = VideoEditor.complete
       /\ VideoEditor.error (VideoEditor.handleProcessFrames env s).1 = None
       /\ exists video,
            VideoEditor.editedVideoUrl (VideoEditor.handleProcessFrames env s).1
            = Some (VideoEditor.createObjectURL env video)
            /\ VideoEditor.OnComplete video ∈ (VideoEditor.handleProcessFrames env s).2)
      \/ (VideoEditor.manualAssembleOffered (VideoEditor.handleProcessFrames env s).1 = true
          /\ VideoEditor.error (VideoEditor.handleProcessFrames env s).1 = None)
      \/ (VideoEditor.currentStep (VideoEditor.handleProcessFrames env s).1
          = VideoEditor.preview_frames
          /\ is_Some (VideoEditor.error (VideoEditor.handleProcessFrames env s).1))).
Proof.
  intros Hne Hall.
  destruct (VideoEditor.extractedFrames s) as [|firstFrame remaining] eqn:Hex; [done|].
  destruct (handleProcessFrames_ends env s firstFrame remaining Hex)
    as [(Hstep & Hproc & Herr)|[(Hstep & Hproc & Herr & Hvideo)
       |[(Hstep & Hproc & Herr & Hed)|(_ & _ & _ & k & Hk & Hnot)]]].
  - split; [done|]. by do 2 right.
  - split; [done|]. by left.
  - split; [done|]. right; left. split; [|done]. by apply manualAssembleOffered_true.
  - exfalso. apply Hnot, Hall. by rewrite <- Hex.
Qed.

Lemma processing_settles_witness :
  VideoEditor.isProcessing Examples.outOfOrder.1 = false
  /\ VideoEditor.currentStep Examples.outOfOrder.1 = VideoEditor.complete.
Proof.
  destruct (processing_settles (Examples.session [] [2; 1]%nat [1%nat]) (Examples.ready 3))
    as [Hproc Hend].
  - vm_compute. discriminate.
  - intros k [Hk1 Hk2]. vm_compute in Hk2.
    do 3 (destruct k as [|k];
          [first [lia | apply (bool_decide_unpack _); vm_compute; exact I]|]).
    lia.
  - split; [exact Hproc|]. vm_compute. reflexivity.
Defined.

(** ** Manual assembly, repeated *)

Lemma handleManualAssemble_failed (env : VideoEditor.Env) (attempt : nat)
    (s : VideoEditor.State) (e : jsstring) :
  VideoEditor.editedFrames s <> [] ->
  VideoEditor.reassembleVideo env attempt (VideoEditor.forReassembly (VideoEditor.editedFrames s))
  = Thrown e ->
  (VideoEditor.handleManualAssemble env attempt s).1
  = VideoEditor.setIsProcessing false
      (VideoEditor.setCurrentStep VideoEditor.editing
         (VideoEditor.setError (Some (lit "Manual assembly failed: " ++ e))
            (VideoEditor.setIsProcessing true
               (VideoEditor.setCurrentStep VideoEditor.reassembling s)))).
Proof.
  intros Hne Hfail. unfold VideoEditor.handleManualAssemble.
  destruct (VideoEditor.editedFrames s) as [|frame frames] eqn:Hed; [done|].
  cbv zeta. by rewrite Hfail.
Qed.

(** X3: however many manual assemblies fail in a row, the edited
    frames are all still held, the "Assemble Video Now" button is offered
    again, and the auto-start effect stays quiet. *)
Theorem manual_assembly_survives_failures (env : VideoEditor.Env) (attempts : list nat)
    (s : VideoEditor.State) :
  VideoEditor.editedFrames s <> [] ->
  attempts <> [] ->
  (forall a, a ∈ attempts -> exists e,
     VideoEditor.reassembleVideo env a (VideoEditor.forReassembly (VideoEditor.editedFrames s))
     = Thrown e) ->
  VideoEditor.editedFrames
    (foldl (fun st a => (VideoEditor.handleManualAssemble env a st).1) s attempts)
  = VideoEditor.editedFrames s
  /\ VideoEditor.manualAssembleOffered
       (foldl (fun st a => (VideoEditor.handleManualAssemble env a st).1) s attempts) = true
  /\ VideoEditor.autoStarts
       (foldl (fun st a => (VideoEditor.handleManualAssemble env a st).1) s attempts) = false
  /\ is_Some (VideoEditor.error
                (foldl (fun st a => (VideoEditor.handleManualAssemble env a st).1) s attempts)).
Proof.
  intros Hne Hattempts Hfail.
  induction attempts as [|a attempts IH] using rev_ind; [done|].
  rewrite foldl_app. cbn [foldl].
  set (st := foldl _ s attempts) in *.
  assert (Hst : VideoEditor.editedFrames st = VideoEditor.editedFrames s).
  { destruct attempts as [|a0 attempts0] eqn:Hat; [done|].
    apply IH; [done|]. intros a' Ha'. apply Hfail. apply elem_of_app. by left. }
  destruct (Hfail a) as [e He]; [apply elem_of_app; right; by apply list_elem_of_singleton|].
  rewrite <- Hst in He.
  rewrite (handleManualAssemble_failed env a st e); [|by rewrite Hst|exact He].
  cbn [VideoEditor.editedFrames VideoEditor.setIsProcessing VideoEditor.setCurrentStep
         VideoEditor.setError VideoEditor.error].
  split; [done|]. split; [|split; [|by eexists]].
  - apply manualAssembleOffered_true. cbn. by rewrite Hst.
  - apply autoStarts_false. do 3 right. cbn. by rewrite Hst.
Qed.

Lemma manual_assembly_survives_failures_witness :
  VideoEditor.manualAssembleOffered
    (foldl (fun st a => (VideoEditor.handleManualAssemble
                           (Examples.session [1%nat] [1; 2]%nat [5%nat]) a st).1)
       (VideoEditor.handleGoToStep VideoEditor.editing Examples.oneMissing.1) [3; 4]%nat) = true.
Proof.
  apply (manual_assembly_survives_failures
           (Examples.session [1%nat] [1; 2]%nat [5%nat]) [3; 4]%nat
           (VideoEditor.handleGoToStep VideoEditor.editing Examples.oneMissing.1)).
  - vm_compute. discriminate.
  - discriminate.
  - intros a Ha. exists (lit "Failed to reassemble video").
    apply elem_of_cons in Ha as [->|Ha]; [vm_compute; reflexivity|].
    apply elem_of_cons in Ha as [->|Ha]; [vm_compute; reflexivity|].
    by apply elem_of_nil in Ha.
Defined.

(** X4: [handleManualAssemble] never clears the error: a manual
    assembly that succeeds after one that failed ends on the complete
    step, with the video's URL, and with the message of the failed
    attempt still set (the error box is rendered on every step). *)
Theorem manual_assembly_keeps_the_old_error (env : VideoEditor.Env) (a1 a2 : nat)
    (s : VideoEditor.State) (e video : jsstring) :
  VideoEditor.editedFrames s <> [] ->
  VideoEditor.reassembleVideo env a1 (VideoEditor.forReassembly (VideoEditor.editedFrames s))
  = Thrown e ->
  VideoEditor.reassembleVideo env a2 (VideoEditor.forReassembly (VideoEditor.editedFrames s))
  = Ok video ->
  VideoEditor.currentStep
    (VideoEditor.handleManualAssemble env a2 (VideoEditor.handleManualAssemble env a1 s).1).1
  = VideoEditor.complete
  /\ VideoEditor.editedVideoUrl
       (VideoEditor.handleManualAssemble env a2 (VideoEditor.handleManualAssemble env a1 s).1).1
     = Some (VideoEditor.createObjectURL env video)
  /\ VideoEditor.error
       (VideoEditor.handleManualAssemble env a2 (VideoEditor.handleManualAssemble env a1 s).1).1
     = Some (lit "Manual assembly failed: " ++ e).
Proof.
  intros Hne Hfail Hok.
  rewrite (handleManualAssemble_failed env a1 s e Hne Hfail).
  unfold VideoEditor.handleManualAssemble at 1 2 3.
  cbn [VideoEditor.editedFrames VideoEditor.setIsProcessing VideoEditor.setCurrentStep
         VideoEditor.setError].
  destruct (VideoEditor.editedFrames s) as [|frame frames] eqn:Hed; [done|].
  cbv zeta.
  cbn [VideoEditor.editedFrames VideoEditor.setIsProcessing VideoEditor.setCurrentStep
         VideoEditor.setError].
  rewrite Hok. done.
Qed.

Lemma manual_assembly_keeps_the_old_error_witness :
  VideoEditor.error
    (VideoEditor.handleManualAssemble (Examples.session [1%nat] [1; 2]%nat [5%nat]) 5
       (VideoEditor.handleManualAssemble (Examples.session [1%nat] [1; 2]%nat [5%nat]) 4
          (VideoEditor.handleGoToStep VideoEditor.editing Examples.oneMissing.1)).1).1
  = Some (lit "Manual assembly failed: Failed to reassemble video").
Proof.
  apply (manual_assembly_keeps_the_old_error
           (Examples.session [1%nat] [1; 2]%nat [5%nat]) 4 5
           (VideoEditor.handleGoToStep VideoEditor.editing Examples.oneMissing.1)
           (lit "Failed to reassemble video") (lit "mp4")).
  - vm_compute. discriminate.
  - vm_compute. reflexivity.
  - vm_compute. reflexivity.
Defined.

(** ** Opening the editing step *)

(** X5: when frames have been extracted, opening the "Edit Frames"
    step either makes the auto-start effect run the pipeline again or
    offers manual assembly, never both and never neither: the pipeline
    is run again exactly when no edited frame is held. In particular
    "Modify Prompt" followed by "Edit Frames" discards the edited frames
    and the diff specification and runs the whole pipeline again. *)
Theorem opening_editing_restarts_or_offers_assembly (s : VideoEditor.State) :
  VideoEditor.editingStepClickable s = true ->
  xorb (VideoEditor.autoStarts (VideoEditor.handleGoToStep VideoEditor.editing s))
       (VideoEditor.manualAssembleOffered (VideoEditor.handleGoToStep VideoEditor.editing s))
  = true
  /\ (VideoEditor.autoStarts (VideoEditor.handleGoToStep VideoEditor.editing s) = true
      <-> VideoEditor.editedFrames s = [])
  /\ VideoEditor.autoStarts
       (VideoEditor.handleGoToStep VideoEditor.editing (VideoEditor.handleModifyPrompt s)) = true
  /\ VideoEditor.detailedDiff
       (VideoEditor.handleGoToStep VideoEditor.editing (VideoEditor.handleModifyPrompt s)) = [].
Proof.
  unfold VideoEditor.editingStepClickable. intros Hex%bool_decide_eq_true.
  assert (Hne : VideoEditor.extractedFrames s <> [])
    by (destruct (VideoEditor.extractedFrames s); [simpl in Hex; lia|done]).
  assert (Hauto : VideoEditor.autoStarts (VideoEditor.handleGoToStep VideoEditor.editing s) = true
                  <-> VideoEditor.editedFrames s = []).
  { rewrite autoStarts_true. cbn. tauto. }
  split; [|split; [exact Hauto|split; [|done]]].
  - destruct (VideoEditor.editedFrames s) as [|frame frames] eqn:Hed.
    + rewrite (proj2 Hauto eq_refl).
      destruct (VideoEditor.manualAssembleOffered _) eqn:Hoff; [|done].
      apply manualAssembleOffered_true in Hoff as (_ & _ & Hoff). cbn in Hoff. congruence.
    + rewrite (proj2 (manualAssembleOffered_true _)) by (cbn; by rewrite Hed).
      rewrite autoStarts_false; [done|]. do 3 right. cbn. by rewrite Hed.
  - apply autoStarts_true. cbn. tauto.
Qed.

Lemma opening_editing_restarts_or_offers_assembly_witness :
  VideoEditor.autoStarts
    (VideoEditor.handleGoToStep VideoEditor.editing
       (VideoEditor.handleModifyPrompt Examples.oneMissing.1)) = true.
Proof.
  apply (opening_editing_restarts_or_offers_assembly Examples.oneMissing.1).
  vm_compute. reflexivity.
Defined.

(** ** The validation of the edit route *)

Section EditValidation.
Import EditFrameRoute.

Lemma imageError_None (i : nat) (u : jsstring) :
  imageError i u = None <->
  (startsWith u (lit "data:image/") = true \/ startsWith u (lit "http") = true)
  /\ (startsWith u (lit "data:") = true -> len u <= 10 * 1024 * 1024).
Proof.
  unfold imageError.
  destruct (startsWith u (lit "data:image/")), (startsWith u (lit "http")),
    (startsWith u (lit "data:")), (Z.ltb_spec (10 * 1024 * 1024) (len u));
    cbn [negb andb]; intuition (try discriminate; try lia; auto).
Qed.

Lemma validateImages_None (imageUrls : list jsstring) : forall i,
  validateImages i imageUrls = None <->
  forall k u, imageUrls !! k = Some u -> imageError (i + k) u = None.
Proof.
  induction imageUrls as [|u rest IH]; intros i; cbn [validateImages].
  - split; [intros _ k u' Hk; by rewrite lookup_nil in Hk|done].
  - destruct (imageError i u) as [e|] eqn:Hu.
    + split; [done|]. intros H. specialize (H 0%nat u eq_refl).
      rewrite Nat.add_0_r in H. congruence.
    + rewrite IH. split.
      * intros H [|k] u' Hk; simpl in Hk.
        -- injection Hk as <-. by rewrite Nat.add_0_r.
        -- rewrite Nat.add_succ_r. by apply (H k).
      * intros H k u' Hk. specialize (H (S k) u' Hk). by rewrite Nat.add_succ_r in H.
Qed.

Lemma validateImages_Some (imageUrls : list jsstring) : forall i e,
  validateImages i imageUrls = Some e <->
  exists k u, imageUrls !! k = Some u /\ imageError (i + k) u = Some e
    /\ forall j u', (j < k)%nat -> imageUrls !! j = Some u' -> imageError (i + j) u' = None.
Proof.
  induction imageUrls as [|u rest IH]; intros i e; cbn [validateImages].
  - split; [done|]. intros (k & u & Hk & _). by rewrite lookup_nil in Hk.
  - destruct (imageError i u) as [e0|] eqn:Hu.
    + split.
      * intros [= <-]. exists 0%nat, u. rewrite Nat.add_0_r. split; [done|]. split; [done|].
        intros j u' Hj. lia.
      * intros (k & u' & Hk & He & Hbefore). destruct k as [|k].
        -- simpl in Hk. injection Hk as <-. rewrite Nat.add_0_r in He. congruence.
        -- specialize (Hbefore 0%nat u (Nat.lt_0_succ k) eq_refl).
           rewrite Nat.add_0_r in Hbefore. congruence.
    + rewrite IH. split.
      * intros (k & u' & Hk & He & Hbefore). exists (S k), u'.
        rewrite Nat.add_succ_r. split; [done|]. split; [done|].
        intros [|j] u'' Hj Hlook; simpl in Hlook.
        -- injection Hlook as <-. by rewrite Nat.add_0_r.
        -- rewrite Nat.add_succ_r. apply Hbefore; [lia|done].
      * intros (k & u' & Hk & He & Hbefore). destruct k as [|k].
        -- simpl in Hk. injection Hk as <-. rewrite Nat.add_0_r in He. congruence.
        -- exists k, u'. simpl in Hk. rewrite Nat.add_succ_r in He.
           split; [done|]. split; [done|].
           intros j u'' Hj Hlook. specialize (Hbefore (S j) u'' ltac:(lia) Hlook).
           by rewrite Nat.add_succ_r in Hbefore.
Qed.

End EditValidation.

(** X6: the edit route answers 200 exactly when the key is
    configured, the prompt is non-empty and at most 2000 characters long,
    there is at least one image, every image is a [data:image/] URI or an
    [http] URL, no data URI is longer than 10 MB, and the image-edit
    service has returned the URL in the answer: no unvalidated request
    reaches the service. *)
Theorem edit_route_succeeds_only_on_valid_requests (env : EditFrameRoute.Env)
    (prompt : option jsstring) (imageUrls : option (list jsstring)) (url : jsstring) :
  EditFrameRoute.POST env prompt imageUrls = EditFrameRoute.Json200 url <->
  truthy (EditFrameRoute.falApiKey env) = true
  /\ exists p images,
       prompt = Some p /\ imageUrls = Some images
       /\ p <> [] /\ images <> [] /\ len p <= 2000
       /\ (forall i u, images !! i = Some u ->
             (startsWith u (lit "data:image/") = true \/ startsWith u (lit "http") = true)
             /\ (startsWith u (lit "data:") = true -> len u <= 10 * 1024 * 1024))
       /\ EditFrameRoute.falSubscribe env p images = EditFrameRoute.FalOk url.
Proof.
  unfold EditFrameRoute.POST.
  destruct (truthy (EditFrameRoute.falApiKey env)); cbn [negb];
    [|split; [done|by intros [? _]]].
  split.
  - intros H. split; [done|].
    destruct prompt as [[|c p]|]; try discriminate.
    destruct imageUrls as [[|u us]|]; try discriminate.
    cbv zeta in H.
    destruct (Z.ltb_spec 2000 (len (c :: p))) as [Hlong|Hshort]; [discriminate|].
    destruct (EditFrameRoute.validateImages 0 (u :: us)) as [e|] eqn:Hval; [discriminate|].
    destruct (EditFrameRoute.falSubscribe env (c :: p) (u :: us)) as [url'| |] eqn:Hfal;
      try discriminate.
    injection H as <-. exists (c :: p), (u :: us). repeat split; try done.
    all: intros; rewrite validateImages_None in Hval;
      specialize (Hval _ _ H); apply imageError_None in Hval; tauto.
  - intros (_ & p & images & -> & -> & Hp & Himages & Hlen & Hvalid & Hfal).
    destruct p as [|c p]; [done|]. destruct images as [|u us]; [done|]. cbv zeta.
    destruct (Z.ltb_spec 2000 (len (c :: p))) as [Hlong|Hshort]; [lia|].
    assert (Hval : EditFrameRoute.validateImages 0 (u :: us) = None).
    { apply validateImages_None. intros k u' Hk. apply imageError_None. by apply (Hvalid k). }
    by rewrite Hval, Hfal.
Qed.

(** X7: among the images of a request that passes the checks on the
    key and the prompt, the first one that is neither a [data:image/]
    URI nor an [http] URL, or is a data URI of more than 10 MB, is the
    one the 400 answer names; the images after it are not looked at. *)
Theorem edit_route_names_the_first_bad_image (env : EditFrameRoute.Env)
    (prompt : jsstring) (imageUrls : list jsstring) (i : nat) (u message : jsstring) :
  truthy (EditFrameRoute.falApiKey env) = true ->
  prompt <> [] -> len prompt <= 2000 ->
  imageUrls !! i = Some u ->
  EditFrameRoute.imageError i u = Some message ->
  (forall j u', (j < i)%nat -> imageUrls !! j = Some u' ->
                EditFrameRoute.imageError j u' = None) ->
  EditFrameRoute.POST env (Some prompt) (Some imageUrls) = EditFrameRoute.Err400 message
  /\ (message = lit "Invalid image URL format at index " ++ toString i
      \/ message = lit "Image too large at index " ++ toString i
                     ++ lit ". Please use smaller images.").
Proof.
  intros Hkey Hp Hlen Hi Hbad Hbefore. split.
  - unfold EditFrameRoute.POST. rewrite Hkey. cbn [negb].
    destruct prompt as [|c p]; [done|].
    destruct imageUrls as [|u0 us]; [by rewrite lookup_nil in Hi|]. cbv zeta.
    destruct (Z.ltb_spec 2000 (len (c :: p))) as [Hlong|Hshort]; [lia|].
    assert (Hval : EditFrameRoute.validateImages 0 (u0 :: us) = Some message).
    { apply validateImages_Some. exists i, u. by repeat split. }
    by rewrite Hval.
  - unfold EditFrameRoute.imageError in Hbad.
    destruct (_ && _) in Hbad; [injection Hbad as <-; by left|].
    destruct (_ && _) in Hbad; [injection Hbad as <-; by right|discriminate].
Qed.

Lemma edit_route_names_the_first_bad_image_witness :
  EditFrameRoute.POST
    {| EditFrameRoute.falApiKey := Some (lit "key");
       EditFrameRoute.falSubscribe := fun _ _ => EditFrameRoute.FalOk (lit "https://fal.media/x") |}
    (Some (lit "add sunglasses"))
    (Some [lit "data:image/png;base64,AAAA"; lit "ftp://host/frame.png"; lit "file:///tmp/x"])
  = EditFrameRoute.Err400 (lit "Invalid image URL format at index 1").
Proof.
  apply (edit_route_names_the_first_bad_image
           {| EditFrameRoute.falApiKey := Some (lit "key");
              EditFrameRoute.falSubscribe :=
                fun _ _ => EditFrameRoute.FalOk (lit "https://fal.media/x") |}
           (lit "add sunglasses")
           [lit "data:image/png;base64,AAAA"; lit "ftp://host/frame.png"; lit "file:///tmp/x"]
           1 (lit "ftp://host/frame.png")).
  - reflexivity.
  - discriminate.
  - vm_compute. discriminate.
  - reflexivity.
  - vm_compute. reflexivity.
  - intros j u' Hj Hlook. destruct j as [|j]; [|lia].
    injection Hlook as <-. vm_compute. reflexivity.
Defined.

(** ** The length guard of the edit route and the prompts of the editor *)

(** The route on a request that passes the checks on the key, the
    parameters and the images. *)
Lemma edit_route_length_guard (env : EditFrameRoute.Env) (prompt : jsstring)
    (imageUrls : list jsstring) :
  truthy (EditFrameRoute.falApiKey env) = true ->
  0 < len prompt -> imageUrls <> [] ->
  EditFrameRoute.validateImages 0 imageUrls = None ->
  EditFrameRoute.POST env (Some prompt) (Some imageUrls)
  = if Z.ltb 2000 (len prompt)
    then EditFrameRoute.Err400 (lit "Prompt too long. Maximum 2000 characters.")
    else match EditFrameRoute.falSubscribe env prompt imageUrls with
         | EditFrameRoute.FalOk url => EditFrameRoute.Json200 url
         | EditFrameRoute.FalInvalid => EditFrameRoute.Err422
         | EditFrameRoute.FalError => EditFrameRoute.Err500
         end.
Proof.
  intros Hkey Hp Himages Hval. unfold EditFrameRoute.POST. rewrite Hkey. cbn [negb].
  destruct prompt as [|c p]; [unfold len in Hp; simpl in Hp; lia|].
  destruct imageUrls as [|u us]; [done|]. cbv zeta. by rewrite Hval.
Qed.

Lemma len_firstFramePrompt (p : jsstring) :
  len (PromptSynthesis.firstFramePrompt p) = len p + 104.
Proof.
  unfold PromptSynthesis.firstFramePrompt. rewrite !len_app.
  unfold len at 1 2 4 5. rewrite !length_lit. simpl. lia.
Qed.

Lemma len_diffBasedPrompt_bounds (d p : jsstring) :
  95 + len p <= len (PromptSynthesis.diffBasedPrompt d p)
  /\ (len p <= 1890 -> len (PromptSynthesis.diffBasedPrompt d p) <= 2000)
  /\ (1890 < len p -> 2000 < len (PromptSynthesis.diffBasedPrompt d p)).
Proof.
  rewrite len_diffBasedPrompt.
  pose proof (len_truncatedDiff d p) as Hmax.
  pose proof (len_nonneg (PromptSynthesis.truncatedDiff d p)) as Hmin.
  pose proof (len_nonneg p) as Hp.
  split; [lia|]. split.
  - intros Hle. destruct (Z.le_gt_cases (len p) 1500) as [Hs|Hl]; [lia|].
    rewrite <- len_diffBasedPrompt, len_diffBasedPrompt_long by lia. lia.
  - intros Hgt. rewrite <- len_diffBasedPrompt, len_diffBasedPrompt_long by lia. lia.
Qed.

(** X8: on a server with its key configured and for a valid image,
    the route refuses the prompt of the reference frame for its length
    exactly when the user's prompt is longer than 1896 characters, and
    the prompt synthesized for another frame exactly when the user's
    prompt is longer than 1890 characters, whatever the diff
    specification. With a user prompt of 1891 to 1896 characters the
    reference frame is sent on to the image-edit service and every other
    frame is refused. *)
Theorem prompt_length_thresholds (env : EditFrameRoute.Env) (p image diff : jsstring) :
  truthy (EditFrameRoute.falApiKey env) = true ->
  EditFrameRoute.imageError 0 image = None ->
  (EditFrameRoute.POST env (Some (PromptSynthesis.firstFramePrompt p)) (Some [image])
   = EditFrameRoute.Err400 (lit "Prompt too long. Maximum 2000 characters.")
   <-> 1896 < len p)
  /\ (EditFrameRoute.POST env (Some (PromptSynthesis.diffBasedPrompt diff p)) (Some [image])
      = EditFrameRoute.Err400 (lit "Prompt too long. Maximum 2000 characters.")
      <-> 1890 < len p).
Proof.
  intros Hkey Himage.
  assert (Hval : EditFrameRoute.validateImages 0 [image] = None)
    by (cbn [EditFrameRoute.validateImages]; by rewrite Himage).
  pose proof (len_nonneg p) as Hp.
  pose proof (len_firstFramePrompt p) as Hfirst.
  destruct (len_diffBasedPrompt_bounds diff p) as (Hlow & Hshort & Hlong).
  rewrite !edit_route_length_guard by (done || lia).
  split.
  - destruct (Z.ltb_spec 2000 (len (PromptSynthesis.firstFramePrompt p))) as [H|H].
    + split; [lia|done].
    + split; [|lia]. by destruct (EditFrameRoute.falSubscribe env _ _).
  - destruct (Z.ltb_spec 2000 (len (PromptSynthesis.diffBasedPrompt diff p))) as [H|H].
    + split; [|done]. intros _. destruct (Z.le_gt_cases (len p) 1890); [|lia].
      specialize (Hshort ltac:(lia)). lia.
    + split; [by destruct (EditFrameRoute.falSubscribe env _ _)|].
      intros Hgt. specialize (Hlong Hgt). lia.
Qed.

Lemma prompt_length_thresholds_witness :
  EditFrameRoute.POST Examples.editServer
    (Some (PromptSynthesis.diffBasedPrompt (lit "Add aviator sunglasses") (replicate 1893 97%N)))
    (Some [lit "data:image/png;base64,1"])
  = EditFrameRoute.Err400 (lit "Prompt too long. Maximum 2000 characters.").
Proof.
  apply (prompt_length_thresholds Examples.editServer (replicate 1893 97%N)
           (lit "data:image/png;base64,1") (lit "Add aviator sunglasses")).
  - reflexivity.
  - vm_compute. reflexivity.
  - vm_compute. reflexivity.
Defined.

(** ** A user prompt the route cannot take *)

(** X9: the edit requests being served by the edit route, a session
    with a user prompt of more than 1890 characters whose reference
    frame was edited and analysed cannot edit any other frame: every
    request of the fan-out is refused with status 400, so as soon as one
    of them completes the session is back on the preview step with that
    frame's error, holding the edited reference frame only; no
    reassembly is requested. *)
Theorem overlong_prompt_fails_every_remaining_frame
    (env : VideoEditor.Env) (server : EditFrameRoute.Env) (statusText : Z -> jsstring)
    (s : VideoEditor.State) (firstFrame : VideoEditor.ExtractedFrame)
    (remaining : list VideoEditor.ExtractedFrame) (url diff : jsstring) :
  VideoEditor.editFrameApi env = VideoEditor.fetchEditFrame server statusText ->
  VideoEditor.extractedFrames s = firstFrame :: remaining ->
  1890 < len (VideoEditor.prompt s) ->
  VideoEditor.editFrameApi env (PromptSynthesis.firstFramePrompt (VideoEditor.prompt s))
    [ExtractFramesRoute.base64 firstFrame] = Ok url ->
  VideoEditor.analyzeDiffApi env (VideoEditor.prompt s)
    (ExtractFramesRoute.base64 firstFrame) url = Ok diff ->
  (exists k, (1 <= k < length (VideoEditor.extractedFrames s))%nat
             /\ k ∈ VideoEditor.completionOrder env) ->
  VideoEditor.currentStep (VideoEditor.handleProcessFrames env s).1 = VideoEditor.preview_frames
  /\ VideoEditor.editedFrames (VideoEditor.handleProcessFrames env s).1
     = [{| VideoEditor.index := 0;
           VideoEditor.originalUrl := ExtractFramesRoute.base64 firstFrame;
           VideoEditor.editedUrl := url |}]
  /\ (exists k, (1 <= k < length (VideoEditor.extractedFrames s))%nat
        /\ VideoEditor.error (VideoEditor.handleProcessFrames env s).1
           = Some (lit "Frame " ++ toString (k + 1) ++ lit " processing failed: "
                     ++ statusText 400))
  /\ (forall attempt frames,
        VideoEditor.ReassembleRequested attempt frames
          ∉ (VideoEditor.handleProcessFrames env s).2).
Proof.
  intros Henv Hex Hlong Hfirst Hdiff (k & Hk & Hdone).
  assert (Hkey : truthy (EditFrameRoute.falApiKey server) = true).
  { rewrite Henv in Hfirst. unfold VideoEditor.fetchEditFrame, EditFrameRoute.POST in Hfirst.
    by destruct (truthy (EditFrameRoute.falApiKey server)). }
  assert (Hrefused : forall image,
            VideoEditor.editFrameApi env
              (PromptSynthesis.diffBasedPrompt diff (VideoEditor.prompt s)) [image]
            = Thrown (statusText 400)).
  { intros image. rewrite Henv. unfold VideoEditor.fetchEditFrame.
    rewrite edit_route_refuses_long_prompt; [done| |done|done].
    by apply len_diffBasedPrompt_bounds. }
  rewrite Hex in Hk. cbn [length] in Hk.
  destruct (remaining !! (k - 1)%nat) as [frame|] eqn:Hframe;
    [|apply lookup_ge_None in Hframe; lia].
  assert (Hdispatched : (k, frame) ∈ VideoEditor.dispatch remaining).
  { apply (elem_of_dispatch firstFrame). split; [lia|].
    destruct k as [|k]; [lia|]. simpl. by replace (S k - 1)%nat with k in Hframe by lia. }
  destruct (handleProcessFrames_cases env s firstFrame remaining Hex)
    as [(e & He & _)|[(url' & e & Hurl & He & _)|(url' & diff' & Hurl & Hdiff' & ->)]];
    [congruence| |].
  { assert (url' = url) as -> by congruence. congruence. }
  assert (url' = url) as -> by congruence.
  assert (diff' = diff) as -> by congruence.
  match goal with
  | |- context [VideoEditor.fanOutAndReassemble ?e ?p ?d ?m ?f ?r ?b ?st] =>
      pose proof (fan_mirrors e p d m f r b st eq_refl) as Hmirror;
      pose proof (fan_starts_with_first e p d m f r b st) as [rest Hrest];
      pose proof (fan_provenance e p d m f firstFrame r b st) as Hprov;
      pose proof (fan_indices_unique e p d m f r b st eq_refl) as Hnd;
      pose proof (fan_events e p d m f r b st) as (settles & Hevents & Hsettles);
      destruct (fanOutAndReassemble_cases e p d m f r b st)
        as [[Hrem _]|[(_ & _ & ->)|(_ & Hrej & _ & _)]]
  end.
  - rewrite Hrem in Hdispatched. by apply elem_of_nil in Hdispatched.
  - cbn [fst snd]. set (start := {| VideoEditor.fanState := _ |}) in *.
    unfold VideoEditor.fanOut in *.
    assert (Hrej : VideoEditor.rejected
                     (foldl (VideoEditor.settle env (VideoEditor.prompt s) diff
                               (length (VideoEditor.extractedFrames s)))
                        start (VideoEditor.completionOrder env)) = true).
    { eapply run_rejects; [|exact Hdispatched|apply Hrefused|exact Hdone].
      simpl. rewrite dispatch_keys. apply NoDup_seq. }
    destruct (run_rejection env (VideoEditor.prompt s) diff _
                (VideoEditor.completionOrder env) start eq_refl Hrej)
      as (k' & frame' & e & Hin & Hthrown & Hstep & _ & Herr).
    split; [exact Hstep|]. split; [|split].
    + rewrite Hmirror, Hrest. f_equal.
      destruct rest as [|extra rest]; [done|exfalso].
      rewrite Hrest in Hprov, Hnd.
      apply Forall_cons in Hprov as [_ Hprov]. apply Forall_cons in Hprov as [Hextra _].
      destruct Hextra as [->|(fr & _ & _ & _ & Hok)].
      * simpl in Hnd. apply NoDup_cons in Hnd as [Hnot _]. apply Hnot. by left.
      * rewrite Hrefused in Hok. discriminate.
    + exists k'. simpl in Hin. apply (elem_of_dispatch firstFrame) in Hin as [Hk1 Hlook].
      apply lookup_lt_Some in Hlook. split; [rewrite Hex; simpl in *; lia|].
      rewrite Herr. rewrite Hrefused in Hthrown. by injection Hthrown as <-.
    + intros attempt frames. rewrite Hevents. by apply reassembly_not_in_front.
  - exfalso. set (start := {| VideoEditor.fanState := _ |}) in *.
    unfold VideoEditor.fanOut in *.
    rewrite (run_rejects env (VideoEditor.prompt s) diff _ k frame (statusText 400)
               (VideoEditor.completionOrder env) start) in Hrej; [discriminate| | | |].
    + simpl. rewrite dispatch_keys. apply NoDup_seq.
    + exact Hdispatched.
    + apply Hrefused.
    + exact Hdone.
Qed.

Lemma overlong_prompt_fails_every_remaining_frame_witness :
  VideoEditor.currentStep
    (VideoEditor.handleProcessFrames (Examples.routedSession [2; 1]%nat) (Examples.wordy 3)).1
  = VideoEditor.preview_frames.
Proof.
  apply (overlong_prompt_fails_every_remaining_frame
           (Examples.routedSession [2; 1]%nat) Examples.editServer Examples.reasonPhrase
           (Examples.wordy 3)
           {| ExtractFramesRoute.index := 0;
              ExtractFramesRoute.timestamp := inject_Z 0;
              ExtractFramesRoute.filename := lit "frame_1b4e28ba_0.png";
              ExtractFramesRoute.base64 := lit "data:image/png;base64,0" |}
           (tail (Examples.extracted 3)) (lit "https://fal.media/0")
           (lit "Add aviator sunglasses")).
  - reflexivity.
  - vm_compute. reflexivity.
  - vm_compute. reflexivity.
  - vm_compute. reflexivity.
  - reflexivity.
  - exists 2%nat. split; [vm_compute; lia|]. apply (bool_decide_unpack _). vm_compute. exact I.
Defined.

(** ** The two variants of the extraction route *)

Section ExtractionVariants.
Import ExtractFramesRoute.

Variable env : Env.
Variable file : jsstring.
Variable m : Metadata.
Variable interval : Z.

(** The sequential loop pushes what the parallel batch returns. *)
Lemma extractLoop_extractAll (n : nat) : forall i acc,
  extractLoop env file m interval n i acc
  = (fun new => acc ++ new)
      <$> extractAll env file
            ((fun i => (i, timestampOf m interval i, frameFilename env i)) <$> seq i n).
Proof.
  unfold extractAll.
  induction n as [|n IH]; intros i acc; cbn [extractLoop seq fmap list_fmap mapM].
  - simpl. by rewrite app_nil_r.
  - destruct (ffmpegFrame env file (timestampOf m interval i)) as [b64|]; [|done].
    rewrite IH. cbn [mbind option_bind mret option_ret].
    destruct (mapM _ _) as [frames|]; [|done].
    simpl. by rewrite <- app_assoc.
Qed.

Lemma extractAll_frames (n : nat) (frames : list FrameData) (k : nat) (f : FrameData) :
  extractAll env file (frameInfos env m interval n) = Some frames ->
  frames !! k = Some f ->
  (k < n)%nat
  /\ exists b64,
       ffmpegFrame env file (timestampOf m interval k) = Some b64
       /\ f = {| index := k; timestamp := timestampOf m interval k;
                 filename := frameFilename env k; base64 := dataUri b64 |}.
Proof.
  unfold extractAll, frameInfos. intros Hall Hk.
  apply mapM_Some_1 in Hall.
  destruct (Forall2_lookup_r _ _ _ _ _ Hall Hk) as ([[i ts] name] & Hinfo & Hf).
  rewrite list_lookup_fmap in Hinfo.
  destruct (seq 0 n !! k) as [j|] eqn:Hj; [|discriminate].
  apply lookup_seq in Hj as [-> Hlt]. simpl in Hinfo. injection Hinfo as <- <- <-.
  split; [done|].
  destruct (ffmpegFrame env file (timestampOf m interval k)) as [b64|]; [|discriminate].
  injection Hf as <-. by exists b64.
Qed.

End ExtractionVariants.

(** Whether the frames are extracted one after the other or all at once
    makes no difference to the answer. *)
Lemma handler_variants (parallel : bool) (env : ExtractFramesRoute.Env)
    (file : option jsstring) (interval maxFrames : option Z) :
  ExtractFramesRoute.handler parallel env file interval maxFrames
  = ExtractFramesRoute.handler true env file interval maxFrames.
Proof.
  destruct parallel; [done|]. unfold ExtractFramesRoute.handler.
  destruct file as [file|]; [|done].
  destruct (ExtractFramesRoute.ffprobe env file) as [m|]; [|done].
  cbv zeta. rewrite extractLoop_extractAll. unfold ExtractFramesRoute.frameInfos.
  by destruct (ExtractFramesRoute.extractAll _ _ _).
Qed.


Lemma startsWith_dataUri (b64 : jsstring) :
  startsWith (ExtractFramesRoute.dataUri b64) (lit "data:image/") = true
  /\ startsWith (ExtractFramesRoute.dataUri b64) (lit "data:") = true.
Proof. split; reflexivity. Qed.

(** X11: in a 200 answer of the extraction route (either variant)
    the frame at position [k] has index [k], the file name made of the
    request's id and [k], and as image the PNG data URI of what ffmpeg
    extracted at the frame's timestamp; such an image passes the checks
    of the edit route exactly when it is at most 10 MB long. *)
Theorem extracted_frames_are_accepted_by_the_edit_route
    (parallel : bool) (env : ExtractFramesRoute.Env) (file : jsstring)
    (interval maxFrames : option Z) (frames : list ExtractFramesRoute.FrameData)
    (m : ExtractFramesRoute.Metadata) (k : nat) (f : ExtractFramesRoute.FrameData) :
  ExtractFramesRoute.handler parallel env (Some file) interval maxFrames
  = ExtractFramesRoute.Json200 frames m ->
  frames !! k = Some f ->
  ExtractFramesRoute.index f = k
  /\ ExtractFramesRoute.filename f = ExtractFramesRoute.frameFilename env k
  /\ (exists b64,
        ExtractFramesRoute.ffmpegFrame env file (ExtractFramesRoute.timestamp f) = Some b64
        /\ ExtractFramesRoute.base64 f = lit "data:image/png;base64," ++ b64)
  /\ (forall i, EditFrameRoute.imageError i (ExtractFramesRoute.base64 f) = None
                <-> len (ExtractFramesRoute.base64 f) <= 10 * 1024 * 1024).
Proof.
  intros Hrun Hk.
  assert (Hseq : ExtractFramesRoute.handler true env (Some file) interval maxFrames
                 = ExtractFramesRoute.Json200 frames m).
  { by rewrite <- (handler_variants parallel). }
  clear Hrun. unfold ExtractFramesRoute.handler in Hseq.
  destruct (ExtractFramesRoute.ffprobe env file) as [m'|]; [|discriminate].
  cbv zeta in Hseq.
  destruct (ExtractFramesRoute.extractAll _ _ _) as [frames'|] eqn:Hall; [|discriminate].
  injection Hseq as -> ->.
  destruct (extractAll_frames _ _ _ _ _ _ _ _ Hall Hk) as (_ & b64 & Hb & ->).
  cbn [ExtractFramesRoute.index ExtractFramesRoute.filename ExtractFramesRoute.timestamp
         ExtractFramesRoute.base64].
  split; [done|]. split; [done|]. split; [by exists b64|].
  intros i. rewrite imageError_None.
  destruct (startsWith_dataUri b64) as [-> ->]. intuition.
Qed.

Lemma extracted_frames_are_accepted_by_the_edit_route_witness :
  EditFrameRoute.imageError 0 (lit "data:image/png;base64,iVBORw0KGgo=") = None
  <-> len (lit "data:image/png;base64,iVBORw0KGgo=") <= 10 * 1024 * 1024.
Proof.
  apply (extracted_frames_are_accepted_by_the_edit_route false Examples.clipEnv (lit "clip.mp4")
           None None
           match ExtractFramesRoute.POST Examples.clipEnv (Some (lit "clip.mp4")) None None with
           | ExtractFramesRoute.Json200 frames _ => frames
           | _ => []
           end
           Examples.clipMetadata 1
           {| ExtractFramesRoute.index := 1;
              ExtractFramesRoute.timestamp :=
                ExtractFramesRoute.timestampOf Examples.clipMetadata 30 1;
              ExtractFramesRoute.filename := lit "frame_1b4e28ba_1.png";
              ExtractFramesRoute.base64 := lit "data:image/png;base64,iVBORw0KGgo=" |}).
  - vm_compute. reflexivity.
  - vm_compute. reflexivity.
Defined.

(** ** [handleExtractFrames] *)

Section ExtractHandler.
Import VideoEditor.

Variable parallel : bool.
Variable server : ExtractFramesRoute.Env.
Variable videoFile : jsstring.
Variable frameInterval : Z.
Variable maxFrames : option Z.
Variable s : State.

Hypothesis prompted : trim (prompt s) <> [].

Local Abbreviation sent :=
  (match maxFrames with
   | Some 0 | None => 10
   | Some m => m
   end).

(** The handler with a prompt: the form fields that reach the route, and
    what becomes of its answer. *)
Lemma handleExtractFrames_run :
  handleExtractFrames (ExtractFramesRoute.handler parallel server) videoFile frameInterval
    maxFrames s
  = match ExtractFramesRoute.handler true server (Some videoFile) (Some frameInterval)
            (Some sent) with
    | ExtractFramesRoute.Json200 frames _ =>
        setIsProcessing false
          (setCurrentStep editing
             (setExtractedFrames frames
                (setCurrentStep extracting (setError None (setIsProcessing true s)))))
    | ExtractFramesRoute.Err400 =>
        setIsProcessing false
          (setCurrentStep setup
             (setError (Some (lit "No video file provided"))
                (setCurrentStep extracting (setError None (setIsProcessing true s)))))
    | ExtractFramesRoute.Err500 =>
        setIsProcessing false
          (setCurrentStep setup
             (setError (Some (lit "Failed to extract frames"))
                (setCurrentStep extracting (setError None (setIsProcessing true s)))))
    end.
Proof.
  unfold handleExtractFrames.
  destruct (trim (prompt s)) as [|c p]; [done|]. cbv zeta.
  unfold VideoProcessor.extractFrames. cbv zeta.
  assert (Hsent : default 10 match maxFrames with
                             | Some 0 | None => None
                             | Some m => Some m
                             end = sent)
    by (by destruct maxFrames as [[| |]|]).
  rewrite Hsent. cbn [default]. rewrite (handler_variants parallel).
  by destruct (ExtractFramesRoute.handler true server _ _ _).
Qed.

End ExtractHandler.

(** X12: with the frame limit of the setup step left empty (or set
    to 0) the extraction request asks for ten frames: the handler ends
    either on the editing step, without error and holding at most ten
    frames, or on the setup step with the route's error message and the
    frames it held before. *)
Theorem empty_frame_limit_means_ten (parallel : bool) (server : ExtractFramesRoute.Env)
    (videoFile : jsstring) (frameInterval : Z) (maxFrames : option Z) (s : VideoEditor.State) :
  trim (VideoEditor.prompt s) <> [] ->
  maxFrames = None \/ maxFrames = Some 0 ->
  VideoEditor.isProcessing
    (VideoEditor.handleExtractFrames (ExtractFramesRoute.handler parallel server) videoFile
       frameInterval maxFrames s) = false
  /\ ((VideoEditor.currentStep
         (VideoEditor.handleExtractFrames (ExtractFramesRoute.handler parallel server) videoFile
            frameInterval maxFrames s) = VideoEditor.editing
       /\ VideoEditor.error
            (VideoEditor.handleExtractFrames (ExtractFramesRoute.handler parallel server)
               videoFile frameInterval maxFrames s) = None
       /\ (length (VideoEditor.extractedFrames
                     (VideoEditor.handleExtractFrames (ExtractFramesRoute.handler parallel server)
                        videoFile frameInterval maxFrames s)) <= 10)%nat)
      \/ (VideoEditor.currentStep
            (VideoEditor.handleExtractFrames (ExtractFramesRoute.handler parallel server)
               videoFile frameInterval maxFrames s) = VideoEditor.setup
          /\ VideoEditor.error
               (VideoEditor.handleExtractFrames (ExtractFramesRoute.handler parallel server)
                  videoFile frameInterval maxFrames s) = Some (lit "Failed to extract frames")
          /\ VideoEditor.extractedFrames
               (VideoEditor.handleExtractFrames (ExtractFramesRoute.handler parallel server)
                  videoFile frameInterval maxFrames s) = VideoEditor.extractedFrames s)).
Proof.
  intros Hprompt Hlimit. rewrite handleExtractFrames_run by done.
  assert (Hsent : match maxFrames with
                  | Some 0 | None => 10
                  | Some m => m
                  end = 10) by (by destruct Hlimit as [-> | ->]).
  rewrite Hsent. unfold ExtractFramesRoute.handler.
  destruct (ExtractFramesRoute.ffprobe server videoFile) as [m|]; [|split; [done|by right]].
  cbv zeta.
  destruct (ExtractFramesRoute.extractAll _ _ _) as [frames|] eqn:Hall;
    [|split; [done|by right]].
  split; [done|]. left. split; [done|]. split; [done|].
  cbn [VideoEditor.extractedFrames VideoEditor.setIsProcessing VideoEditor.setCurrentStep
         VideoEditor.setExtractedFrames].
  apply length_mapM in Hall. rewrite <- Hall. unfold ExtractFramesRoute.frameInfos.
  rewrite length_fmap, length_seq.
  unfold ExtractFramesRoute.framesToExtract, ExtractFramesRoute.formNumber. lia.
Qed.

Lemma empty_frame_limit_means_ten_witness :
  VideoEditor.isProcessing
    (VideoEditor.handleExtractFrames (ExtractFramesRoute.handler false Examples.clipEnv)
       (lit "clip.mp4") 1 None (Examples.ready 0)) = false.
Proof.
  apply (empty_frame_limit_means_ten false Examples.clipEnv (lit "clip.mp4") 1 None
           (Examples.ready 0)).
  - vm_compute. discriminate.
  - by left.
Defined.

(** X13: a clip with fewer frames than one sampling interval is
    extracted "successfully" into no frame at all: the component is on
    the editing step without an error, nothing starts by itself, and
    "Retry Editing" only reports that there are no frames. *)
Theorem short_clip_strands_the_editing_step (parallel : bool) (server : ExtractFramesRoute.Env)
    (videoFile : jsstring) (frameInterval : Z) (maxFrames : option Z) (s : VideoEditor.State)
    (m : ExtractFramesRoute.Metadata) (env : VideoEditor.Env) :
  trim (VideoEditor.prompt s) <> [] ->
  ExtractFramesRoute.ffprobe server videoFile = Some m ->
  ExtractFramesRoute.totalFrames m < Z.max 1 frameInterval ->
  VideoEditor.currentStep
    (VideoEditor.handleExtractFrames (ExtractFramesRoute.handler parallel server) videoFile
       frameInterval maxFrames s) = VideoEditor.editing
  /\ VideoEditor.extractedFrames
       (VideoEditor.handleExtractFrames (ExtractFramesRoute.handler parallel server) videoFile
          frameInterval maxFrames s) = []
  /\ VideoEditor.error
       (VideoEditor.handleExtractFrames (ExtractFramesRoute.handler parallel server) videoFile
          frameInterval maxFrames s) = None
  /\ VideoEditor.autoStarts
       (VideoEditor.handleExtractFrames (ExtractFramesRoute.handler parallel server) videoFile
          frameInterval maxFrames s) = false
  /\ VideoEditor.handleRetryEditing env
       (VideoEditor.handleExtractFrames (ExtractFramesRoute.handler parallel server) videoFile
          frameInterval maxFrames s)
     = (VideoEditor.setError
          (Some (lit "No frames available to process. Please extract frames first."))
          (VideoEditor.handleExtractFrames (ExtractFramesRoute.handler parallel server)
             videoFile frameInterval maxFrames s),
        []).
Proof.
  intros Hprompt Hprobe Hshort. rewrite handleExtractFrames_run by done.
  unfold ExtractFramesRoute.handler. rewrite Hprobe. cbv zeta.
  assert (Hnone : Z.to_nat (ExtractFramesRoute.framesToExtract m
                              (ExtractFramesRoute.formNumber (Some frameInterval) 30)
                              (ExtractFramesRoute.formNumber
                                 (Some match maxFrames with
                                       | Some 0 | None => 10
                                       | Some k => k
                                       end) 10)) = 0%nat).
  { unfold ExtractFramesRoute.framesToExtract, ExtractFramesRoute.formNumber,
      ExtractFramesRoute.frameInterval.
    assert (ExtractFramesRoute.totalFrames m / Z.max 1 frameInterval < 1)
      by (apply Z.div_lt_upper_bound; lia).
    lia. }
  rewrite Hnone. cbn. split; [done|]. split; [done|]. split; [done|]. split; [|done].
  apply autoStarts_false. right; by left.
Qed.

Lemma short_clip_strands_the_editing_step_witness :
  VideoEditor.extractedFrames
    (VideoEditor.handleExtractFrames (ExtractFramesRoute.handler false Examples.clipEnv)
       (lit "clip.mp4") 90 None (Examples.ready 0)) = [].
Proof.
  apply (short_clip_strands_the_editing_step false Examples.clipEnv (lit "clip.mp4") 90 None
           (Examples.ready 0) Examples.clipMetadata (Examples.session [] [] [])).
  - vm_compute. discriminate.
  - reflexivity.
  - vm_compute. reflexivity.
Defined.

(** ** The files of the staging directory *)

Section StagedFiles.
Import Fs ReassembleRoute.

(** Operations below a directory rewrite that directory's entry. *)
Lemma orWarn_unlink_sub (d n : jsstring) (es : gmap jsstring jsstring) (fs : FS) :
  fs !! d = Some (Dir es) ->
  orWarn (unlink (Sub d n) fs) fs = <[d := Dir (delete n es)]> fs.
Proof.
  intros Hd. unfold unlink. rewrite Hd.
  destruct (es !! n) as [c|] eqn:Hn; simpl; [done|].
  by rewrite delete_id, insert_id.
Qed.

Lemma orWarn_writeFile_sub (d n content : jsstring) (es : gmap jsstring jsstring) (fs : FS) :
  fs !! d = Some (Dir es) ->
  orWarn (writeFile (Sub d n) content fs) fs = <[d := Dir (<[n := content]> es)]> fs.
Proof. intros Hd. unfold writeFile. by rewrite Hd. Qed.

Lemma orWarn_unlink_top_dir (d : jsstring) (es : gmap jsstring jsstring) (fs : FS) :
  fs !! d = Some (Dir es) -> orWarn (unlink (Top d) fs) fs = fs.
Proof. intros Hd. unfold unlink. by rewrite Hd. Qed.

Lemma lookup_foldl_delete (names : list jsstring) : forall (es : gmap jsstring jsstring) k,
  foldl (fun es n => delete n es) es names !! k
  = if decide (k ∈ names) then None else es !! k.
Proof.
  induction names as [|n names IH]; intros es k; cbn [foldl].
  - destruct (decide (k ∈ [])) as [Hin|_]; [by apply elem_of_nil in Hin|done].
  - rewrite IH. destruct (decide (k ∈ names)) as [Hin|Hnot].
    + rewrite decide_True; [done|by right].
    + destruct (decide (k = n)) as [->|Hne].
      * rewrite decide_True by (by left). apply lookup_delete_eq.
      * rewrite decide_False by (intros [?|?]%elem_of_cons; done).
        by apply lookup_delete_ne.
Qed.

Lemma unlinkAll_sub (d : jsstring) (names : list jsstring) :
  forall (es : gmap jsstring jsstring) (fs : FS),
    fs !! d = Some (Dir es) ->
    unlinkAll (Sub d <$> names) fs
    = <[d := Dir (foldl (fun es n => delete n es) es names)]> fs.
Proof.
  unfold unlinkAll. induction names as [|n names IH]; intros es fs Hd;
    cbn [fmap list_fmap foldl].
  - by rewrite insert_id.
  - rewrite (orWarn_unlink_sub d n es fs Hd).
    rewrite (IH (delete n es)) by apply lookup_insert_eq.
    by rewrite insert_insert_eq.
Qed.

Variable env : Env.

Local Abbreviation dir := (tempDirName env).

(** The error cleanup removes every file of the staging directory. *)
Lemma errorCleanup_empties (video : option jsstring) (es : gmap jsstring jsstring) (fs : FS) :
  fs !! dir = Some (Dir es) ->
  errorCleanup env (Sub dir <$> video) fs = <[dir := Dir ∅]> fs.
Proof.
  intros Hd. unfold errorCleanup.
  assert (Hex : existsSync (Top dir) fs = true)
    by (simpl; rewrite Hd; by apply bool_decide_eq_true_2).
  rewrite Hex. unfold readdirSync. rewrite Hd.
  assert (Hvideo : exists es', match Sub dir <$> video with
                               | Some p => orWarn (unlink p fs) fs
                               | None => fs
                               end = <[dir := Dir es']> fs
                               /\ forall k, es' !! k <> None -> es !! k <> None).
  { destruct video as [out|]; simpl.
    - exists (delete out es). split; [by apply orWarn_unlink_sub|].
      intros k. destruct (decide (k = out)) as [->|Hne].
      + by rewrite lookup_delete_eq.
      + by rewrite lookup_delete_ne.
    - exists es. by rewrite insert_id. }
  destruct Hvideo as (es' & -> & Hsub).
  rewrite (unlinkAll_sub dir _ es') by apply lookup_insert_eq.
  rewrite insert_insert_eq.
  assert (Hempty : foldl (fun es n => delete n es) es' (elements (dom es)) = ∅).
  { apply map_empty. intros k. rewrite lookup_foldl_delete.
    destruct (decide (k ∈ elements (dom es))) as [_|Hnot]; [done|].
    rewrite elem_of_elements, not_elem_of_dom in Hnot.
    destruct (es' !! k) eqn:Hk; [|done]. exfalso. apply (Hsub k); [by rewrite Hk|done]. }
  rewrite Hempty.
  assert (Hex' : existsSync (Top dir) (<[dir := Dir ∅]> fs) = true)
    by (simpl; rewrite lookup_insert_eq; by apply bool_decide_eq_true_2).
  rewrite Hex'. by rewrite (orWarn_unlink_top_dir dir ∅) by apply lookup_insert_eq.
Qed.

(** Staging rewrites the entry of the staging directory, leaving the
    names that are not frame files alone. *)
Lemma stageAll_entries (frames : list Frame) :
  forall i (es : gmap jsstring jsstring) (fs fs' : FS) paths,
    fs !! dir = Some (Dir es) ->
    stageAll env i frames fs = Ok (fs', paths) ->
    exists es',
      fs' = <[dir := Dir es']> fs
      /\ forall name, es' !! name <> None ->
           es !! name <> None \/ name ∈ frameFilename <$> seq i (length frames).
Proof.
  induction frames as [|frame frames IH]; intros i es fs fs' paths Hd; cbn [stageAll].
  - intros [= <- <-]. exists es. split; [by rewrite insert_id|]. intros name Hn. by left.
  - destruct (frameBuffer env frame i) as [buf|]; [|discriminate].
    pose proof (orWarn_writeFile_sub dir (frameFilename i) buf es fs Hd) as Hw.
    unfold framePath.
    destruct (writeFile (Sub dir (frameFilename i)) buf fs) as [e|fs1] eqn:Hwrite;
      [discriminate|].
    simpl in Hw. subst fs1.
    destruct (stageAll env (S i) frames _) as [[fs2 ps]|] eqn:Hrest; [|discriminate].
    intros [= <- <-].
    destruct (IH (S i) (<[frameFilename i := buf]> es) _ _ _ (lookup_insert_eq _ _ _) Hrest)
      as (es' & -> & Hnames).
    exists es'. split; [by rewrite insert_insert_eq|].
    intros name Hn. cbn [length seq fmap list_fmap].
    destruct (Hnames name Hn) as [Hold|Hnew]; [|right; by right].
    destruct (decide (name = frameFilename i)) as [->|Hne]; [right; by left|].
    left. by rewrite lookup_insert_ne in Hold.
Qed.

Lemma stageSome_entries (sel : nat -> bool) (frames : list Frame) :
  forall i (es : gmap jsstring jsstring) (fs : FS),
    fs !! dir = Some (Dir es) ->
    exists es', stageSome env sel i frames fs = <[dir := Dir es']> fs.
Proof.
  induction frames as [|frame frames IH]; intros i es fs Hd; cbn [stageSome].
  - exists es. by rewrite insert_id.
  - destruct (frameBuffer env frame i) as [buf|]; [|by apply (IH _ es)].
    destruct (sel i); [|by apply (IH _ es)].
    unfold framePath. rewrite (orWarn_writeFile_sub dir _ buf es fs Hd).
    destruct (IH (S i) (<[frameFilename i := buf]> es)
                (<[dir := Dir (<[frameFilename i := buf]> es)]> fs) (lookup_insert_eq _ _ _))
      as (es' & ->).
    exists es'. by rewrite insert_insert_eq.
Qed.

Lemma stageSome_none (sel : nat -> bool) (frames : list Frame) : forall i (fs : FS),
  (forall j, (i <= j < i + length frames)%nat -> sel j = false) ->
  stageSome env sel i frames fs = fs.
Proof.
  induction frames as [|frame frames IH]; intros i fs Hsel; cbn [stageSome]; [done|].
  rewrite (Hsel i) by (simpl; lia).
  rewrite IH; [by destruct (frameBuffer env frame i)|].
  intros j Hj. apply Hsel. simpl. lia.
Qed.

End StagedFiles.

(** X14: on a server where the session's directory name is free,
    every file the reassembly route writes is removed again, on the
    success path and on every failure path: when the route has answered,
    the temporary directory holds what it held before plus the empty
    staging directory. The one exception is a request in which a frame
    failed while the write of another had not yet reached the disk when
    the error cleanup listed the directory. *)
Theorem reassembly_removes_the_files_it_staged (env : ReassembleRoute.Env)
    (frame : ReassembleRoute.Frame) (frames : list ReassembleRoute.Frame)
    (fps : option Z) (outputFormat : option jsstring) (fs : gmap jsstring Fs.Node) :
  fs !! ReassembleRoute.tempDirName env = None ->
  (ReassembleRoute.POST env (Some (frame :: frames)) fps outputFormat fs).2
  = <[ReassembleRoute.tempDirName env := Fs.Dir ∅]> fs
  \/ exists i e,
       (i < length (frame :: frames))%nat
       /\ ReassembleRoute.landed env i = false
       /\ (ReassembleRoute.POST env (Some (frame :: frames)) fps outputFormat fs).1
          = ReassembleRoute.Err500 e.
Proof.
  intros Hfree. unfold ReassembleRoute.POST.
  set (dir := ReassembleRoute.tempDirName env) in *.
  set (out := ReassembleRoute.outputFilename env (default (lit "mp4") outputFormat)).
  assert (Hex : Fs.existsSync (Fs.Top dir) fs = false).
  { simpl. rewrite Hfree. apply bool_decide_eq_false. by intros [? ?]. }
  rewrite Hex. unfold Fs.mkdir. rewrite Hfree.
  set (fs1 := <[dir := Fs.Dir ∅]> fs).
  assert (H1 : fs1 !! dir = Some (Fs.Dir ∅)) by apply lookup_insert_eq.
  destruct (ReassembleRoute.stageAll env 0 (frame :: frames) fs1) as [[fs2 paths]|e] eqn:Hstage.
  - left.
    destruct (stageAll_entries env _ _ _ _ _ _ H1 Hstage) as (es2 & -> & Hnames).
    apply stageAll_paths in Hstage. subst paths fs1.
    rewrite insert_insert_eq.
    set (fs2 := <[dir := Fs.Dir es2]> fs).
    assert (H2 : fs2 !! dir = Some (Fs.Dir es2)) by apply lookup_insert_eq.
    destruct (ReassembleRoute.ffmpeg env _ _) as [video|partialOutput e].
    + rewrite (orWarn_writeFile_sub dir out video es2 fs2 H2).
      unfold fs2. rewrite insert_insert_eq.
      set (fs3 := <[dir := Fs.Dir (<[out := video]> es2)]> fs).
      assert (H3 : fs3 !! dir = Some (Fs.Dir (<[out := video]> es2))) by apply lookup_insert_eq.
      assert (Hread : Fs.readFile (Fs.Sub dir out) fs3 = inr video)
        by (unfold Fs.readFile; by rewrite H3, lookup_insert_eq).
      rewrite Hread. cbn [snd]. unfold ReassembleRoute.successCleanup.
      change (ReassembleRoute.framePath env) with (Fs.Sub dir ∘ ReassembleRoute.frameFilename).
      rewrite list_fmap_compose.
      rewrite (unlinkAll_sub dir _ _ fs3 H3). unfold fs3. rewrite insert_insert_eq.
      rewrite (orWarn_unlink_sub dir out _ _ (lookup_insert_eq _ _ _)).
      rewrite insert_insert_eq.
      rewrite (orWarn_unlink_top_dir dir _ _ (lookup_insert_eq _ _ _)).
      f_equal. f_equal. apply map_empty. intros k.
      destruct (decide (k = out)) as [->|Hne]; [apply lookup_delete_eq|].
      rewrite lookup_delete_ne by done. rewrite lookup_foldl_delete.
      destruct (decide (k ∈ _)) as [_|Hnot]; [done|].
      rewrite lookup_insert_ne by done.
      destruct (es2 !! k) eqn:Hk; [exfalso|done].
      destruct (Hnames k) as [Hold|Hnew]; [by rewrite Hk|by rewrite lookup_empty in Hold|done].
    + cbn [snd].
      assert (H3 : exists es3,
                match partialOutput with
                | Some bytes => Fs.orWarn (Fs.writeFile (Fs.Sub dir out) bytes fs2) fs2
                | None => fs2
                end = <[dir := Fs.Dir es3]> fs).
      { destruct partialOutput as [bytes|].
        - rewrite (orWarn_writeFile_sub dir out bytes es2 fs2 H2). unfold fs2.
          rewrite insert_insert_eq. by eexists.
        - by eexists. }
      destruct H3 as [es3 ->].
      change (Some (Fs.Sub dir out)) with (Fs.Sub dir <$> Some out).
      rewrite (errorCleanup_empties env (Some out) es3) by apply lookup_insert_eq.
      by rewrite insert_insert_eq.
  - cbn [fst snd].
    destruct (stageSome_entries env (ReassembleRoute.landed env) (frame :: frames) 0 ∅ fs1 H1)
      as [esa Hsome].
    rewrite Hsome. unfold fs1. rewrite insert_insert_eq.
    change (@None Fs.Path) with (Fs.Sub dir <$> @None jsstring).
    rewrite (errorCleanup_empties env None esa) by apply lookup_insert_eq.
    rewrite insert_insert_eq.
    destruct (decide (Forall (fun j => ReassembleRoute.landed env j = true)
                        (seq 0 (length (frame :: frames))))) as [Hall|Hnot].
    + left. apply stageSome_none. intros j Hj.
      rewrite Forall_forall in Hall. rewrite (Hall j); [done|]. apply elem_of_seq. lia.
    + right. apply not_Forall_Exists in Hnot; [|intros j; apply _].
      apply Exists_exists in Hnot as (j & Hj & Hlate). apply elem_of_seq in Hj.
      exists j, e. split; [lia|]. split; [|done]. by apply not_true_is_false.
Qed.

Lemma reassembly_removes_the_files_it_staged_witness :
  (ReassembleRoute.POST Examples.brokenEncoder
     (Some [Examples.urlFrame (lit "a"); Examples.urlFrame (lit "b")]) None None ∅).2
  = {[ lit "video_reassemble_9f3c" := Fs.Dir ∅ ]}.
Proof.
  destruct (reassembly_removes_the_files_it_staged Examples.brokenEncoder
              (Examples.urlFrame (lit "a")) [Examples.urlFrame (lit "b")] None None ∅)
    as [Hclean|(i & e & _ & Hlate & _)].
  - reflexivity.
  - exact Hclean.
  - discriminate Hlate.
Defined.

(** ** The names of the staged frames *)

Lemma lit_inj (s t : string) : lit s = lit t -> s = t.
Proof.
  revert t. induction s as [|a s IH]; intros [|b t] H; try discriminate; [done|].
  injection H as Hab Hst. f_equal; [|by apply IH].
  rewrite <- (ascii_N_embedding a), <- (ascii_N_embedding b). by rewrite Hab.
Qed.

(** A decimal numeral has no leading zero. *)
Lemma pretty_N_go_head (x : N) : forall s,
  (0 < x)%N -> exists c r, pretty_N_go x s = String c r /\ c <> "0"%char.
Proof.
  induction (N.lt_wf_0 x) as [x _ IH]; intros s Hx.
  rewrite pretty_N_go_step by done.
  destruct (decide (x `div` 10 = 0)%N) as [Hz|Hnz].
  - rewrite Hz, pretty_N_go_0. eexists _, _. split; [done|].
    assert (Hsmall : (x < 10)%N) by (by apply N.div_small_iff in Hz).
    rewrite N.mod_small by done.
    intros Hc. apply (pretty_N_char_inj x 0) in Hc; lia.
  - apply IH; [by apply N.div_lt|by apply N.neq_0_lt_0].
Qed.

Lemma toString_head (n : nat) :
  exists c r, toString n = c :: r /\ (c = 48%N -> n = 0%nat /\ r = []).
Proof.
  unfold toString, pretty, pretty_nat, pretty, pretty_N.
  destruct (decide (N.of_nat n = 0)%N) as [Hz|Hnz].
  - exists 48%N, []. split; [done|]. intros _. split; [lia|done].
  - destruct (pretty_N_go_head (N.of_nat n) EmptyString) as (c & r & -> & Hc); [lia|].
    exists (N_of_ascii c), (lit r). split; [done|]. intros H48. exfalso. apply Hc.
    rewrite <- (ascii_N_embedding c), H48. reflexivity.
Qed.

Lemma toString_inj (i j : nat) : toString i = toString j -> i = j.
Proof. unfold toString. intros H%lit_inj. by apply (inj pretty). Qed.

(** Padding the shorter of two numerals puts a zero where the longer one
    starts. *)
Lemma padStart0_shorter (k : nat) (a b : jsstring) (cb : N) (rb : jsstring) :
  b = cb :: rb -> (length a < length b)%nat ->
  padStart0 k a = padStart0 k b -> cb = 48%N.
Proof.
  unfold padStart0. intros -> Hlt Heq.
  assert (Hlen : (k - length a + length a = k - length (cb :: rb) + length (cb :: rb))%nat).
  { apply (f_equal length) in Heq. by rewrite !length_app, !length_replicate in Heq. }
  assert (Hat : (replicate (k - length a) 48%N ++ a) !! (k - length (cb :: rb))%nat
                = Some 48%N).
  { rewrite lookup_app_l by (rewrite length_replicate; lia).
    apply lookup_replicate_2. lia. }
  rewrite Heq, lookup_app_r in Hat by (rewrite length_replicate; lia).
  rewrite length_replicate, Nat.sub_diag in Hat. by injection Hat.
Qed.

Lemma padStart0_toString_inj (k i j : nat) :
  padStart0 k (toString i) = padStart0 k (toString j) -> i = j.
Proof.
  intros Heq.
  destruct (toString_head i) as (ca & ra & Ha & Hza).
  destruct (toString_head j) as (cb & rb & Hb & Hzb).
  destruct (lt_eq_lt_dec (length (toString i)) (length (toString j))) as [[Hlt|Hsame]|Hgt].
  - destruct (Hzb (padStart0_shorter k _ _ cb rb Hb Hlt Heq)) as [_ ->].
    rewrite Ha, Hb in Hlt. simpl in Hlt. lia.
  - apply toString_inj. unfold padStart0 in Heq. rewrite Hsame in Heq.
    by apply app_inv_head in Heq.
  - symmetry in Heq.
    destruct (Hza (padStart0_shorter k _ _ ca ra Ha Hgt Heq)) as [_ ->].
    rewrite Ha, Hb in Hgt. simpl in Hgt. lia.
Qed.

Lemma frameFilename_inj (i j : nat) :
  ReassembleRoute.frameFilename i = ReassembleRoute.frameFilename j -> i = j.
Proof.
  unfold ReassembleRoute.frameFilename. intros H.
  apply app_inv_head, app_inv_tail in H. by apply padStart0_toString_inj in H.
Qed.

(** ** What the encoder is given *)

Section EncoderInput.
Import Fs ReassembleRoute.

Variable env : Env.

Local Abbreviation dir := (tempDirName env).

(** Staging succeeds when every frame has a buffer. *)
Lemma stageAll_succeeds (frames : list Frame) :
  forall i (es : gmap jsstring jsstring) (fs : FS),
    fs !! dir = Some (Dir es) ->
    (forall k frame, frames !! k = Some frame -> exists buf,
        frameBuffer env frame (i + k) = Ok buf) ->
    exists fs' paths, stageAll env i frames fs = Ok (fs', paths).
Proof.
  induction frames as [|frame frames IH]; intros i es fs Hd Hbufs; cbn [stageAll].
  - by eexists _, _.
  - destruct (Hbufs 0%nat frame eq_refl) as [buf Hbuf]. rewrite Nat.add_0_r in Hbuf.
    rewrite Hbuf. unfold framePath, writeFile. rewrite Hd.
    destruct (IH (S i) (<[frameFilename i := buf]> es)
                (<[dir := Dir (<[frameFilename i := buf]> es)]> fs)
                (lookup_insert_eq _ _ _)) as (fs' & paths & ->).
    + intros k fr Hk. rewrite Nat.add_succ_comm. by apply (Hbufs (S k)).
    + by eexists _, _.
Qed.

(** The staged directory holds the buffer of each frame under the name
    of its position. *)
Lemma stageAll_contents (frames : list Frame) :
  forall i (es : gmap jsstring jsstring) (fs fs' : FS) paths,
    fs !! dir = Some (Dir es) ->
    stageAll env i frames fs = Ok (fs', paths) ->
    exists es',
      fs' = <[dir := Dir es']> fs
      /\ (forall k frame, frames !! k = Some frame -> exists buf,
            frameBuffer env frame (i + k) = Ok buf
            /\ es' !! frameFilename (i + k) = Some buf)
      /\ (forall name, name ∉ frameFilename <$> seq i (length frames) ->
            es' !! name = es !! name).
Proof.
  induction frames as [|frame frames IH]; intros i es fs fs' paths Hd; cbn [stageAll].
  - intros [= <- <-]. exists es. split; [by rewrite insert_id|].
    split; [intros k frame Hk; by rewrite lookup_nil in Hk|done].
  - destruct (frameBuffer env frame i) as [buf|] eqn:Hbuf; [|discriminate].
    unfold framePath, writeFile. rewrite Hd.
    destruct (stageAll env (S i) frames _) as [[fs2 ps]|] eqn:Hrest; [|discriminate].
    intros [= <- <-].
    destruct (IH (S i) (<[frameFilename i := buf]> es) _ _ _ (lookup_insert_eq _ _ _) Hrest)
      as (es' & -> & Hframes & Hnames).
    exists es'. split; [by rewrite insert_insert_eq|]. split.
    + intros [|k] fr Hk; simpl in Hk.
      * injection Hk as <-. rewrite Nat.add_0_r. exists buf. split; [done|].
        rewrite Hnames; [apply lookup_insert_eq|].
        intros (j & Hj & Hin%elem_of_seq)%list_elem_of_fmap.
        apply frameFilename_inj in Hj. lia.
      * rewrite <- Nat.add_succ_comm. by apply Hframes.
    + intros name Hname. cbn [length seq fmap list_fmap] in Hname.
      rewrite Hnames by (intros Hin; apply Hname; by right).
      apply lookup_insert_ne. intros <-. apply Hname. by left.
Qed.

Lemma readSequence_reads (bufs : list jsstring) :
  forall (es : gmap jsstring jsstring) i fuel,
    (forall k buf, bufs !! k = Some buf -> es !! frameFilename (i + k) = Some buf) ->
    es !! frameFilename (i + length bufs) = None ->
    (length bufs <= fuel)%nat ->
    readSequence es i fuel = bufs.
Proof.
  induction bufs as [|buf bufs IH]; intros es i fuel Hbufs Hend Hfuel.
  - rewrite Nat.add_0_r in Hend. destruct fuel; [done|]. cbn [readSequence]. by rewrite Hend.
  - destruct fuel as [|fuel]; [simpl in Hfuel; lia|]. cbn [readSequence].
    pose proof (Hbufs 0%nat buf eq_refl) as H0. rewrite Nat.add_0_r in H0. rewrite H0.
    f_equal. apply IH.
    + intros k b Hk. rewrite Nat.add_succ_comm. by apply (Hbufs (S k)).
    + rewrite Nat.add_succ_comm. exact Hend.
    + simpl in Hfuel. lia.
Qed.

End EncoderInput.

(** The answer of the route to a request all of whose frames have a
    buffer. *)
Lemma reassembly_answer (env : ReassembleRoute.Env)
    (frames : list ReassembleRoute.Frame) (bufs : list jsstring)
    (fps : option Z) (outputFormat : option jsstring) (fs : gmap jsstring Fs.Node) :
  fs !! ReassembleRoute.tempDirName env = None ->
  frames <> [] ->
  length bufs = length frames ->
  (forall k frame buf, frames !! k = Some frame -> bufs !! k = Some buf ->
     ReassembleRoute.frameBuffer env frame k = Ok buf) ->
  (ReassembleRoute.POST env (Some frames) fps outputFormat fs).1
  = match ReassembleRoute.ffmpeg env (default 30 fps) bufs with
    | ReassembleRoute.Encoded video =>
        ReassembleRoute.Json200
          (lit "data:video/" ++ default (lit "mp4") outputFormat ++ lit ";base64,"
             ++ ReassembleRoute.encodeBase64 env video)
          (len video)
    | ReassembleRoute.EncodeFailed _ e => ReassembleRoute.Err500 e
    end.
Proof.
  intros Hfree Hne Hlen Hbufs. unfold ReassembleRoute.POST.
  destruct frames as [|frame frames]; [done|].
  set (all := frame :: frames) in *.
  set (dir := ReassembleRoute.tempDirName env) in *.
  assert (Hex : Fs.existsSync (Fs.Top dir) fs = false).
  { simpl. rewrite Hfree. apply bool_decide_eq_false. by intros [? ?]. }
  rewrite Hex. unfold Fs.mkdir. rewrite Hfree.
  set (fs1 := <[dir := Fs.Dir ∅]> fs).
  assert (H1 : fs1 !! dir = Some (Fs.Dir ∅)) by apply lookup_insert_eq.
  destruct (stageAll_succeeds env all 0 ∅ fs1 H1) as (fs2 & paths & Hstage).
  { intros k fr Hk. destruct (bufs !! k) as [buf|] eqn:Hbuf.
    - exists buf. by apply Hbufs.
    - apply lookup_ge_None in Hbuf. apply lookup_lt_Some in Hk. lia. }
  rewrite Hstage.
  destruct (stageAll_contents env all 0 ∅ fs1 fs2 paths H1 Hstage)
    as (es2 & -> & Hframes & Hnames).
  fold dir.
  assert (H2 : (<[dir := Fs.Dir es2]> fs1) !! dir = Some (Fs.Dir es2))
    by apply lookup_insert_eq.
  assert (Hentry : forall k buf, bufs !! k = Some buf ->
                     es2 !! ReassembleRoute.frameFilename k = Some buf).
  { intros k buf Hk. destruct (all !! k) as [fr|] eqn:Hfr.
    - destruct (Hframes k fr Hfr) as (buf' & Hbuf' & Hes). simpl in *.
      rewrite (Hbufs k fr buf Hfr Hk) in Hbuf'. by injection Hbuf' as <-.
    - apply lookup_ge_None in Hfr. apply lookup_lt_Some in Hk. lia. }
  assert (Hinput : ReassembleRoute.sequenceInput env (<[dir := Fs.Dir es2]> fs1) = bufs).
  { unfold ReassembleRoute.sequenceInput. fold dir. rewrite H2.
    apply readSequence_reads.
    - intros k buf Hk. by apply Hentry.
    - simpl. rewrite Hnames, lookup_empty; [done|].
      intros (j & Hj & Hin%elem_of_seq)%list_elem_of_fmap.
      apply frameFilename_inj in Hj. lia.
    - rewrite <- size_dom.
      assert (Hsub : list_to_set (ReassembleRoute.frameFilename <$> seq 0 (length bufs))
                     ⊆ dom es2).
      { intros name (k & -> & Hk%elem_of_seq)%elem_of_list_to_set%list_elem_of_fmap.
        destruct (bufs !! k) as [buf|] eqn:Hbuf.
        - apply elem_of_dom. rewrite (Hentry k buf Hbuf). by eexists.
        - apply lookup_ge_None in Hbuf. lia. }
      apply subseteq_size in Hsub. rewrite size_list_to_set in Hsub.
      + by rewrite length_fmap, length_seq in Hsub.
      + apply NoDup_fmap_2_strong; [|apply NoDup_seq].
        intros i j _ _. apply frameFilename_inj. }
  rewrite Hinput.
  destruct (ReassembleRoute.ffmpeg env (default 30 fps) bufs) as [video|partialOutput e];
    [|done].
  rewrite (orWarn_writeFile_sub dir _ video es2 _ H2).
  unfold Fs.readFile. by rewrite lookup_insert_eq, lookup_insert_eq.
Qed.

(** X15: on a server where the session's directory name is free, a
    request all of whose frames have a buffer (decoded from [base64], or
    else downloaded from [url]) is answered with what the encoder makes
    of exactly these buffers, in the order of the request, at the
    requested frame rate (30 by default): the encoded video as a data URI
    of the requested format ([mp4] by default) with its size, or status
    500 with the encoder's error. *)
Theorem reassembly_encodes_the_frames_in_request_order (env : ReassembleRoute.Env)
    (frames : list ReassembleRoute.Frame) (bufs : list jsstring)
    (fps : option Z) (outputFormat : option jsstring) (fs : gmap jsstring Fs.Node) :
  fs !! ReassembleRoute.tempDirName env = None ->
  frames <> [] ->
  length bufs = length frames ->
  (forall k frame buf, frames !! k = Some frame -> bufs !! k = Some buf ->
     ReassembleRoute.frameBuffer env frame k = Ok buf) ->
  (ReassembleRoute.POST env (Some frames) fps outputFormat fs).1
  = match ReassembleRoute.ffmpeg env (default 30 fps) bufs with
    | ReassembleRoute.Encoded video =>
        ReassembleRoute.Json200
          (lit "data:video/" ++ default (lit "mp4") outputFormat ++ lit ";base64,"
             ++ ReassembleRoute.encodeBase64 env video)
          (len video)
    | ReassembleRoute.EncodeFailed _ e => ReassembleRoute.Err500 e
    end.
Proof. apply reassembly_answer. Qed.

Lemma reassembly_encodes_the_frames_in_request_order_witness :
  (ReassembleRoute.POST Examples.healthyServer
     (Some [Examples.urlFrame (lit "b"); Examples.urlFrame (lit "a")]) None None ∅).1
  = ReassembleRoute.Json200 (lit "data:video/mp4;base64,png:bpng:a") 10.
Proof.
  apply (reassembly_encodes_the_frames_in_request_order Examples.healthyServer
           [Examples.urlFrame (lit "b"); Examples.urlFrame (lit "a")]
           [lit "png:b"; lit "png:a"] None None ∅).
  - reflexivity.
  - discriminate.
  - reflexivity.
  - intros k frame buf Hframe Hbuf.
    do 2 (destruct k as [|k];
          [injection Hframe as <-; injection Hbuf as <-; reflexivity|]).
    discriminate Hframe.
Defined.

(** ** [convertFramesToBlobs] after [editFrames] *)

Section Blobs.
Import GeminiEditor.

Variable env : Env.

(** What the conversion loop downloads and what it returns. *)
Lemma convertLoop_spec (frames : list EditedFrame) :
  forall blobs fetched,
    (exists new,
       (convertLoop env frames blobs fetched).2 = fetched ++ new
       /\ Forall (fun u => exists e, e ∈ frames /\ editedBlob e = None /\ u = editedUrl e) new)
    /\ (forall all,
          (convertLoop env frames blobs fetched).1 = Ok all ->
          exists converted,
            all = blobs ++ converted
            /\ Forall2 (fun e blob =>
                          match editedBlob e with
                          | Some held => blob = held
                          | None => downloadImage env (editedUrl e) = Ok blob
                          end) frames converted).
Proof.
  induction frames as [|frame frames IH]; intros blobs fetched; cbn [convertLoop].
  - split.
    + exists []. by rewrite app_nil_r.
    + intros all [= <-]. exists []. by rewrite app_nil_r.
  - assert (Hlift : forall new : list jsstring,
              Forall (fun u => exists e, e ∈ frames /\ editedBlob e = None /\ u = editedUrl e) new ->
              Forall (fun u => exists e, e ∈ frame :: frames /\ editedBlob e = None
                                         /\ u = editedUrl e) new).
    { intros new Hnew. eapply Forall_impl; [exact Hnew|]. intros u (e & He & Hnone & ->).
      exists e. split; [by right|done]. }
    destruct (editedBlob frame) as [held|] eqn:Hblob.
    + destruct (IH (blobs ++ [held]) fetched) as [(new & -> & Hnew) Hall]. split.
      * exists new. split; [done|by apply Hlift].
      * intros all Hok. destruct (Hall all Hok) as (converted & -> & Hconv).
        exists (held :: converted). rewrite <- app_assoc. split; [done|].
        constructor; [by rewrite Hblob|done].
    + destruct (downloadImage env (editedUrl frame)) as [blob|e] eqn:Hdl.
      * destruct (IH (blobs ++ [blob]) (fetched ++ [editedUrl frame]))
          as [(new & -> & Hnew) Hall]. split.
        -- exists (editedUrl frame :: new). rewrite <- app_assoc. split; [done|].
           constructor; [|by apply Hlift]. exists frame. split; [by left|done].
        -- intros all Hok. destruct (Hall all Hok) as (converted & -> & Hconv).
           exists (blob :: converted). rewrite <- app_assoc. split; [done|].
           constructor; [by rewrite Hblob|done].
      * split; [|done]. exists [editedUrl frame]. split; [done|].
        constructor; [|done]. exists frame. split; [by left|done].
Qed.

(** An entry returned by [editFrames] either carries the blob that was
    downloaded from its edited URL, or the edit failed and it points at
    the original image. *)
Lemma editFrames_entries (frames : list Frame) (prompt : jsstring) :
  Forall (fun e =>
            (exists blob, editedBlob e = Some blob /\ downloadImage env (editedUrl e) = Ok blob)
            \/ (editedBlob e = None /\ editedUrl e = originalUrl e))
         (editFrames env frames prompt).1.
Proof.
  apply Forall_lookup. intros i e He.
  assert (Hi : (i < length frames)%nat)
    by (rewrite <- (editFrames_length env frames prompt); by eapply lookup_lt_Some).
  destruct (lookup_lt_is_Some_2 frames i Hi) as [frame Hframe].
  rewrite (editFrames_entry env frames prompt i frame Hframe) in He. injection He as <-.
  destruct (tryEdit env prompt frame i _) as [edited|err] eqn:Htry; [|by right].
  left. unfold tryEdit in Htry.
  destruct (editFrameApi env prompt _) as [editedUrl|]; [|discriminate].
  destruct (downloadImage env editedUrl) as [blob|] eqn:Hdl; [|discriminate].
  injection Htry as <-. by exists blob.
Qed.

End Blobs.

(** X16: when [convertFramesToBlobs] is given what [editFrames]
    returned and succeeds, it returns one blob per frame, the blob at
    each position being the image behind that entry's [editedUrl]; the
    only URLs it downloads are the original URLs of the frames whose edit
    failed, so a frame that could not be edited contributes its unedited
    image and an edited frame is never downloaded twice. *)
Theorem blobs_of_edited_frames (env : GeminiEditor.Env) (frames : list GeminiEditor.Frame)
    (prompt : jsstring) (blobs : list jsstring) :
  (GeminiEditor.convertFramesToBlobs env (GeminiEditor.editFrames env frames prompt).1).1
  = Ok blobs ->
  length blobs = length frames
  /\ (forall i e blob,
        (GeminiEditor.editFrames env frames prompt).1 !! i = Some e ->
        blobs !! i = Some blob ->
        GeminiEditor.downloadImage env (GeminiEditor.editedUrl e) = Ok blob)
  /\ Forall (fun u => exists e,
               e ∈ (GeminiEditor.editFrames env frames prompt).1
               /\ GeminiEditor.editedBlob e = None
               /\ u = GeminiEditor.originalUrl e)
            (GeminiEditor.convertFramesToBlobs env
               (GeminiEditor.editFrames env frames prompt).1).2.
Proof.
  intros Hok. unfold GeminiEditor.convertFramesToBlobs in *.
  pose proof (editFrames_entries env frames prompt) as Hentries.
  destruct (convertLoop_spec env (GeminiEditor.editFrames env frames prompt).1 [] [])
    as [(new & -> & Hnew) Hall].
  destruct (Hall blobs Hok) as (converted & -> & Hconv). simpl.
  split; [|split].
  - apply Forall2_length in Hconv. by rewrite <- Hconv, editFrames_length.
  - intros i e blob He Hblob.
    pose proof (Forall2_lookup_lr _ _ _ _ _ _ Hconv He Hblob) as Hmatch. simpl in Hmatch.
    rewrite Forall_lookup in Hentries.
    destruct (Hentries i e He) as [(held & Hheld & Hdl)|[Hnone _]].
    + rewrite Hheld in Hmatch. by subst.
    + by rewrite Hnone in Hmatch.
  - eapply Forall_impl; [exact Hnew|]. intros u (e & He & Hnone & ->).
    exists e. split; [done|]. split; [done|].
    rewrite Forall_forall in Hentries.
    destruct (Hentries e He) as [(held & Hheld & _)|[_ Hsame]]; [congruence|done].
Qed.

Lemma blobs_of_edited_frames_witness :
  (GeminiEditor.convertFramesToBlobs Examples.flakyEditor
     (GeminiEditor.editFrames Examples.flakyEditor Examples.threeFrames
        (lit "add sunglasses")).1).2 = [lit "u1"]
  /\ length [lit "blob"; lit "blob"; lit "blob"] = length Examples.threeFrames.
Proof.
  split; [vm_compute; reflexivity|].
  apply (blobs_of_edited_frames Examples.flakyEditor Examples.threeFrames
           (lit "add sunglasses") [lit "blob"; lit "blob"; lit "blob"]).
  vm_compute. reflexivity.
Defined.

(** ** The progress reports of [editFrames] *)

Lemma filter_none {A : Type} (P : A -> Prop) `{!forall x, Decision (P x)} (l : list A) :
  Forall (fun x => ~ P x) l -> filter P l = [].
Proof.
  induction 1 as [|x l Hx Hl IH]; [done|]. by rewrite filter_cons_False.
Qed.

Section Reports.
Import GeminiEditor.

Variable env : Env.
Variable prompt : jsstring.
Variable n : nat.

Local Abbreviation announced l := (length (filter (fun r => status r = processing) l)).
Local Abbreviation failures l := (length (filter (fun r => status r = error) l)).
Local Abbreviation unedited l := (length (filter (fun e => editedBlob e = None) l)).

Lemma tryEdit_blob (frame : Frame) (i : nat) prev (edited : EditedFrame) :
  tryEdit env prompt frame i prev = Ok edited -> editedBlob edited <> None.
Proof.
  unfold tryEdit. destruct (editFrameApi env prompt _); [|discriminate].
  destruct (downloadImage env _); [|discriminate]. by intros [= <-].
Qed.

Lemma step_reports (frame : Frame) (i : nat) (st : Loop) :
  announced (reported (step env prompt n frame i st)) = S (announced (reported st))
  /\ (failures (reported (step env prompt n frame i st)) + unedited (editedFrames st)
      = failures (reported st) + unedited (editedFrames (step env prompt n frame i st)))%nat
  /\ (Forall (fun r => status r <> completed) (reported st) ->
      Forall (fun r => status r <> completed) (reported (step env prompt n frame i st))).
Proof.
  unfold step.
  destruct (tryEdit env prompt frame i (previousEditedUrl st)) as [edited|e] eqn:Htry;
    cbn [reported editedFrames]; rewrite !filter_app, !length_app.
  - apply tryEdit_blob in Htry.
    rewrite (filter_cons_False (fun e => editedBlob e = None) edited []) by done.
    split; [simpl; lia|]. split; [simpl; lia|].
    intros Hst. apply Forall_app. split; [done|]. by repeat constructor.
  - split; [simpl; lia|]. split; [simpl; lia|].
    intros Hst. apply Forall_app. split; [done|]. by repeat constructor.
Qed.

Lemma loop_reports (frames : list Frame) : forall i st,
  announced (reported (loop env prompt n frames i st))
  = (announced (reported st) + length frames)%nat
  /\ (failures (reported (loop env prompt n frames i st)) + unedited (editedFrames st)
      = failures (reported st) + unedited (editedFrames (loop env prompt n frames i st)))%nat
  /\ (Forall (fun r => status r <> completed) (reported st) ->
      Forall (fun r => status r <> completed) (reported (loop env prompt n frames i st))).
Proof.
  induction frames as [|frame frames IH]; intros i st; cbn [loop].
  - split; [simpl; lia|]. split; [lia|done].
  - destruct (IH (S i) (step env prompt n frame i st)) as (Ha & Hf & Hc).
    destruct (step_reports frame i st) as (Ha' & Hf' & Hc').
    split; [simpl; lia|]. split; [lia|]. intros Hst. by apply Hc, Hc'.
Qed.

End Reports.

(** X17: [editFrames] announces every frame once, reports an error
    once for each frame it returns unedited, and ends, whatever happened,
    with the one report of status "completed", whose message is
    "All frames processed successfully". *)
Theorem editFrames_always_reports_success (env : GeminiEditor.Env)
    (frames : list GeminiEditor.Frame) (prompt : jsstring) :
  last (GeminiEditor.editFrames env frames prompt).2
  = Some {| GeminiEditor.current := length frames;
            GeminiEditor.total := length frames;
            GeminiEditor.currentFrame := None;
            GeminiEditor.status := GeminiEditor.completed;
            GeminiEditor.message := lit "All frames processed successfully" |}
  /\ length (filter (fun r => GeminiEditor.status r = GeminiEditor.completed)
               (GeminiEditor.editFrames env frames prompt).2) = 1%nat
  /\ length (filter (fun r => GeminiEditor.status r = GeminiEditor.processing)
               (GeminiEditor.editFrames env frames prompt).2) = length frames
  /\ length (filter (fun r => GeminiEditor.status r = GeminiEditor.error)
               (GeminiEditor.editFrames env frames prompt).2)
     = length (filter (fun e => GeminiEditor.editedBlob e = None)
                 (GeminiEditor.editFrames env frames prompt).1).
Proof.
  unfold GeminiEditor.editFrames. cbn [fst snd].
  set (start := {| GeminiEditor.editedFrames := [] |}).
  destruct (loop_reports env prompt (length frames) frames 0 start) as (Ha & Hf & Hc).
  rewrite last_snoc, !filter_app, !length_app.
  split; [done|]. split; [|split].
  - rewrite filter_none; [done|]. apply Hc. constructor.
  - rewrite Ha. simpl. lia.
  - simpl in *. lia.
Qed.

(** ** The frame the editing step scrolls to *)

Lemma latest_fold (rest : list VideoEditor.EditedFrame) : forall first,
  foldl (fun latest current =>
           if bool_decide (VideoEditor.index latest < VideoEditor.index current)%nat
           then current else latest) first rest ∈ first :: rest
  /\ forall e, e ∈ first :: rest ->
       (VideoEditor.index e
        <= VideoEditor.index
             (foldl (fun latest current =>
                       if bool_decide (VideoEditor.index latest < VideoEditor.index current)%nat
                       then current else latest) first rest))%nat.
Proof.
  induction rest as [|current rest IH]; intros first; cbn [foldl].
  - split; [by left|]. by intros e ->%list_elem_of_singleton.
  - destruct (IH (if bool_decide (VideoEditor.index first < VideoEditor.index current)%nat
                  then current else first)) as [Hin Hmax].
    split.
    + apply elem_of_cons in Hin as [Hin|Hin]; [|by do 2 right].
      rewrite Hin. case_bool_decide; [right|]; by left.
    + intros e He. apply elem_of_cons in He as [->|He].
      * etrans; [|apply Hmax; by left]. case_bool_decide; lia.
      * apply elem_of_cons in He as [->|He]; [|apply Hmax; by right].
        etrans; [|apply Hmax; by left]. case_bool_decide; lia.
Qed.

(** X18: whenever edited frames are held, the frame the auto-scroll
    effect looks for is one of them and has the highest index among
    them: the effect follows the frame that is furthest in the video,
    not the one that was edited last. *)
Theorem auto_scroll_targets_the_highest_index (editedFrames : list VideoEditor.EditedFrame) :
  editedFrames <> [] ->
  exists latest,
    VideoEditor.latestEditedFrame editedFrames = Some latest
    /\ latest ∈ editedFrames
    /\ forall e, e ∈ editedFrames -> (VideoEditor.index e <= VideoEditor.index latest)%nat.
Proof.
  intros Hne. destruct editedFrames as [|first rest]; [done|].
  eexists. split; [reflexivity|]. apply latest_fold.
Qed.

Lemma auto_scroll_targets_the_highest_index_witness :
  exists latest,
    VideoEditor.latestEditedFrame (VideoEditor.editedFrames Examples.outOfOrder.1) = Some latest
    /\ latest ∈ VideoEditor.editedFrames Examples.outOfOrder.1
    /\ forall e, e ∈ VideoEditor.editedFrames Examples.outOfOrder.1 ->
                 (VideoEditor.index e <= VideoEditor.index latest)%nat.
Proof.
  apply (auto_scroll_targets_the_highest_index
           (VideoEditor.editedFrames Examples.outOfOrder.1)).
  vm_compute. discriminate.
Defined.

(** ** The step indicators *)

(** X19: on every step exactly one of the four indicators of the
    header is active, and the indicators shown as completed are exactly
    those before the active one, together with the last one once the
    complete step is reached. *)
Theorem one_indicator_is_active (step : VideoEditor.ProcessingStep) :
  exists active,
    (1 <= active <= 4)%nat
    /\ (forall number, VideoEditor.indicatorActive number step = true <-> number = active)
    /\ (forall number, (1 <= number <= 4)%nat ->
          (VideoEditor.indicatorCompleted number step = true
           <-> (number < active)%nat \/ step = VideoEditor.complete)).
Proof.
  destruct step;
    [exists 1%nat|exists 2%nat|exists 2%nat|exists 3%nat|exists 4%nat|exists 4%nat];
    (split; [lia|]); split; intros number;
    try (intros Hrange);
    destruct number as [|[|[|[|[|number]]]]];
    vm_compute; intuition (try discriminate; try lia).
Qed.

(** ** The two variants of the edit route *)

(** X20: the edit route differs from its earlier variant only in
    what it refuses: on every request it either gives the same answer, or
    answers 400 where the earlier variant would have called the service,
    or passes on a 422 of the service that the earlier variant turned
    into a 500. Whenever it answers 200, the earlier variant answers the
    same. *)
Theorem validation_only_refuses (env : EditFrameRoute.Env) (prompt : option jsstring)
    (imageUrls : option (list jsstring)) :
  (EditFrameRoute.POST env prompt imageUrls = EditFrameRoute.POST_unvalidated env prompt imageUrls
   \/ (exists message, EditFrameRoute.POST env prompt imageUrls = EditFrameRoute.Err400 message)
   \/ (EditFrameRoute.POST env prompt imageUrls = EditFrameRoute.Err422
       /\ EditFrameRoute.POST_unvalidated env prompt imageUrls = EditFrameRoute.Err500))
  /\ (forall url, EditFrameRoute.POST env prompt imageUrls = EditFrameRoute.Json200 url ->
                  EditFrameRoute.POST_unvalidated env prompt imageUrls
                  = EditFrameRoute.Json200 url).
Proof.
  unfold EditFrameRoute.POST, EditFrameRoute.POST_unvalidated.
  destruct (truthy (EditFrameRoute.falApiKey env)); cbn [negb]; [|split; [by left|done]].
  destruct prompt as [[|c p]|]; try (split; [by left|done]).
  destruct imageUrls as [[|u us]|]; try (split; [by left|done]).
  cbv zeta.
  destruct (Z.ltb 2000 (len (c :: p))); [split; [right; left; by eexists|done]|].
  destruct (EditFrameRoute.validateImages 0 (u :: us)) as [e|];
    [split; [right; left; by eexists|done]|].
  destruct (EditFrameRoute.falSubscribe env (c :: p) (u :: us)); split; try done;
    first [by left | by do 2 right].
Qed.

(** ** The smoothing route *)

Section Smoothing.
Import Fs SmoothVideoRoute.

Lemma unlink_sub_present (d n c : jsstring) (es : gmap jsstring jsstring) (fs : FS) :
  fs !! d = Some (Dir es) -> es !! n = Some c ->
  unlink (Sub d n) fs = inr (<[d := Dir (delete n es)]> fs).
Proof. intros Hd Hn. unfold unlink. by rewrite Hd, Hn. Qed.

Lemma unlink_sub_absent (d n : jsstring) (es : gmap jsstring jsstring) (fs : FS) :
  fs !! d = Some (Dir es) -> es !! n = None -> unlink (Sub d n) fs = inl ENOENT.
Proof. intros Hd Hn. unfold unlink. by rewrite Hd, Hn. Qed.

Lemma unlink_top_dir (d : jsstring) (es : gmap jsstring jsstring) (fs : FS) :
  fs !! d = Some (Dir es) -> unlink (Top d) fs = inl EISDIR.
Proof. intros Hd. unfold unlink. by rewrite Hd. Qed.

Variable env : Env.

Local Abbreviation dir := (tempDirName env).
Local Abbreviation input := (inputFilename env).
Local Abbreviation output := (outputFilename env).

Lemma input_is_not_output : input <> output.
Proof. unfold inputFilename, outputFilename. simpl. discriminate. Qed.

(** The staging directory when ffmpeg has run: the input file, and the
    output file if one was written. *)
Local Abbreviation staged buffer video :=
  (<[output := video]> (<[input := buffer]> (∅ : gmap jsstring jsstring))).

Lemma staged_input (buffer video : jsstring) : staged buffer video !! input = Some buffer.
Proof.
  rewrite lookup_insert_ne by (intros H; by apply input_is_not_output).
  apply lookup_insert_eq.
Qed.

Lemma staged_output (buffer video : jsstring) :
  delete input (staged buffer video) !! output = Some video.
Proof.
  rewrite lookup_delete_ne by apply input_is_not_output. apply lookup_insert_eq.
Qed.

Lemma staged_emptied (buffer video : jsstring) :
  delete output (delete input (staged buffer video)) = ∅.
Proof.
  apply map_empty. intros k.
  destruct (decide (k = output)) as [->|Hout]; [apply lookup_delete_eq|].
  rewrite lookup_delete_ne by done.
  destruct (decide (k = input)) as [->|Hin]; [apply lookup_delete_eq|].
  rewrite lookup_delete_ne by done. by rewrite !lookup_insert_ne.
Qed.

(** Both cleanups empty a staging directory that holds the input and
    the output. *)
Lemma successCleanup_staged (buffer video : jsstring) (fs : FS) :
  successCleanup env (Sub dir input) (Sub dir output) (<[dir := Dir (staged buffer video)]> fs)
  = <[dir := Dir ∅]> fs.
Proof.
  unfold successCleanup. cbn [tryAll].
  rewrite (unlink_sub_present dir input buffer (staged buffer video));
    [|apply lookup_insert_eq|apply staged_input].
  rewrite insert_insert_eq.
  rewrite (unlink_sub_present dir output video (delete input (staged buffer video)));
    [|apply lookup_insert_eq|apply staged_output].
  rewrite insert_insert_eq, staged_emptied.
  by rewrite (unlink_top_dir dir ∅) by apply lookup_insert_eq.
Qed.

Lemma errorCleanup_staged (buffer video : jsstring) (fs : FS) :
  errorCleanup env (Some (Sub dir input)) (Some (Sub dir output))
    (<[dir := Dir (staged buffer video)]> fs)
  = <[dir := Dir ∅]> fs.
Proof.
  unfold errorCleanup. cbn [tryAll].
  rewrite (unlink_sub_present dir input buffer (staged buffer video));
    [|apply lookup_insert_eq|apply staged_input].
  rewrite insert_insert_eq.
  rewrite (unlink_sub_present dir output video (delete input (staged buffer video)));
    [|apply lookup_insert_eq|apply staged_output].
  rewrite insert_insert_eq, staged_emptied.
  assert (Hex : existsSync (Top dir) (<[dir := Dir ∅]> fs) = true)
    by (simpl; rewrite lookup_insert_eq; by apply bool_decide_eq_true_2).
  rewrite Hex. unfold readdirSync. rewrite lookup_insert_eq.
  rewrite dom_empty_L, elements_empty. cbn [fmap list_fmap app tryAll].
  by rewrite (unlink_top_dir dir ∅) by apply lookup_insert_eq.
Qed.

Lemma errorCleanup_input_only (buffer : jsstring) (fs : FS) :
  errorCleanup env (Some (Sub dir input)) (Some (Sub dir output))
    (<[dir := Dir (<[input := buffer]> ∅)]> fs)
  = <[dir := Dir ∅]> fs.
Proof.
  unfold errorCleanup. cbn [tryAll].
  rewrite (unlink_sub_present dir input buffer (<[input := buffer]> ∅));
    [|apply lookup_insert_eq|apply lookup_insert_eq].
  rewrite insert_insert_eq, delete_insert_id by done.
  by rewrite (unlink_sub_absent dir output ∅); [|apply lookup_insert_eq|].
Qed.

Lemma errorCleanup_nothing_staged (fs : FS) :
  errorCleanup env (Some (Sub dir input)) None (<[dir := Dir ∅]> fs) = <[dir := Dir ∅]> fs.
Proof.
  unfold errorCleanup. cbn [tryAll].
  by rewrite (unlink_sub_absent dir input ∅); [|apply lookup_insert_eq|].
Qed.

End Smoothing.

(** X21: on a server where the session's directory name is free,
    the smoothing route removes the input and the output file on
    every path, and leaves the empty staging directory behind: when it
    has answered a request that carries video data, the temporary
    directory holds what it held before plus that directory. *)
Theorem smoothing_leaves_only_the_empty_directory (env : SmoothVideoRoute.Env)
    (videoData : jsstring) (smoothingLevel : option jsstring) (fs : gmap jsstring Fs.Node) :
  fs !! SmoothVideoRoute.tempDirName env = None ->
  videoData <> [] ->
  (SmoothVideoRoute.POST env (Some videoData) smoothingLevel fs).2
  = <[SmoothVideoRoute.tempDirName env := Fs.Dir ∅]> fs.
Proof.
  intros Hfree Hdata. unfold SmoothVideoRoute.POST.
  destruct videoData as [|c data]; [done|].
  set (dir := SmoothVideoRoute.tempDirName env) in *.
  assert (Hex : Fs.existsSync (Fs.Top dir) fs = false).
  { simpl. rewrite Hfree. apply bool_decide_eq_false. by intros [? ?]. }
  rewrite Hex. unfold Fs.mkdir. rewrite Hfree. cbv zeta.
  destruct (SmoothVideoRoute.videoBuffer env (c :: data)) as [buffer|e]; cbn [snd].
  - unfold Fs.writeFile at 1. rewrite lookup_insert_eq, insert_insert_eq.
    destruct (SmoothVideoRoute.ffmpeg env _ buffer) as [video|[bytes|] message]; cbn [snd].
    + rewrite (orWarn_writeFile_sub dir _ video _ _ (lookup_insert_eq _ _ _)).
      rewrite insert_insert_eq.
      unfold Fs.readFile. rewrite !lookup_insert_eq. cbn [snd].
      apply successCleanup_staged.
    + rewrite (orWarn_writeFile_sub dir _ bytes _ _ (lookup_insert_eq _ _ _)).
      rewrite insert_insert_eq. apply errorCleanup_staged.
    + apply errorCleanup_input_only.
  - apply errorCleanup_nothing_staged.
Qed.

Lemma smoothing_leaves_only_the_empty_directory_witness :
  (SmoothVideoRoute.POST Examples.smoother (Some (lit "data:video/mp4;base64,AAAA"))
     (Some (lit "heavy")) ∅).2
  = {[ lit "video_smooth_51ab" := Fs.Dir ∅ ]}.
Proof.
  apply (smoothing_leaves_only_the_empty_directory Examples.smoother
           (lit "data:video/mp4;base64,AAAA") (Some (lit "heavy")) ∅).
  - reflexivity.
  - discriminate.
Defined.

(** X22: on a server where the session's directory name is free, a
    request whose video data can be decoded is answered with what ffmpeg
    makes of the decoded bytes under the filter of the requested level,
    as an [mp4] data URI with its size and the level as it was sent; a
    level that is neither "light" nor "heavy", or none at all, is
    smoothed with the filter of "medium". A failing ffmpeg gives status
    500 with its message. *)
Theorem smoothing_answers_with_the_filtered_video (env : SmoothVideoRoute.Env)
    (videoData buffer : jsstring) (smoothingLevel : option jsstring)
    (fs : gmap jsstring Fs.Node) :
  fs !! SmoothVideoRoute.tempDirName env = None ->
  SmoothVideoRoute.videoBuffer env videoData = Ok buffer ->
  videoData <> [] ->
  (SmoothVideoRoute.POST env (Some videoData) smoothingLevel fs).1
  = match SmoothVideoRoute.ffmpeg env
            (SmoothVideoRoute.videoFilter (default (lit "medium") smoothingLevel)) buffer with
    | SmoothVideoRoute.Smoothed video =>
        SmoothVideoRoute.Json200
          (lit "data:video/mp4;base64," ++ SmoothVideoRoute.encodeBase64 env video)
          (len video) (default (lit "medium") smoothingLevel)
    | SmoothVideoRoute.SmoothFailed _ message =>
        SmoothVideoRoute.Err500 (lit "FFmpeg smoothing failed: " ++ message)
    end
  /\ (smoothingLevel <> Some (lit "light") -> smoothingLevel <> Some (lit "heavy") ->
      SmoothVideoRoute.videoFilter (default (lit "medium") smoothingLevel)
      = SmoothVideoRoute.videoFilter (lit "medium")).
Proof.
  intros Hfree Hbuffer Hdata. split.
  - unfold SmoothVideoRoute.POST.
    destruct videoData as [|c data]; [done|].
    set (dir := SmoothVideoRoute.tempDirName env) in *.
    assert (Hex : Fs.existsSync (Fs.Top dir) fs = false).
    { simpl. rewrite Hfree. apply bool_decide_eq_false. by intros [? ?]. }
    rewrite Hex. unfold Fs.mkdir. rewrite Hfree. cbv zeta. rewrite Hbuffer.
    unfold Fs.writeFile at 1. rewrite lookup_insert_eq, insert_insert_eq.
    destruct (SmoothVideoRoute.ffmpeg env _ buffer) as [video|partialOutput message]; [|done].
    rewrite (orWarn_writeFile_sub dir _ video _ _ (lookup_insert_eq _ _ _)).
    unfold Fs.readFile. by rewrite !lookup_insert_eq.
  - intros Hlight Hheavy. destruct smoothingLevel as [level|]; [|done]. cbn [default].
    unfold SmoothVideoRoute.videoFilter.
    rewrite (bool_decide_eq_false_2 (level = lit "light")) by congruence.
    by rewrite (bool_decide_eq_false_2 (level = lit "heavy")) by congruence.
Qed.

Lemma smoothing_answers_with_the_filtered_video_witness :
  (SmoothVideoRoute.POST Examples.smoother (Some (lit "data:video/mp4;base64,AAAA,zz"))
     (Some (lit "extreme")) ∅).1
  = SmoothVideoRoute.Json200
      (lit "data:video/mp4;base64," ++ SmoothVideoRoute.videoFilter (lit "medium")
         ++ lit "|AAAA")
      (len (SmoothVideoRoute.videoFilter (lit "medium") ++ lit "|AAAA")) (lit "extreme").
Proof.
  destruct (smoothing_answers_with_the_filtered_video Examples.smoother
              (lit "data:video/mp4;base64,AAAA,zz") (lit "AAAA") (Some (lit "extreme")) ∅)
    as [Hanswer _].
  - reflexivity.
  - vm_compute. reflexivity.
  - discriminate.
  - exact Hanswer.
Defined.

(** ** User prompts of more than 1500 characters *)

(** X23: for a user prompt of more than 1500 characters the budget
    of the diff specification is negative: whatever the analysis
    returned, even nothing, the synthesized prompt carries only the
    truncation marker in its place, so the prompts of the remaining
    frames do not depend on the specification at all. *)
Theorem long_prompts_drop_the_specification (p d d' : jsstring) :
  1500 < len p ->
  PromptSynthesis.truncatedDiff d p = lit "... [truncated]"
  /\ PromptSynthesis.diffBasedPrompt d p = PromptSynthesis.diffBasedPrompt d' p.
Proof.
  intros Hlong.
  assert (Hcut : forall x, PromptSynthesis.truncatedDiff x p = lit "... [truncated]").
  { intros x. unfold PromptSynthesis.truncatedDiff, PromptSynthesis.maxDiffLength.
    pose proof (len_nonneg x).
    destruct (Z.ltb_spec (1500 - len p) (len x)) as [_|Hle]; [|lia].
    rewrite substring_prefix. by destruct (1500 - len p) eqn:Hbudget; [lia|lia|]. }
  split; [apply Hcut|]. unfold PromptSynthesis.diffBasedPrompt. by rewrite !Hcut.
Qed.

Lemma long_prompts_drop_the_specification_witness :
  PromptSynthesis.diffBasedPrompt (lit "Add aviator sunglasses") (replicate 1600 97%N)
  = PromptSynthesis.diffBasedPrompt [] (replicate 1600 97%N).
Proof.
  apply (long_prompts_drop_the_specification (replicate 1600 97%N)
           (lit "Add aviator sunglasses") []).
  vm_compute. reflexivity.
Defined.

(** ** The names of the temporary files *)

(** X24: within a request no two frames share a temporary file:
    the extraction route names the files of different indices
    differently, and so does the reassembly route for different
    positions, also beyond the four digits it pads to. *)
Theorem frame_files_are_distinct (env : ExtractFramesRoute.Env) (i j : nat) :
  i <> j ->
  ExtractFramesRoute.frameFilename env i <> ExtractFramesRoute.frameFilename env j
  /\ ReassembleRoute.frameFilename i <> ReassembleRoute.frameFilename j.
Proof.
  intros Hne. split; intros Heq; apply Hne.
  - unfold ExtractFramesRoute.frameFilename in Heq.
    do 3 apply app_inv_head in Heq. apply app_inv_tail in Heq. by apply toString_inj.
  - by apply frameFilename_inj.
Qed.

Lemma frame_files_are_distinct_witness :
  ReassembleRoute.frameFilename 1 <> ReassembleRoute.frameFilename 10.
Proof.
  apply (frame_files_are_distinct Examples.clipEnv 1 10). lia.
Defined.

(** ** The edit requests of a run *)

Lemma omap_none {A B : Type} (f : A -> option B) (l : list A) :
  Forall (fun x => f x = None) l -> omap f l = [].
Proof. induction 1 as [|x l Hx Hl IH]; [done|]. simpl. by rewrite Hx. Qed.

Lemma requestedFrames_requests (originalPrompt diff : jsstring)
    (d : list (nat * VideoEditor.ExtractedFrame)) :
  VideoEditor.requestedFrames (VideoEditor.requests originalPrompt diff d) = d.*1.
Proof.
  unfold VideoEditor.requestedFrames, VideoEditor.requests.
  induction d as [|[k frame] d IH]; [done|]. simpl. by f_equal.
Qed.

(** X25: once the reference frame has been edited and analysed,
    the handler requests the edit of every other frame exactly once, in
    the order of the frames and before waiting for any of them: however
    the fan-out completes, and whichever of its requests fail, the edit
    requests of the run are those of the frames 0, 1, ..., n-1. The
    analysis is requested even when there is no frame but the first. *)
Theorem every_frame_is_requested_once (env : VideoEditor.Env) (s : VideoEditor.State)
    (firstFrame : VideoEditor.ExtractedFrame) (remaining : list VideoEditor.ExtractedFrame)
    (url diff : jsstring) :
  VideoEditor.extractedFrames s = firstFrame :: remaining ->
  VideoEditor.editFrameApi env (PromptSynthesis.firstFramePrompt (VideoEditor.prompt s))
    [ExtractFramesRoute.base64 firstFrame] = Ok url ->
  VideoEditor.analyzeDiffApi env (VideoEditor.prompt s)
    (ExtractFramesRoute.base64 firstFrame) url = Ok diff ->
  VideoEditor.requestedFrames (VideoEditor.handleProcessFrames env s).2
  = seq 0 (length (VideoEditor.extractedFrames s))
  /\ VideoEditor.DiffRequested ∈ (VideoEditor.handleProcessFrames env s).2.
Proof.
  intros Hex Hfirst Hdiff.
  destruct (handleProcessFrames_cases env s firstFrame remaining Hex)
    as [(e & He & _)|[(url' & e & Hurl & He & _)|(url' & diff' & Hurl & Hdiff' & ->)]];
    [congruence| |].
  { assert (url' = url) as -> by congruence. congruence. }
  match goal with
  | |- context [VideoEditor.fanOutAndReassemble ?e ?p ?d ?m ?f ?r ?b ?st] =>
      destruct (outcome_trace e p d m f r b st eq_refl eq_refl)
        as (settles & phase & -> & Hsettles & Hphase & _)
  end.
  split.
  - unfold VideoEditor.requestedFrames. rewrite !omap_app.
    fold (VideoEditor.requestedFrames
            (VideoEditor.requests (VideoEditor.prompt s) diff' (VideoEditor.dispatch remaining))).
    rewrite requestedFrames_requests, dispatch_keys.
    rewrite (omap_none _ settles), (omap_none _ phase).
    + rewrite Hex, !app_nil_r. reflexivity.
    + eapply Forall_impl; [exact Hphase|].
      intros ev [(u & ->)|[(a & -> & _)|[(a & ok & ->)|[->|(video & ->)]]]]; done.
    + eapply Forall_impl; [exact Hsettles|]. by intros ev (j & ok & ->).
  - rewrite !elem_of_app. left. left. do 2 right. by left.
Qed.

Lemma every_frame_is_requested_once_witness :
  VideoEditor.requestedFrames Examples.oneOfTen.2 = seq 0 10.
Proof.
  apply (every_frame_is_requested_once
           (Examples.session [4%nat] [3; 1; 4; 9; 2; 8; 5; 7; 6]%nat [1%nat]) (Examples.ready 10)
           {| ExtractFramesRoute.index := 0;
              ExtractFramesRoute.timestamp := inject_Z 0;
              ExtractFramesRoute.filename := lit "frame_1b4e28ba_0.png";
              ExtractFramesRoute.base64 := lit "data:image/png;base64,0" |}
           (tail (Examples.extracted 10)) (lit "https://fal.media/0")
           (lit "Add aviator sunglasses")).
  - vm_compute. reflexivity.
  - vm_compute. reflexivity.
  - reflexivity.
Defined.

(** ** The reference image of [editFrames] *)

Section Chaining.
Import GeminiEditor.

Variable env : Env.
Variable prompt : jsstring.
Variable n : nat.

(** The URL of the most recent edit that succeeded. *)
Local Abbreviation lastEdited l :=
  (last (editedUrl <$> filter (fun e => editedBlob e <> None) l)).

Lemma step_reference (frame : Frame) (i : nat) (st : Loop) :
  previousEditedUrl st = lastEdited (editedFrames st) ->
  previousEditedUrl (step env prompt n frame i st)
  = lastEdited (editedFrames (step env prompt n frame i st)).
Proof.
  intros Hst. unfold step.
  destruct (tryEdit env prompt frame i (previousEditedUrl st)) as [edited|e] eqn:Htry;
    cbn [previousEditedUrl editedFrames]; rewrite filter_app.
  - apply tryEdit_blob in Htry.
    rewrite (filter_cons_True (fun e => editedBlob e <> None) edited []) by done.
    rewrite filter_nil, fmap_app. apply eq_sym, last_snoc.
  - rewrite (filter_cons_False (fun e => editedBlob e <> None) _ []) by (simpl; tauto).
    by rewrite filter_nil, app_nil_r.
Qed.

Lemma loop_reference (frames : list Frame) : forall i st,
  previousEditedUrl st = lastEdited (editedFrames st) ->
  previousEditedUrl (loop env prompt n frames i st)
  = lastEdited (editedFrames (loop env prompt n frames i st)).
Proof.
  induction frames as [|frame frames IH]; intros i st Hst; cbn [loop]; [done|].
  by apply IH, step_reference.
Qed.

End Chaining.

(** X26: [editFrames] edits each frame with, as second image, the
    result of the most recent earlier frame whose edit succeeded (the
    first frame, and every frame before the first success, goes alone):
    the entry at a position is the edit of its frame with that reference,
    or the unedited frame if that edit fails. *)
Theorem editFrames_chains_on_the_last_success (env : GeminiEditor.Env)
    (frames : list GeminiEditor.Frame) (prompt : jsstring) (i : nat)
    (frame : GeminiEditor.Frame) :
  frames !! i = Some frame ->
  (GeminiEditor.editFrames env frames prompt).1 !! i
  = Some match GeminiEditor.tryEdit env prompt frame i
                 (last (GeminiEditor.editedUrl
                          <$> filter (fun e => GeminiEditor.editedBlob e <> None)
                                (take i (GeminiEditor.editFrames env frames prompt).1))) with
         | Ok edited => edited
         | Thrown _ => {| GeminiEditor.ef_index := GeminiEditor.index frame;
                          GeminiEditor.originalUrl := GeminiEditor.url frame;
                          GeminiEditor.editedUrl := GeminiEditor.url frame;
                          GeminiEditor.editedBlob := None |}
         end.
Proof.
  intros Hi. rewrite (editFrames_entry env frames prompt i frame Hi).
  set (init := {| GeminiEditor.editedFrames := [] |}).
  assert (Htake : GeminiEditor.editedFrames
                    (GeminiEditor.loop env prompt (length frames) (take i frames) 0 init)
                  = take i (GeminiEditor.editFrames env frames prompt).1).
  { unfold GeminiEditor.editFrames. cbn [fst]. fold init.
    replace (GeminiEditor.loop env prompt (length frames) frames 0 init)
      with (GeminiEditor.loop env prompt (length frames) (take i frames ++ drop i frames) 0 init)
      by (by rewrite take_drop).
    rewrite loop_app.
    destruct (loop_extends env prompt (length frames) (take i frames) 0%nat init)
      as (pre & Hpre & Hprelen).
    destruct (loop_extends env prompt (length frames) (drop i frames)
                (0 + length (take i frames))
                (GeminiEditor.loop env prompt (length frames) (take i frames) 0 init))
      as (new & -> & _).
    rewrite Hpre. simpl. rewrite take_app_length'; [done|].
    rewrite Hprelen, length_take. apply lookup_lt_Some in Hi. lia. }
  rewrite <- Htake. by rewrite (loop_reference env prompt (length frames) (take i frames) 0 init).
Qed.

Lemma editFrames_chains_on_the_last_success_witness :
  (GeminiEditor.editFrames Examples.flakyEditor Examples.threeFrames (lit "add sunglasses")).1
    !! 2%nat
  = Some {| GeminiEditor.ef_index := 2; GeminiEditor.originalUrl := lit "u2";
            GeminiEditor.editedUrl := lit "edited:u2";
            GeminiEditor.editedBlob := Some (lit "blob") |}.
Proof.
  rewrite (editFrames_chains_on_the_last_success Examples.flakyEditor Examples.threeFrames
             (lit "add sunglasses") 2
             {| GeminiEditor.index := 2; GeminiEditor.url := lit "u2" |}).
  - vm_compute. reflexivity.
  - reflexivity.
Defined.

(** ** The answers of the analysis route *)

(** X27: the analysis route answers 200 exactly when the key is
    configured, the three parameters are present and non-empty, the
    edited frame could be downloaded and the model has answered; the
    specification it returns is then the model's text, unchanged if it
    has at most 5000 characters and otherwise its first 4997 characters
    followed by "...", and the length it reports is that of the returned
    specification. *)
Theorem analysis_answers_with_the_models_text (env : AnalyzeDiffRoute.Env)
    (originalPrompt originalFrameBase64 editedFrameUrl : option jsstring)
    (detailedDiff : jsstring) (diffLength : Z) :
  AnalyzeDiffRoute.POST env originalPrompt originalFrameBase64 editedFrameUrl
  = AnalyzeDiffRoute.Json200 detailedDiff diffLength <->
  truthy (AnalyzeDiffRoute.googleApiKey env) = true
  /\ exists p original url edited text,
       originalPrompt = Some p /\ originalFrameBase64 = Some original
       /\ editedFrameUrl = Some url
       /\ p <> [] /\ original <> [] /\ url <> []
       /\ AnalyzeDiffRoute.fetchEdited env url = Some edited
       /\ AnalyzeDiffRoute.generateContent env p original edited = Some text
       /\ detailedDiff = (if Z.ltb 5000 (len text) then take 4997 text ++ lit "..." else text)
       /\ diffLength = len detailedDiff.
Proof.
  assert (Hlimit : forall text,
            AnalyzeDiffRoute.enforceLimit text
            = if Z.ltb 5000 (len text) then take 4997 text ++ lit "..." else text).
  { intros text. unfold AnalyzeDiffRoute.enforceLimit.
    destruct (Z.ltb 5000 (len text)); [|done]. by rewrite substring_prefix. }
  unfold AnalyzeDiffRoute.POST.
  destruct (truthy (AnalyzeDiffRoute.googleApiKey env)); cbn [negb];
    [|split; [done|by intros [? _]]].
  split.
  - intros H. split; [done|].
    destruct originalPrompt as [[|c1 p]|]; try discriminate.
    destruct originalFrameBase64 as [[|c2 o]|]; try discriminate.
    destruct editedFrameUrl as [[|c3 u]|]; try discriminate.
    destruct (AnalyzeDiffRoute.fetchEdited env (c3 :: u)) as [edited|] eqn:Hfetch;
      [|discriminate].
    destruct (AnalyzeDiffRoute.generateContent env (c1 :: p) (c2 :: o) edited) as [text|]
      eqn:Hmodel; [|discriminate].
    cbv zeta in H. injection H as <- <-.
    exists (c1 :: p), (c2 :: o), (c3 :: u), edited, text. by rewrite Hlimit.
  - intros (_ & p & o & u & edited & text & -> & -> & -> & Hp & Ho & Hu & Hfetch & Hmodel
              & -> & ->).
    destruct p as [|c1 p]; [done|]. destruct o as [|c2 o]; [done|].
    destruct u as [|c3 u]; [done|].
    rewrite Hfetch, Hmodel. cbv zeta. by rewrite Hlimit.
Qed.

(** ** The progress of the fan-out *)

Section Progress.
Import VideoEditor.

Variable env : Env.
Variables originalPrompt diff : jsstring.
Variable n : nat.

(** The bar is not over-full, and the completions counted so far leave
    room for those still in flight. *)
Local Abbreviation bounded f :=
  (lt (Nat.add (completedFrames f) (length (pending f))) n
   /\ exists report,
        progress (fanState f) = Some report
        /\ le (current report) (total report)
        /\ total report = Nat.add n 2).

Lemma settle_bounded (f : Fan) (k : nat) :
  bounded f -> bounded (settle env originalPrompt diff n f k).
Proof.
  intros [Hcount Hbar]. unfold settle.
  destruct (list_find (fun p => p.1 = k) (pending f)) as [[pos [k' frame]]|] eqn:Hfind;
    [|done].
  apply list_find_Some in Hfind as (Hpos & _ & _).
  pose proof (length_delete _ _ (mk_is_Some _ _ Hpos)) as Hdel.
  pose proof (lookup_lt_Some _ _ _ Hpos) as Hlt.
  destruct (editFrameApi env _ _) as [url|e]; cbn [completedFrames pending fanState].
  - split; [lia|]. eexists. split; [reflexivity|]. simpl. lia.
  - split; [lia|]. destruct (rejected f); [done|]. exact Hbar.
Qed.

Lemma run_bounded (order : list nat) : forall f,
  bounded f -> bounded (foldl (settle env originalPrompt diff n) f order).
Proof.
  induction order as [|k order IH]; intros f Hf; [done|]. by apply IH, settle_bounded.
Qed.

End Progress.

(** X28: whenever [handleProcessFrames] is waiting or has ended, on
    any path and in any completion order, the progress it has set counts
    up to the number of frames plus two and its current value is not
    above that total: the progress bar is never over-full. *)
Theorem progress_never_exceeds_its_total (env : VideoEditor.Env) (s : VideoEditor.State) :
  VideoEditor.extractedFrames s <> [] ->
  exists report,
    VideoEditor.progress (VideoEditor.handleProcessFrames env s).1 = Some report
    /\ (VideoEditor.current report <= VideoEditor.total report)%nat
    /\ VideoEditor.total report = (length (VideoEditor.extractedFrames s) + 2)%nat.
Proof.
  intros Hne.
  destruct (VideoEditor.extractedFrames s) as [|firstFrame remaining] eqn:Hex; [done|].
  destruct (handleProcessFrames_cases env s firstFrame remaining Hex)
    as [(e & _ & ->)|[(url & e & _ & _ & ->)|(url & diff & _ & _ & ->)]].
  - eexists. split; [reflexivity|]. rewrite Hex. simpl. lia.
  - eexists. split; [reflexivity|]. rewrite Hex. simpl. lia.
  - rewrite Hex. cbn [length].
    match goal with
    | |- context [VideoEditor.fanOutAndReassemble ?e ?p ?d ?m ?f ?r ?b ?st] =>
        destruct (fanOutAndReassemble_cases e p d m f r b st)
          as [[Hrem ->]|[(_ & _ & ->)|(_ & _ & _ & ->)]];
        pose proof (run_bounded e p d m (VideoEditor.completionOrder e)
                      {| VideoEditor.fanState := st;
                         VideoEditor.allEditedFrames := [f];
                         VideoEditor.completedFrames := 0;
                         VideoEditor.pending := VideoEditor.dispatch r;
                         VideoEditor.rejected := false;
                         VideoEditor.events :=
                           b ++ VideoEditor.requests p d (VideoEditor.dispatch r) |}) as Hrun;
        pose proof (run_extracted e p d m (VideoEditor.completionOrder e)
                      {| VideoEditor.fanState := st;
                         VideoEditor.allEditedFrames := [f];
                         VideoEditor.completedFrames := 0;
                         VideoEditor.pending := VideoEditor.dispatch r;
                         VideoEditor.rejected := false;
                         VideoEditor.events :=
                           b ++ VideoEditor.requests p d (VideoEditor.dispatch r) |}) as Hkept
    end; cbn [fst].
    + match goal with
      | |- context [VideoEditor.reassemblePhase env ?all ?st] =>
          destruct (reassemblePhase_cases env all st)
            as [(video & attempts & -> & _)|(e1 & e2 & _ & _ & ->)]
      end; cbn [fst]; (eexists; split; [reflexivity|]); simpl; rewrite ?Hex; simpl; lia.
    + destruct Hrun as [_ (report & Hreport & Hle & Htotal)].
      { cbn [VideoEditor.completedFrames VideoEditor.pending VideoEditor.fanState].
        split.
        - rewrite <- (length_fmap fst), dispatch_keys, length_seq. lia.
        - eexists. split; [reflexivity|]. simpl. lia. }
      exists report. unfold VideoEditor.fanOut. rewrite Hreport. split; [done|].
      split; [done|]. rewrite Htotal. lia.
    + match goal with
      | |- context [VideoEditor.reassemblePhase env ?all ?st] =>
          destruct (reassemblePhase_cases env all st)
            as [(video & attempts & -> & _)|(e1 & e2 & _ & _ & ->)]
      end; cbn [fst]; (eexists; split; [reflexivity|]).
      * simpl. lia.
      * cbn [VideoEditor.current VideoEditor.total VideoEditor.allProcessed
               VideoEditor.extractedFrames VideoEditor.setProgress VideoEditor.setCurrentStep].
        unfold VideoEditor.fanOut. rewrite Hkept. simpl. rewrite Hex. simpl. lia.
Qed.

Lemma progress_never_exceeds_its_total_witness :
  exists report,
    VideoEditor.progress Examples.oneOfTen.1 = Some report
    /\ (VideoEditor.current report <= VideoEditor.total report)%nat
    /\ VideoEditor.total report = 12%nat.
Proof.
  apply (progress_never_exceeds_its_total
           (Examples.session [4%nat] [3; 1; 4; 9; 2; 8; 5; 7; 6]%nat [1%nat])
           (Examples.ready 10)).
  vm_compute. discriminate.
Defined.

(** ** From the extraction to the pipeline *)

(** X29: an extraction that returns at least one frame puts the
    component on the editing step, and the auto-start effect then runs
    the pipeline exactly when no edited frame was held before. *)
Theorem extraction_starts_the_pipeline (parallel : bool) (server : ExtractFramesRoute.Env)
    (videoFile : jsstring) (frameInterval : Z) (maxFrames : option Z) (s : VideoEditor.State)
    (frame : VideoEditor.ExtractedFrame) (frames : list VideoEditor.ExtractedFrame)
    (m : ExtractFramesRoute.Metadata) :
  trim (VideoEditor.prompt s) <> [] ->
  ExtractFramesRoute.handler parallel server (Some videoFile) (Some frameInterval)
    (Some match maxFrames with
          | Some 0 | None => 10
          | Some k => k
          end)
  = ExtractFramesRoute.Json200 (frame :: frames) m ->
  VideoEditor.currentStep
    (VideoEditor.handleExtractFrames (ExtractFramesRoute.handler parallel server) videoFile
       frameInterval maxFrames s) = VideoEditor.editing
  /\ VideoEditor.extractedFrames
       (VideoEditor.handleExtractFrames (ExtractFramesRoute.handler parallel server) videoFile
          frameInterval maxFrames s) = frame :: frames
  /\ (VideoEditor.autoStarts
        (VideoEditor.handleExtractFrames (ExtractFramesRoute.handler parallel server) videoFile
           frameInterval maxFrames s) = true
      <-> VideoEditor.editedFrames s = []).
Proof.
  intros Hprompt Hrun. rewrite handleExtractFrames_run by done.
  rewrite <- (handler_variants parallel), Hrun.
  split; [done|]. split; [done|]. rewrite autoStarts_true. cbn. intuition discriminate.
Qed.

Lemma extraction_starts_the_pipeline_witness :
  VideoEditor.autoStarts
    (VideoEditor.handleExtractFrames (ExtractFramesRoute.handler false Examples.clipEnv)
       (lit "clip.mp4") 30 None (Examples.ready 0)) = true.
Proof.
  apply (extraction_starts_the_pipeline false Examples.clipEnv (lit "clip.mp4") 30 None
           (Examples.ready 0)
           {| ExtractFramesRoute.index := 0;
              ExtractFramesRoute.timestamp := ExtractFramesRoute.timestampOf Examples.clipMetadata 30 0;
              ExtractFramesRoute.filename := lit "frame_1b4e28ba_0.png";
              ExtractFramesRoute.base64 := lit "data:image/png;base64,iVBORw0KGgo=" |}
           [{| ExtractFramesRoute.index := 1;
               ExtractFramesRoute.timestamp :=
                 ExtractFramesRoute.timestampOf Examples.clipMetadata 30 1;
               ExtractFramesRoute.filename := lit "frame_1b4e28ba_1.png";
               ExtractFramesRoute.base64 := lit "data:image/png;base64,iVBORw0KGgo=" |}]
           Examples.clipMetadata).
  - vm_compute. discriminate.
  - vm_compute. reflexivity.
  - reflexivity.
Defined.

(** ** Manual assembly against the route *)

(** X30: the reassembly requests being served by the reassembly
    route, a manual assembly takes the edited frames as they are held,
    whatever their indices: when the image of each can be downloaded and
    the encoder accepts them, the component ends on the complete step
    with the video the encoder made of exactly these images, in the order
    in which they are held, at 30 frames per second. *)
Theorem manual_assembly_encodes_the_held_frames (env : VideoEditor.Env)
    (server : ReassembleRoute.Env) (atob : jsstring -> jsstring)
    (fs : gmap jsstring Fs.Node) (attempt : nat) (s : VideoEditor.State)
    (images : list jsstring) (video : jsstring) :
  VideoEditor.reassembleApi env attempt = VideoProcessor.fetchReassemble server atob fs ->
  fs !! ReassembleRoute.tempDirName server = None ->
  VideoEditor.editedFrames s <> [] ->
  Forall2 (fun e image =>
             VideoEditor.editedUrl e <> []
             /\ ReassembleRoute.fetchUrl server (VideoEditor.editedUrl e) = Ok image)
          (VideoEditor.editedFrames s) images ->
  ReassembleRoute.ffmpeg server 30 images = ReassembleRoute.Encoded video ->
  VideoEditor.currentStep (VideoEditor.handleManualAssemble env attempt s).1
  = VideoEditor.complete
  /\ VideoEditor.editedVideoUrl (VideoEditor.handleManualAssemble env attempt s).1
     = Some (VideoEditor.createObjectURL env
               (atob (lit "data:video/mp4;base64,"
                        ++ ReassembleRoute.encodeBase64 server video))).
Proof.
  intros Hapi Hfree Hne Himages Hencoded.
  assert (Hok : VideoEditor.reassembleVideo env attempt
                  (VideoEditor.forReassembly (VideoEditor.editedFrames s))
                = Ok (atob (lit "data:video/mp4;base64,"
                              ++ ReassembleRoute.encodeBase64 server video))).
  { unfold VideoEditor.reassembleVideo, VideoProcessor.reassembleVideo. cbn [default].
    rewrite Hapi. unfold VideoProcessor.fetchReassemble.
    rewrite (reassembly_answer server _ images (Some 30) (Some (lit "mp4")) fs Hfree).
    - cbn [from_option id]. by rewrite Hencoded.
    - unfold VideoProcessor.requestFrames, VideoEditor.forReassembly.
      destruct (VideoEditor.editedFrames s); [done|discriminate].
    - unfold VideoProcessor.requestFrames, VideoEditor.forReassembly.
      rewrite !length_fmap. symmetry. by eapply Forall2_length.
    - intros k frame image Hframe Himage.
      unfold VideoProcessor.requestFrames, VideoEditor.forReassembly in Hframe.
      rewrite !list_lookup_fmap in Hframe.
      destruct (VideoEditor.editedFrames s !! k) as [e|] eqn:He; [|discriminate].
      injection Hframe as <-.
      destruct (Forall2_lookup_lr _ _ _ _ _ _ Himages He Himage) as [Hurl Hfetch].
      unfold ReassembleRoute.frameBuffer.
      cbn [ReassembleRoute.base64 ReassembleRoute.url VideoProcessor.base64 VideoProcessor.url].
      destruct (VideoEditor.editedUrl e) as [|c u]; [done|]. by rewrite Hfetch. }
  unfold VideoEditor.handleManualAssemble.
  destruct (VideoEditor.editedFrames s) as [|e es] eqn:Hed; [done|].
  cbv zeta.
  cbn [VideoEditor.editedFrames VideoEditor.setIsProcessing VideoEditor.setCurrentStep].
  by rewrite Hok.
Qed.

Lemma manual_assembly_encodes_the_held_frames_witness :
  VideoEditor.editedVideoUrl
    (VideoEditor.handleManualAssemble Examples.assembledSession 1
       (VideoEditor.handleGoToStep VideoEditor.editing Examples.oneMissing.1)).1
  = Some (lit "blob:png:https://fal.media/0png:https://fal.media/2").
Proof.
  apply (manual_assembly_encodes_the_held_frames Examples.assembledSession
           Examples.healthyServer (drop 22) ∅ 1
           (VideoEditor.handleGoToStep VideoEditor.editing Examples.oneMissing.1)
           [lit "png:https://fal.media/0"; lit "png:https://fal.media/2"]
           (lit "png:https://fal.media/0png:https://fal.media/2")).
  - reflexivity.
  - reflexivity.
  - vm_compute. discriminate.
  - vm_compute. repeat constructor; discriminate.
  - vm_compute. reflexivity.
Defined.
